(** * balcaoDeNegocios: the authentication flow of the REST API

    A shallow embedding of [routes/auth.js], [middleware/auth.js] and of the
    listing endpoints of [routes/contatos.js] and [routes/empresas.js],
    with the properties of the authentication and session-validation flow.

    JavaScript strings are sequences of UTF-16 code units; request fields
    are JavaScript primitives; the handlers run in a small monad over the
    world they act on (the PostgreSQL tables behind [pool], the process
    environment, the clock) in which a JavaScript exception is an outcome
    of its own, caught by the handlers' [try]/[catch]. *)

From Stdlib Require Import List ZArith NArith Bool String Ascii Lia Permutation.
Import ListNotations.

Local Open Scope Z_scope.

(* ===================================================================== *)
(** ** JavaScript strings *)
(* ===================================================================== *)

(** A JavaScript string: its UTF-16 code units, so that [length] is the
    JavaScript [.length]. *)
Definition jsstring := list N.

Definition N_of_byte (a : ascii) : N := N_of_ascii a.

(** Decoding of the UTF-8 bytes of a source literal into code units
    (sequences of one, two and three bytes: the Basic Multilingual Plane,
    which covers every literal of the modelled files). *)
Fixpoint utf16_of_utf8 (bs : list N) : jsstring :=
  match bs with
  | [] => []
  | b1 :: rest =>
      if (b1 <? 128)%N then b1 :: utf16_of_utf8 rest
      else if (b1 <? 224)%N then
        match rest with
        | b2 :: rest' =>
            (N.lor (N.shiftl (N.land b1 31) 6) (N.land b2 63)) :: utf16_of_utf8 rest'
        | [] => [b1]
        end
      else
        match rest with
        | b2 :: b3 :: rest' =>
            (N.lor (N.shiftl (N.land b1 15) 12)
               (N.lor (N.shiftl (N.land b2 63) 6) (N.land b3 63))) :: utf16_of_utf8 rest'
        | _ => b1 :: rest
        end
  end.

(** A string literal of the source as a JavaScript string. *)
Definition lit (s : string) : jsstring :=
  utf16_of_utf8 (map N_of_byte (list_ascii_of_string s)).

Fixpoint jsstring_eqb (a b : jsstring) : bool :=
  match a, b with
  | [], [] => true
  | x :: a', y :: b' => (x =? y)%N && jsstring_eqb a' b'
  | _, _ => false
  end.

(** [s.length] *)
Definition js_length (s : jsstring) : Z := Z.of_nat (List.length s).

(** [s.startsWith(p)] *)
Fixpoint startsWith (s p : jsstring) : bool :=
  match p, s with
  | [], _ => true
  | c :: p', d :: s' => (c =? d)%N && startsWith s' p'
  | _ :: _, [] => false
  end.

(** [s.split(sep)] for a separator of one code unit: the pieces between
    the occurrences of [sep], in order; never empty. *)
Fixpoint split_on (sep : N) (s : jsstring) : list jsstring :=
  match s with
  | [] => [[]]
  | c :: s' =>
      if (c =? sep)%N then [] :: split_on sep s'
      else match split_on sep s' with
           | piece :: pieces => (c :: piece) :: pieces
           | [] => [[c]]
           end
  end.

(* ===================================================================== *)
(** ** Regular expressions *)
(* ===================================================================== *)

(** The fragment of JavaScript regular expressions the routes use, with
    [RegExp.prototype.test] on a pattern anchored by [^] and [$]: the
    whole string has to match. Matching is by derivatives. *)
Inductive regex : Type :=
| RVoid                                (* matches nothing *)
| REps                                 (* matches the empty string *)
| RClass (p : N -> bool)               (* one code unit of a class *)
| RCat (r1 r2 : regex)
| RAlt (r1 r2 : regex)
| RStar (r : regex).

(** [r+] *)
Definition RPlus (r : regex) : regex := RCat r (RStar r).

Fixpoint nullable (r : regex) : bool :=
  match r with
  | RVoid => false
  | REps => true
  | RClass _ => false
  | RCat r1 r2 => nullable r1 && nullable r2
  | RAlt r1 r2 => nullable r1 || nullable r2
  | RStar _ => true
  end.

(** Smart constructors: they keep the derivatives small. *)
Definition rcat (r1 r2 : regex) : regex :=
  match r1, r2 with
  | RVoid, _ => RVoid
  | _, RVoid => RVoid
  | REps, _ => r2
  | _, _ => RCat r1 r2
  end.

Definition ralt (r1 r2 : regex) : regex :=
  match r1, r2 with
  | RVoid, _ => r2
  | _, RVoid => r1
  | _, _ => RAlt r1 r2
  end.

Fixpoint deriv (c : N) (r : regex) : regex :=
  match r with
  | RVoid => RVoid
  | REps => RVoid
  | RClass p => if p c then REps else RVoid
  | RCat r1 r2 =>
      if nullable r1 then ralt (rcat (deriv c r1) r2) (deriv c r2)
      else rcat (deriv c r1) r2
  | RAlt r1 r2 => ralt (deriv c r1) (deriv c r2)
  | RStar r1 => rcat (deriv c r1) (RStar r1)
  end.

(** [/^r$/.test(s)] *)
Fixpoint regex_test (r : regex) (s : jsstring) : bool :=
  match s with
  | [] => nullable r
  | c :: s' => regex_test (deriv c r) s'
  end.

(** The class [\s]: WhiteSpace and LineTerminator code units. *)
Definition is_space (c : N) : bool :=
  ((9 <=? c) && (c <=? 13) || (c =? 32) || (c =? 160) || (c =? 5760)
   || (8192 <=? c) && (c <=? 8202) || (c =? 8232) || (c =? 8233)
   || (c =? 8239) || (c =? 8287) || (c =? 12288) || (c =? 65279))%N.

Definition chr_at : N := 64.   (* @ *)
Definition chr_dot : N := 46.  (* . *)
Definition chr_sp : N := 32.   (* space *)

(** [[^\s@]] *)
Definition not_space_at (c : N) : bool := negb (is_space c || (c =? chr_at)%N).

(** [const emailRegex = /^[^\s@]+@[^\s@]+\.[^\s@]+$/;] *)
Definition emailRegex : regex :=
  RCat (RPlus (RClass not_space_at))
    (RCat (RClass (N.eqb chr_at))
       (RCat (RPlus (RClass not_space_at))
          (RCat (RClass (N.eqb chr_dot))
             (RPlus (RClass not_space_at))))).

(** The language of a regular expression, as a relation. *)
Inductive matches : regex -> jsstring -> Prop :=
| MEps : matches REps []
| MClass p c : p c = true -> matches (RClass p) [c]
| MCat r1 r2 s1 s2 : matches r1 s1 -> matches r2 s2 -> matches (RCat r1 r2) (s1 ++ s2)
| MAltL r1 r2 s : matches r1 s -> matches (RAlt r1 r2) s
| MAltR r1 r2 s : matches r2 s -> matches (RAlt r1 r2) s
| MStarNil r : matches (RStar r) []
| MStarCons r c s1 s2 :
    matches r (c :: s1) -> matches (RStar r) s2 -> matches (RStar r) (c :: s1 ++ s2).

(* ===================================================================== *)
(** ** JavaScript values, objects and JSON *)
(* ===================================================================== *)

(** The primitive values a field of a parsed body, a claim of a token or a
    cell of a row holds. Numbers are the integer-valued ones. Fields that
    are themselves arrays or objects are outside the model. *)
Inductive jsval : Type :=
| JUndefined
| JNull
| JBool (b : bool)
| JNum (n : Z)
| JStr (s : jsstring).

#[local] Set Warnings "-register-all".

(** What [res.json] is given: primitives, arrays and objects. *)
Inductive json : Type :=
| JVal (v : jsval)
| JArr (items : list json)
| JObj (fields : list (string * json)).

(** An object whose properties are primitives, as an association list. *)
Definition object := list (string * jsval).

(** [o.k]: [undefined] when the object has no such property. *)
Fixpoint field (o : object) (k : string) : jsval :=
  match o with
  | [] => JUndefined
  | (k', v) :: o' => if String.eqb k' k then v else field o' k
  end.

Definition json_of_object (o : object) : json :=
  JObj (map (fun kv => (fst kv, JVal (snd kv))) o).

(** Whether an object given to [res.json] has the property [k]. *)
Fixpoint has_key (k : string) (fields : list (string * json)) : bool :=
  match fields with
  | [] => false
  | (k', _) :: fields' => String.eqb k' k || has_key k fields'
  end.

Fixpoint lookup (k : string) (fields : list (string * json)) : option json :=
  match fields with
  | [] => None
  | (k', v) :: fields' => if String.eqb k' k then Some v else lookup k fields'
  end.

(** ToBoolean: what [!v] and [if (v)] test. *)
Definition truthy (v : jsval) : bool :=
  match v with
  | JUndefined | JNull => false
  | JBool b => b
  | JNum n => negb (n =? 0)
  | JStr [] => false
  | JStr (_ :: _) => true
  end.

(** [a === b] on primitives. *)
Definition strict_eq (a b : jsval) : bool :=
  match a, b with
  | JUndefined, JUndefined => true
  | JNull, JNull => true
  | JBool x, JBool y => Bool.eqb x y
  | JNum x, JNum y => x =? y
  | JStr x, JStr y => jsstring_eqb x y
  | _, _ => false
  end.

(** [v < k] for a number [k], on the operands the routes compare: a number,
    or [undefined] (which converts to NaN, so that the test is false). *)
Definition js_lt (v : jsval) (k : Z) : bool :=
  match v with
  | JNum n => n <? k
  | _ => false
  end.

(** [process.env.X || d] *)
Definition env_or (x : option jsstring) (d : jsstring) : jsstring :=
  match x with
  | Some (c :: s) => c :: s
  | _ => d
  end.

Definition jsval_of_option (x : option jsstring) : jsval :=
  match x with
  | Some s => JStr s
  | None => JUndefined
  end.

(* ===================================================================== *)
(** ** Requests and responses *)
(* ===================================================================== *)

(** What the handlers read of an Express request: the parsed body, the
    cookies (of cookie-parser; absent when the parser did not run), the
    [Authorization] header and the query string. *)
Record request : Type := mkRequest {
  req_body : object;
  req_cookies : option (list (string * jsstring));
  req_authorization : option jsstring;
  req_query : list (string * jsstring)
}.

(** [req.cookies.accessToken], [req.query.tipo]: a string or [undefined]. *)
Fixpoint param (o : list (string * jsstring)) (k : string) : jsval :=
  match o with
  | [] => JUndefined
  | (k', v) :: o' => if String.eqb k' k then JStr v else param o' k
  end.

(** [res.status(code).json(body)] *)
Record response : Type := mkResponse {
  status : Z;
  body : list (string * json)
}.

(** [res.json(body)]: the status stays 200. *)
Definition res_json (b : list (string * json)) : response := mkResponse 200 b.

(** The shape every error response of the routes has. *)
Definition falha (code : Z) (mensagem : string) : response :=
  mkResponse code
    [("sucesso", JVal (JBool false)); ("mensagem", JVal (JStr (lit mensagem)))]%string.

(** The text of the [mensagem] property of a response, when it has one. *)
Definition mensagem_of (r : response) : option jsstring :=
  match lookup "mensagem" (body r) with
  | Some (JVal (JStr s)) => Some s
  | _ => None
  end.

(* ===================================================================== *)
(** ** The world of a handler *)
(* ===================================================================== *)

(** A row of the table [usuarios], with the columns of the Credential
    record: identifier, display name, email, password hash, active flag. *)
Record usuario : Type := mkUsuario {
  u_id : Z;
  u_nome : jsstring;
  u_email : jsstring;
  u_senha : jsstring;
  u_ativo : bool
}.

(** The tables behind [pool]; [usuarios_seq] is the next value of the
    serial column [usuarios.id]. Rows of [contatos] and [empresas] are
    kept as the objects [SELECT] returns. *)
Record store : Type := mkStore {
  usuarios : list usuario;
  usuarios_seq : Z;
  contatos : list object;
  empresas : list object
}.

(** The statements the modelled routes send through [pool.query], with
    their parameters as the routes pass them. *)
Inductive sql : Type :=
| SelectIdPorEmail (email : jsval)
    (* SELECT id FROM usuarios WHERE email = $1 *)
| InsertUsuario (nome email senhaHash : jsval)
    (* INSERT INTO usuarios (nome, email, senha, ativo)
       VALUES ($1, $2, $3, TRUE) RETURNING id *)
| SelectUsuarioPorEmail (email : jsval)
    (* SELECT id, nome, email, senha, ativo FROM usuarios WHERE email = $1 *)
| SelectPerfil (id : jsval)
    (* SELECT id, nome, email, ativo FROM usuarios WHERE id = $1 *)
| SelectSenha (id : jsval)
    (* SELECT senha FROM usuarios WHERE id = $1 *)
| UpdateSenha (senhaHash id : jsval)
    (* UPDATE usuarios SET senha = $1 WHERE id = $2 *)
| SelectUsuarios
    (* SELECT id, nome, email, ativo FROM usuarios ORDER BY nome ASC *)
| SelectContatos (tipo cidade : option jsval)
    (* SELECT * FROM contatos WHERE 1=1 [AND tipo = $i]
       [AND cidade ILIKE $j] ORDER BY id DESC *)
| SelectEmpresas.
    (* SELECT id, titulo, ..., ativo FROM empresas ORDER BY nome ASC *)

(** [process.env], as far as the routes read it. *)
Record process_env : Type := mkEnv {
  JWT_SECRET : option jsstring;
  JWT_EXPIRES_IN : option jsstring
}.

(** Everything a handler acts on. [outages] tells, statement by statement,
    whether the next [pool.query] is rejected (connection lost, timeout);
    [journal] records the statements sent, the latest first; [clock] is the
    time in seconds since the epoch; [entropy] feeds the salt of bcrypt. *)
Record world : Type := mkWorld {
  db : store;
  outages : list bool;
  journal : list sql;
  env : process_env;
  clock : Z;
  entropy : N
}.

Definition with_clock (w : world) (t : Z) : world :=
  mkWorld (db w) (outages w) (journal w) (env w) t (entropy w).

Definition with_usuarios (d : store) (us : list usuario) : store :=
  mkStore us (usuarios_seq d) (contatos d) (empresas d).

(** The names of the errors the handlers tell apart, and the rest. *)
Inductive js_error : Type :=
| JsonWebTokenError
| TokenExpiredError
| NotBeforeError
| TypeError
| DatabaseError
| OtherError.

Inductive outcome (A : Type) : Type :=
| Ret (a : A)
| Throw (e : js_error).

Arguments Ret {A} a.
Arguments Throw {A} e.

(** A computation of a handler: it reads and changes the world and either
    returns or throws. *)
Definition M (A : Type) : Type := world -> outcome A * world.

Definition ret {A : Type} (a : A) : M A := fun w => (Ret a, w).

Definition throw {A : Type} (e : js_error) : M A := fun w => (Throw e, w).

Definition bind {A B : Type} (c : M A) (k : A -> M B) : M B :=
  fun w =>
    match c w with
    | (Ret a, w') => k a w'
    | (Throw e, w') => (Throw e, w')
    end.

(** [try { c } catch (erro) { h erro }] *)
Definition try_catch {A : Type} (c : M A) (h : js_error -> M A) : M A :=
  fun w =>
    match c w with
    | (Ret a, w') => (Ret a, w')
    | (Throw e, w') => h e w'
    end.

Declare Scope js_scope.
Delimit Scope js_scope with js.
Notation "x <- c ;; k" := (bind c (fun x => k))
  (at level 61, c at next level, right associativity) : js_scope.
Local Open Scope js_scope.

Definition read {A : Type} (f : world -> A) : M A := fun w => (Ret (f w), w).

(** [rows[0]]: reading a property of it throws when there is no row. *)
Definition first_row (rows : list object) : M object :=
  match rows with
  | r :: _ => ret r
  | [] => throw TypeError
  end.

(** [v.length]: a string has one, booleans and numbers have none, and on
    [undefined] and [null] the access throws. *)
Definition get_length (v : jsval) : M jsval :=
  match v with
  | JStr s => ret (JNum (js_length s))
  | JBool _ | JNum _ => ret JUndefined
  | JUndefined | JNull => throw TypeError
  end.

(** What [pool.query] resolves to. *)
Record qresult : Type := mkQResult {
  rows : list object;
  rowCount : Z
}.

(** [rows.length] *)
Definition js_count (rs : list object) : Z := Z.of_nat (List.length rs).

(** [rows.length > 0] *)
Definition js_length_gt0 (rs : list object) : bool := js_count rs >? 0.

Definition result_of (rs : list object) : qresult :=
  mkQResult rs (Z.of_nat (List.length rs)).

(* ===================================================================== *)
(** ** The collaborators: PostgreSQL, bcrypt, jsonwebtoken *)
(* ===================================================================== *)

(** The payload of a token of this server: the three claims [login] signs
    and the registered claims jsonwebtoken adds or reads. A claim the
    payload does not have is [undefined]. *)
Record claims : Type := mkClaims {
  c_id : jsval;
  c_nome : jsval;
  c_email : jsval;
  c_iat : jsval;
  c_exp : jsval;
  c_nbf : jsval
}.

(** The operations of the platform and of the packages that the model
    takes as given:
    - [num_to_string]: [Number.prototype.toString];
    - [int4_in]: how PostgreSQL reads a text parameter as an integer;
    - [sql_order_by col desc], [sql_eq], [sql_ilike]: [ORDER BY] under the
      collation of the database, [=] and [ILIKE] on a cell;
    - [bcrypt_hash_alg data rounds salt] and [bcrypt_check data hash]: the
      hash of bcrypt under a salt, and its comparison;
    - [jws_sign payload secret]: the compact HS256 serialisation of a
      payload; [jws_open token secret]: the payload of a well-formed token
      whose signature is valid under the secret;
    - [ms]: the time spans of the package ms, in milliseconds. *)
Class Externals : Type := {
  num_to_string : Z -> jsstring;
  int4_in : jsstring -> option Z;
  sql_order_by : string -> bool -> list object -> list object;
  sql_eq : jsval -> jsstring -> bool;
  sql_ilike : jsval -> jsstring -> bool;
  bcrypt_hash_alg : jsstring -> Z -> N -> jsstring;
  bcrypt_check : jsstring -> jsstring -> bool;
  jws_sign : claims -> jsstring -> jsstring;
  jws_open : jsstring -> jsstring -> option claims;
  ms : jsstring -> option Z
}.

Section Handlers.

Context {X : Externals}.

(** ToString on primitives: what [RegExp.prototype.test] and a template
    literal apply to their operand. *)
Definition ToString (v : jsval) : jsstring :=
  match v with
  | JUndefined => lit "undefined"
  | JNull => lit "null"
  | JBool true => lit "true"
  | JBool false => lit "false"
  | JNum n => num_to_string n
  | JStr s => s
  end.

(** How node-postgres sends a parameter: [None] is SQL [NULL]. *)
Definition pg_text (v : jsval) : option jsstring :=
  match v with
  | JUndefined | JNull => None
  | v => Some (ToString v)
  end.

(** A parameter compared with the integer column [id]: [None] when
    PostgreSQL rejects the text, [Some None] for [NULL]. *)
Definition pg_int (v : jsval) : option (option Z) :=
  match v with
  | JUndefined | JNull => Some None
  | JNum n => Some (Some n)
  | JBool _ => None
  | JStr s => match int4_in s with
              | Some z => Some (Some z)
              | None => None
              end
  end.

(** [WHERE email = $1] *)
Definition por_email (email : jsval) (us : list usuario) : list usuario :=
  match pg_text email with
  | Some e => filter (fun u => jsstring_eqb (u_email u) e) us
  | None => []
  end.

(** [WHERE id = $1], for a parameter PostgreSQL accepted *)
Definition por_id (id : option Z) (us : list usuario) : list usuario :=
  match id with
  | Some z => filter (fun u => u_id u =? z) us
  | None => []
  end.

(** [SET senha = h WHERE id = z], with the number of rows it changes *)
Fixpoint set_senha (h : jsstring) (z : Z) (us : list usuario) : list usuario * Z :=
  match us with
  | [] => ([], 0)
  | u :: us' =>
      let (rest, n) := set_senha h z us' in
      if u_id u =? z
      then (mkUsuario (u_id u) (u_nome u) (u_email u) h (u_ativo u) :: rest, n + 1)
      else (u :: rest, n)
  end.

Definition project (cols : list string) (r : object) : object :=
  map (fun k => (k, field r k)) cols.

Definition usuario_cols (cols : list string) (u : usuario) : object :=
  project cols
    [("id", JNum (u_id u)); ("nome", JStr (u_nome u)); ("email", JStr (u_email u));
     ("senha", JStr (u_senha u)); ("ativo", JBool (u_ativo u))]%string.

Definition empresa_cols : list string :=
  ["id"; "titulo"; "nome"; "setor"; "cnpj"; "razao_social"; "email"; "telefone";
   "localizacao"; "info"; "lucro"; "valor"; "faturamento"; "tipo"; "descricao";
   "ano_fundacao"; "tempo_operacao"; "assinatura"; "funcionarios"; "area_imovel";
   "tipo_imovel"; "motivo_venda"; "dif"; "img"; "ativo"]%string.

Definition where_opt (test : jsval -> jsstring -> bool) (col : string)
    (p : option jsval) (r : object) : bool :=
  match p with
  | None => true
  | Some v => match pg_text v with
              | Some s => test (field r col) s
              | None => false
              end
  end.

(** What a statement does to the tables: the rows it returns and the
    tables afterwards, or [None] when PostgreSQL rejects it. *)
Definition exec (q : sql) (d : store) : option (qresult * store) :=
  match q with
  | SelectIdPorEmail email =>
      Some (result_of (map (usuario_cols ["id"%string]) (por_email email (usuarios d))), d)
  | InsertUsuario nome email senhaHash =>
      match pg_text nome, pg_text email, pg_text senhaHash with
      | Some n, Some e, Some h =>
          let id := usuarios_seq d in
          Some (result_of [[("id"%string, JNum id)]],
                mkStore (usuarios d ++ [mkUsuario id n e h true]) (id + 1)
                  (contatos d) (empresas d))
      | _, _, _ => None
      end
  | SelectUsuarioPorEmail email =>
      Some (result_of
              (map (usuario_cols ["id"; "nome"; "email"; "senha"; "ativo"]%string)
                 (por_email email (usuarios d))), d)
  | SelectPerfil id =>
      match pg_int id with
      | Some z =>
          Some (result_of
                  (map (usuario_cols ["id"; "nome"; "email"; "ativo"]%string)
                     (por_id z (usuarios d))), d)
      | None => None
      end
  | SelectSenha id =>
      match pg_int id with
      | Some z =>
          Some (result_of (map (usuario_cols ["senha"%string]) (por_id z (usuarios d))), d)
      | None => None
      end
  | UpdateSenha senhaHash id =>
      match pg_text senhaHash, pg_int id with
      | Some h, Some (Some z) =>
          let (us, n) := set_senha h z (usuarios d) in
          Some (mkQResult [] n, with_usuarios d us)
      | Some _, Some None => Some (mkQResult [] 0, d)
      | _, _ => None
      end
  | SelectUsuarios =>
      Some (result_of
              (sql_order_by "nome" false
                 (map (usuario_cols ["id"; "nome"; "email"; "ativo"]%string) (usuarios d))), d)
  | SelectContatos tipo cidade =>
      Some (result_of
              (sql_order_by "id" true
                 (filter (fun r => where_opt sql_eq "tipo" tipo r
                                   && where_opt sql_ilike "cidade" cidade r)
                    (contatos d))), d)
  | SelectEmpresas =>
      Some (result_of (sql_order_by "nome" false (map (project empresa_cols) (empresas d))), d)
  end.

(** [await pool.query(q, params)]: the statement is recorded; it is
    rejected when the pool is out at this moment or PostgreSQL refuses it,
    and then the tables stay as they were. *)
Definition pool_query (q : sql) : M qresult :=
  fun w =>
    let sent d := mkWorld d (tl (outages w)) (q :: journal w) (env w) (clock w) (entropy w) in
    match outages w with
    | true :: _ => (Throw DatabaseError, sent (db w))
    | _ =>
        match exec q (db w) with
        | Some (r, d') => (Ret r, sent d')
        | None => (Throw DatabaseError, sent (db w))
        end
    end.

(** [await bcrypt.hash(data, saltRounds)]: rejects data that is not a
    string; a fresh salt is drawn. *)
Definition bcrypt_hash (data : jsval) (saltRounds : Z) : M jsstring :=
  match data with
  | JStr s =>
      fun w => (Ret (bcrypt_hash_alg s saltRounds (entropy w)),
                mkWorld (db w) (outages w) (journal w) (env w) (clock w) (entropy w + 1)%N)
  | _ => throw OtherError
  end.

(** [await bcrypt.compare(data, hash)]: rejects operands that are not strings. *)
Definition bcrypt_compare (data hash : jsval) : M bool :=
  match data, hash with
  | JStr s, JStr h => ret (bcrypt_check s h)
  | _, _ => throw OtherError
  end.

(** [jwt.sign(payload, secret, { expiresIn })] of jsonwebtoken: it needs a
    secret and a time span it can read; it stamps [iat] with the clock and
    [exp] with [iat] plus the span in seconds. *)
Definition jwt_sign (payload : claims) (secret : jsval) (expiresIn : jsstring) : M jsstring :=
  match secret with
  | JStr (c :: s) =>
      match ms expiresIn with
      | Some millis =>
          now <- read clock ;;
          ret (jws_sign
                 (mkClaims (c_id payload) (c_nome payload) (c_email payload)
                    (JNum now) (JNum (now + millis / 1000)) (c_nbf payload))
                 (c :: s))
      | None => throw OtherError
      end
  | _ => throw OtherError
  end.

(** [jwt.verify(token, secret)] of jsonwebtoken: a token that is not a
    string, is malformed or whose signature is not valid under the secret is
    a [JsonWebTokenError]; then [nbf] and [exp] are compared with the clock. *)
Definition jwt_verify (token secret : jsval) : M claims :=
  match token, secret with
  | JStr t, JStr (c :: s) =>
      match jws_open t (c :: s) with
      | None => throw JsonWebTokenError
      | Some p =>
          now <- read clock ;;
          match c_nbf p with
          | JUndefined | JNum _ =>
              if (match c_nbf p with JNum n => n >? now | _ => false end)
              then throw NotBeforeError
              else
                match c_exp p with
                | JUndefined => ret p
                | JNum e => if now >=? e then throw TokenExpiredError else ret p
                | _ => throw JsonWebTokenError
                end
          | _ => throw JsonWebTokenError
          end
      end
  | _, _ => throw JsonWebTokenError
  end.

(* ===================================================================== *)
(** ** middleware/auth.js *)
(* ===================================================================== *)

(** What a middleware leaves behind: a response of its own, or [next()]
    with the decoded claims in [req.usuario]. *)
Inductive passo : Type :=
| Respondeu (r : response)
| Seguiu (usuario : claims).

(** [req.cookies && req.cookies.accessToken] *)
Definition cookie_accessToken (req : request) : jsval :=
  match req_cookies req with
  | Some cookies => param cookies "accessToken"
  | None => JUndefined
  end.

(** [authHeader.split(' ')[1]] *)
Definition bearer_value (authHeader : jsstring) : jsval :=
  match split_on chr_sp authHeader with
  | _ :: t :: _ => JStr t
  | _ => JUndefined
  end.

(** The token [autenticar] settles on: the cookie first, the
    [Authorization] header only when the cookie gave none. *)
Definition extrair_token (req : request) : jsval :=
  let token := if truthy (cookie_accessToken req) then cookie_accessToken req else JUndefined in
  if negb (truthy token) then
    match req_authorization req with
    | Some authHeader =>
        if truthy (JStr authHeader) && startsWith authHeader (lit "Bearer ")
        then bearer_value authHeader
        else token
    | None => token
    end
  else token.

(** The [catch (erro)] of [autenticar]: the response by [erro.name] *)
Definition autenticar_catch (erro : js_error) : M passo :=
  match erro with
  | JsonWebTokenError => ret (Respondeu (falha 401 "Token inválido"))
  | TokenExpiredError => ret (Respondeu (falha 401 "Token expirado"))
  | _ => ret (Respondeu (falha 401 "Erro ao autenticar token"))
  end.

(** [const autenticar = (req, res, next) => { ... }] *)
Definition autenticar (req : request) : M passo :=
  try_catch
    (let token := extrair_token req in
     if negb (truthy token) then
       ret (Respondeu (falha 401 "Token não fornecido"))
     else
       secret <- read (fun w => jsval_of_option (JWT_SECRET (env w))) ;;
       decoded <- jwt_verify token secret ;;
       ret (Seguiu decoded))
    autenticar_catch.

(** [router.METHOD(path, autenticar, handler)] *)
Definition protegida (handler : request -> claims -> M response) (req : request) : M response :=
  p <- autenticar req ;;
  match p with
  | Respondeu r => ret r
  | Seguiu usuario => handler req usuario
  end.

(* ===================================================================== *)
(** ** routes/auth.js *)
(* ===================================================================== *)

(** [router.post('/registro', async (req, res) => { ... })] *)
Definition registro (req : request) : M response :=
  try_catch
    (let nome := field (req_body req) "nome" in
     let email := field (req_body req) "email" in
     let senha := field (req_body req) "senha" in
     let confirmarSenha := field (req_body req) "confirmarSenha" in
     if negb (truthy nome) || negb (truthy email) || negb (truthy senha) then
       ret (falha 400 "Nome, email e senha são obrigatórios")
     else if negb (strict_eq senha confirmarSenha) then
       ret (falha 400 "As senhas não conferem")
     else
       len <- get_length senha ;;
       if js_lt len 6 then
         ret (falha 400 "A senha deve ter no mínimo 6 caracteres")
       else if negb (regex_test emailRegex (ToString email)) then
         ret (falha 400 "Email inválido")
       else
         usuarioExistente <- pool_query (SelectIdPorEmail email) ;;
         if js_length_gt0 (rows usuarioExistente) then
           ret (falha 409 "Email já cadastrado")
         else
           senhaHash <- bcrypt_hash senha 10 ;;
           resultado <- pool_query (InsertUsuario nome email (JStr senhaHash)) ;;
           novo <- first_row (rows resultado) ;;
           ret (mkResponse 201
                  [("sucesso", JVal (JBool true));
                   ("mensagem", JVal (JStr (lit "Usuário registrado com sucesso")));
                   ("id", JVal (field novo "id"))]%string))
    (fun _ => ret (falha 500 "Erro ao registrar usuário")).

(** [router.post('/login', async (req, res) => { ... })] *)
Definition login (req : request) : M response :=
  try_catch
    (let email := field (req_body req) "email" in
     let senha := field (req_body req) "senha" in
     if negb (truthy email) || negb (truthy senha) then
       ret (falha 400 "Email e senha são obrigatórios")
     else
       resultado <- pool_query (SelectUsuarioPorEmail email) ;;
       match rows resultado with
       | [] => ret (falha 401 "Email ou senha incorretos")
       | usuario :: _ =>
           if negb (truthy (field usuario "ativo")) then
             ret (falha 403 "Usuário inativo. Entre em contato com o administrador")
           else
             senhaValida <- bcrypt_compare senha (field usuario "senha") ;;
             if negb senhaValida then
               ret (falha 401 "Email ou senha incorretos")
             else
               secret <- read (fun w => jsval_of_option (JWT_SECRET (env w))) ;;
               expiresIn <- read (fun w => env_or (JWT_EXPIRES_IN (env w)) (lit "8h")) ;;
               token <- jwt_sign
                          (mkClaims (field usuario "id") (field usuario "nome")
                             (field usuario "email") JUndefined JUndefined JUndefined)
                          secret expiresIn ;;
               ret (res_json
                      [("sucesso", JVal (JBool true));
                       ("mensagem", JVal (JStr (lit "Login realizado com sucesso")));
                       ("token", JVal (JStr token));
                       ("usuario",
                        JObj [("id", JVal (field usuario "id"));
                              ("nome", JVal (field usuario "nome"));
                              ("email", JVal (field usuario "email"))])]%string)
       end)
    (fun _ => ret (falha 500 "Erro ao fazer login")).

(** [router.get('/perfil', autenticar, async (req, res) => { ... })],
    the handler after the middleware *)
Definition perfil (req : request) (usuario : claims) : M response :=
  try_catch
    (resultado <- pool_query (SelectPerfil (c_id usuario)) ;;
     match rows resultado with
     | [] => ret (falha 404 "Usuário não encontrado")
     | linha :: _ =>
         ret (res_json [("sucesso", JVal (JBool true)); ("dados", json_of_object linha)]%string)
     end)
    (fun _ => ret (falha 500 "Erro ao buscar perfil")).

(** [router.put('/alterar-senha', autenticar, async (req, res) => { ... })],
    the handler after the middleware *)
Definition alterar_senha (req : request) (usuario : claims) : M response :=
  try_catch
    (let senhaAtual := field (req_body req) "senhaAtual" in
     let novaSenha := field (req_body req) "novaSenha" in
     let confirmarNovaSenha := field (req_body req) "confirmarNovaSenha" in
     if negb (truthy senhaAtual) || negb (truthy novaSenha) || negb (truthy confirmarNovaSenha) then
       ret (falha 400 "Todos os campos são obrigatórios")
     else if negb (strict_eq novaSenha confirmarNovaSenha) then
       ret (falha 400 "As novas senhas não conferem")
     else
       len <- get_length novaSenha ;;
       if js_lt len 6 then
         ret (falha 400 "A nova senha deve ter no mínimo 6 caracteres")
       else
         resultado <- pool_query (SelectSenha (c_id usuario)) ;;
         match rows resultado with
         | [] => ret (falha 404 "Usuário não encontrado")
         | linha :: _ =>
             senhaValida <- bcrypt_compare senhaAtual (field linha "senha") ;;
             if negb senhaValida then
               ret (falha 401 "Senha atual incorreta")
             else
               novaSenhaHash <- bcrypt_hash novaSenha 10 ;;
               _ <- pool_query (UpdateSenha (JStr novaSenhaHash) (c_id usuario)) ;;
               ret (res_json
                      [("sucesso", JVal (JBool true));
                       ("mensagem", JVal (JStr (lit "Senha alterada com sucesso")))]%string)
         end)
    (fun _ => ret (falha 500 "Erro ao alterar senha")).

(** [router.post('/verificar-token', (req, res) => { ... })]: the token
    of the header only, [req.headers.authorization?.split(' ')[1]] *)
Definition verificar_token (req : request) : M response :=
  try_catch
    (let token := match req_authorization req with
                  | Some authHeader => bearer_value authHeader
                  | None => JUndefined
                  end in
     if negb (truthy token) then
       ret (falha 401 "Token não fornecido")
     else
       secret <- read (fun w => jsval_of_option (JWT_SECRET (env w))) ;;
       decoded <- jwt_verify token secret ;;
       ret (res_json
              [("sucesso", JVal (JBool true));
               ("mensagem", JVal (JStr (lit "Token válido")));
               ("usuario",
                JObj [("id", JVal (c_id decoded));
                      ("nome", JVal (c_nome decoded));
                      ("email", JVal (c_email decoded))])]%string))
    (fun _ => ret (falha 401 "Token inválido ou expirado")).

(** The objects of a result as the array [res.json] sends. *)
Definition json_of_rows (rs : list object) : json := JArr (map json_of_object rs).

(** [router.get('/usuarios', autenticar, async (req, res) => { ... })] *)
Definition listar_usuarios (req : request) (usuario : claims) : M response :=
  try_catch
    (resultado <- pool_query SelectUsuarios ;;
     ret (res_json
            [("sucesso", JVal (JBool true));
             ("total", JVal (JNum (js_count (rows resultado))));
             ("dados", json_of_rows (rows resultado))]%string))
    (fun _ => ret (falha 500 "Erro ao listar usuários")).

(* ===================================================================== *)
(** ** routes/contatos.js and routes/empresas.js: the listings *)
(* ===================================================================== *)

(** [router.get('/', autenticar, async (req, res) => { ... })] of contatos:
    the statement grows by one condition for each filter given. *)
Definition listar_contatos (req : request) (usuario : claims) : M response :=
  try_catch
    (let tipo := param (req_query req) "tipo" in
     let cidade := param (req_query req) "cidade" in
     let p_tipo := if truthy tipo then Some tipo else None in
     let p_cidade :=
       if truthy cidade then Some (JStr (lit "%" ++ ToString cidade ++ lit "%")) else None in
     resultado <- pool_query (SelectContatos p_tipo p_cidade) ;;
     ret (res_json
            [("sucesso", JVal (JBool true));
             ("total", JVal (JNum (js_count (rows resultado))));
             ("dados", json_of_rows (rows resultado))]%string))
    (fun _ => ret (falha 500 "Erro ao buscar contatos")).

(** [router.get('/', autenticar, async (req, res) => { ... })] of empresas *)
Definition listar_empresas (req : request) (usuario : claims) : M response :=
  try_catch
    (resultado <- pool_query SelectEmpresas ;;
     ret (res_json
            [("sucesso", JVal (JBool true));
             ("dados", json_of_rows (rows resultado))]%string))
    (fun _ => ret (falha 500 "Erro ao listar empresas")).

(** The routes as Express mounts them. *)
Definition get_perfil : request -> M response := protegida perfil.
Definition put_alterar_senha : request -> M response := protegida alterar_senha.
Definition get_usuarios : request -> M response := protegida listar_usuarios.
Definition get_contatos : request -> M response := protegida listar_contatos.
Definition get_empresas : request -> M response := protegida listar_empresas.

End Handlers.

(* ===================================================================== *)
(** ** The vocabulary of the properties *)
(* ===================================================================== *)

(** The world after one statement was sent and answered without a change
    of the tables. *)
Definition after_query (q : sql) (w : world) : world :=
  mkWorld (db w) (tl (outages w)) (q :: journal w) (env w) (clock w) (entropy w).

(** The pool answers the next [n] statements. *)
Definition pool_up (n : nat) (w : world) : Prop :=
  forall k, (k < n)%nat -> nth k (outages w) false = false.

(** The responses of the failures of login. *)
Definition credenciais_invalidas : response := falha 401 "Email ou senha incorretos".

Definition conta_inativa : response :=
  falha 403 "Usuário inativo. Entre em contato com o administrador".

(** A row with its password hash replaced. *)
Definition com_senha (h : jsstring) (u : usuario) : usuario :=
  mkUsuario (u_id u) (u_nome u) (u_email u) h (u_ativo u).

(** The response of a password change that succeeded. *)
Definition senha_alterada : response :=
  res_json [("sucesso"%string, JVal (JBool true));
            ("mensagem"%string, JVal (JStr (lit "Senha alterada com sucesso")))].

(** The shape [local@domain.tld]: no white space, one [@] only, a
    non-empty local part, and after the [@] a dot with something on both
    sides. *)
Definition email_shape (s : jsstring) : Prop :=
  exists l d t,
    s = l ++ chr_at :: d ++ chr_dot :: t /\
    l <> [] /\ d <> [] /\ t <> [] /\
    Forall (fun c => not_space_at c = true) (l ++ d ++ t).

(** The status of the response a route ended with. *)
Definition status_de (o : outcome response) : option Z :=
  match o with
  | Ret r => Some (status r)
  | Throw _ => None
  end.

(** The response a run of a route ended with. *)
Definition resposta_de (x : outcome response * world) : response :=
  match fst x with
  | Ret r => r
  | Throw _ => falha 500 ""
  end.

(* ===================================================================== *)
(** ** routes/contatos.js and routes/empresas.js: the validators *)
(* ===================================================================== *)

(** [r?] *)
Definition ROpt (r : regex) : regex := RAlt r REps.

(** [r{n}] *)
Fixpoint RRep (n : nat) (r : regex) : regex :=
  match n with
  | O => REps
  | S n' => RCat r (RRep n' r)
  end.

(** The class [\d]: the ten ASCII digits. *)
Definition is_digit (c : N) : bool := ((48 <=? c) && (c <=? 57))%N.

Definition chr_lpar : N := 40.   (* ( *)
Definition chr_rpar : N := 41.   (* ) *)
Definition chr_hyphen : N := 45. (* - *)
Definition chr_nine : N := 57.   (* 9 *)

(** [const regex = /^(\(?\d{2}\)?\s?)?9?\d{4}-?\d{4}$/;] of [validarTelefone] *)
Definition telefoneRegex : regex :=
  RCat (ROpt (RCat (ROpt (RClass (N.eqb chr_lpar)))
                (RCat (RRep 2 (RClass is_digit))
                   (RCat (ROpt (RClass (N.eqb chr_rpar)))
                      (ROpt (RClass is_space))))))
    (RCat (ROpt (RClass (N.eqb chr_nine)))
       (RCat (RRep 4 (RClass is_digit))
          (RCat (ROpt (RClass (N.eqb chr_hyphen)))
             (RRep 4 (RClass is_digit))))).

(** [cnpj.replace(/[^\d]/g, '')] *)
Definition so_digitos (s : jsstring) : jsstring := filter is_digit s.

Section Validadores.

Context {X : Externals}.

(** [const validarEmail = (email) => { ... return regex.test(email); }] *)
Definition validarEmail (email : jsval) : bool :=
  regex_test emailRegex (ToString email).

(** [const validarTelefone = (telefone) => { ... return regex.test(telefone); }] *)
Definition validarTelefone (telefone : jsval) : bool :=
  regex_test telefoneRegex (ToString telefone).

(** [const validarCNPJ = (cnpj) => { cnpj = cnpj.replace(/[^\d]/g, '');
    return cnpj.length === 14; }]: only a string has [replace]. *)
Definition validarCNPJ (cnpj : jsval) : M bool :=
  match cnpj with
  | JStr s => ret (js_length (so_digitos s) =? 14)
  | _ => throw TypeError
  end.

End Validadores.

(* ===================================================================== *)
(** ** routes/contatos.js and routes/empresas.js: one row at a time *)
(* ===================================================================== *)

(** [a || b] *)
Definition js_or (a b : jsval) : jsval := if truthy a then a else b.

(** [v > k] for a number [k]: false on [undefined], as [js_lt]. *)
Definition js_gt (v : jsval) (k : Z) : bool :=
  match v with
  | JNum n => n >? k
  | _ => false
  end.

(** The column types of the schema of the repository. *)
Inductive tipo_sql : Type :=
| Varchar
| Int
| Decimal
| Boolean.

Record coluna : Type := mkColuna {
  col_name : string;
  col_type : tipo_sql;
  col_not_null : bool
}.

(** [CREATE TABLE contatos]: the columns after [id]. *)
Definition contatos_cols : list coluna :=
  [mkColuna "nome" Varchar true;
   mkColuna "email" Varchar true;
   mkColuna "telefone" Varchar false;
   mkColuna "cidade" Varchar false;
   mkColuna "tipo" Varchar false].

(** [CREATE TABLE empresas]: the columns after [id] and before [ativo];
    [cnpj] is also [UNIQUE]. *)
Definition empresas_cols : list coluna :=
  [mkColuna "titulo" Varchar true;
   mkColuna "nome" Varchar true;
   mkColuna "setor" Varchar true;
   mkColuna "cnpj" Varchar true;
   mkColuna "razao_social" Varchar false;
   mkColuna "email" Varchar true;
   mkColuna "telefone" Varchar false;
   mkColuna "localizacao" Varchar false;
   mkColuna "info" Varchar false;
   mkColuna "lucro" Decimal false;
   mkColuna "valor" Decimal false;
   mkColuna "faturamento" Decimal false;
   mkColuna "tipo" Varchar false;
   mkColuna "descricao" Varchar false;
   mkColuna "ano_fundacao" Int false;
   mkColuna "tempo_operacao" Int false;
   mkColuna "assinatura" Int false;
   mkColuna "funcionarios" Int false;
   mkColuna "area_imovel" Decimal false;
   mkColuna "tipo_imovel" Varchar false;
   mkColuna "motivo_venda" Varchar false;
   mkColuna "dif" Varchar false;
   mkColuna "img" Varchar false].

Definition ativo_col : coluna := mkColuna "ativo" Boolean false.

(** The columns [PUT /:id] of empresas sets: all but [cnpj], and [ativo]. *)
Definition empresas_set_cols : list coluna :=
  filter (fun c => negb (String.eqb (col_name c) "cnpj")) empresas_cols ++ [ativo_col].

(** The statements of these routes, with their parameters in the order
    the routes pass them. *)
Inductive comando : Type :=
| InsertContato (params : list jsval)
    (* INSERT INTO contatos (nome, email, telefone, cidade, tipo)
       VALUES ($1, $2, $3, $4, $5) RETURNING id *)
| SelectContato (id : jsval)
    (* SELECT * FROM contatos WHERE id = $1 *)
| UpdateContato (params : list jsval) (id : jsval)
    (* UPDATE contatos SET nome = $1, email = $2, telefone = $3,
       cidade = $4, tipo = $5 WHERE id = $6 *)
| DeleteContato (id : jsval)
    (* DELETE FROM contatos WHERE id = $1 *)
| SelectIdPorCnpj (cnpj : jsval)
    (* SELECT id FROM empresas WHERE cnpj = $1 *)
| InsertEmpresa (params : list jsval)
    (* INSERT INTO empresas (titulo, ..., img, ativo)
       VALUES ($1, ..., $23, TRUE) RETURNING id *)
| SelectEmpresa (id : jsval)
    (* SELECT * FROM empresas WHERE id = $1 *)
| SelectIdEmpresa (id : jsval)
    (* SELECT id FROM empresas WHERE id = $1 *)
| UpdateEmpresa (params : list jsval) (id : jsval)
    (* UPDATE empresas SET titulo = $1, ..., img = $22, ativo = $23
       WHERE id = $24 *)
| DeleteEmpresa (id : jsval).
    (* DELETE FROM empresas WHERE id = $1 *)

(** What these routes act on: the world of the routes of auth, the next
    values of the serial columns [contatos.id] and [empresas.id], and the
    statements of these routes that were sent, the latest first. *)
Record servidor : Type := mkServidor {
  world_of : world;
  contatos_seq : Z;
  empresas_seq : Z;
  diario : list comando
}.

Definition MS (A : Type) : Type := servidor -> outcome A * servidor.

Definition ret_s {A : Type} (a : A) : MS A := fun s => (Ret a, s).

Definition bind_s {A B : Type} (c : MS A) (k : A -> MS B) : MS B :=
  fun s =>
    match c s with
    | (Ret a, s') => k a s'
    | (Throw e, s') => (Throw e, s')
    end.

Definition try_catch_s {A : Type} (c : MS A) (h : js_error -> MS A) : MS A :=
  fun s =>
    match c s with
    | (Ret a, s') => (Ret a, s')
    | (Throw e, s') => h e s'
    end.

Notation "x <~ c ;; k" := (bind_s c (fun x => k))
  (at level 61, c at next level, right associativity) : js_scope.

(** A computation of the routes of auth, run here. *)
Definition lift {A : Type} (c : M A) : MS A :=
  fun s =>
    let (o, w') := c (world_of s) in
    (o, mkServidor w' (contatos_seq s) (empresas_seq s) (diario s)).

(** How PostgreSQL reads a text given to a [DECIMAL(15, 2)] column, as the
    text node-postgres returns for it, and one given to a [BOOLEAN]
    column; [None] when it rejects the text. *)
Class PgInput : Type := {
  numeric_in : jsstring -> option jsstring;
  bool_in : jsstring -> option bool
}.

Section Linhas.

Context {X : Externals} {P : PgInput}.

(** What a column of type [t] holds, as [SELECT] returns it, after it was
    given the parameter [v]; [None] when PostgreSQL rejects the
    parameter. The length limits of the columns are left out. *)
Definition pg_valor (t : tipo_sql) (v : jsval) : option jsval :=
  match t with
  | Varchar =>
      match pg_text v with
      | Some s => Some (JStr s)
      | None => Some JNull
      end
  | Int =>
      match pg_int v with
      | Some (Some z) => Some (JNum z)
      | Some None => Some JNull
      | None => None
      end
  | Decimal =>
      match pg_text v with
      | Some s => option_map JStr (numeric_in s)
      | None => Some JNull
      end
  | Boolean =>
      match pg_text v with
      | Some s => option_map JBool (bool_in s)
      | None => Some JNull
      end
  end.

(** The parameters of a statement as the values of its columns. *)
Fixpoint valores (cols : list coluna) (params : list jsval) : option object :=
  match cols, params with
  | [], [] => Some []
  | c :: cols', v :: params' =>
      match pg_valor (col_type c) v, valores cols' params' with
      | Some x, Some o => Some ((col_name c, x) :: o)
      | _, _ => None
      end
  | _, _ => None
  end.

Definition is_null (v : jsval) : bool :=
  match v with
  | JNull => true
  | _ => false
  end.

(** No [NOT NULL] column is given [NULL]. *)
Definition not_null_ok (cols : list coluna) (o : object) : bool :=
  forallb (fun c => negb (col_not_null c && is_null (field o (col_name c)))) cols.

(** [WHERE id = $1], for a parameter PostgreSQL accepted *)
Definition com_id (id : option Z) (r : object) : bool :=
  match id with
  | Some z => strict_eq (field r "id") (JNum z)
  | None => false
  end.

(** [WHERE cnpj = $1] *)
Definition com_cnpj (cnpj : option jsstring) (r : object) : bool :=
  match cnpj with
  | Some c => strict_eq (field r "cnpj") (JStr c)
  | None => false
  end.

(** [SET k = v, ...] on one row: the columns named take the new values. *)
Definition set_cols (novo : object) (r : object) : object :=
  map (fun kv => (fst kv,
                  if existsb (fun kv' => String.eqb (fst kv') (fst kv)) novo
                  then field novo (fst kv) else snd kv)) r.

Definition update_where (p : object -> bool) (novo : object) (rs : list object) : list object :=
  map (fun r => if p r then set_cols novo r else r) rs.

Definition with_contatos (d : store) (cs : list object) : store :=
  mkStore (usuarios d) (usuarios_seq d) cs (empresas d).

Definition with_empresas (d : store) (es : list object) : store :=
  mkStore (usuarios d) (usuarios_seq d) (contatos d) es.

(** What a statement does: the result, the tables and the two sequences
    afterwards, or [None] when PostgreSQL rejects it. A parameter it cannot
    read as the type of its column is rejected whatever the rows; a
    [NOT NULL] or [UNIQUE] column is checked on the rows written. *)
Definition executa (q : comando) (d : store) (cseq eseq : Z)
    : option (qresult * (store * Z * Z)) :=
  match q with
  | InsertContato params =>
      match valores contatos_cols params with
      | Some o =>
          if not_null_ok contatos_cols o then
            Some (result_of [[("id"%string, JNum cseq)]],
                  (with_contatos d (contatos d ++ [("id"%string, JNum cseq) :: o]),
                   cseq + 1, eseq))
          else None
      | None => None
      end
  | SelectContato id =>
      match pg_int id with
      | Some z => Some (result_of (filter (com_id z) (contatos d)), (d, cseq, eseq))
      | None => None
      end
  | UpdateContato params id =>
      match valores contatos_cols params, pg_int id with
      | Some o, Some z =>
          let n := js_count (filter (com_id z) (contatos d)) in
          if (n =? 0) || not_null_ok contatos_cols o then
            Some (mkQResult [] n,
                  (with_contatos d (update_where (com_id z) o (contatos d)), cseq, eseq))
          else None
      | _, _ => None
      end
  | DeleteContato id =>
      match pg_int id with
      | Some z =>
          Some (mkQResult [] (js_count (filter (com_id z) (contatos d))),
                (with_contatos d (filter (fun r => negb (com_id z r)) (contatos d)),
                 cseq, eseq))
      | None => None
      end
  | SelectIdPorCnpj cnpj =>
      Some (result_of (map (project ["id"%string]) (filter (com_cnpj (pg_text cnpj)) (empresas d))),
            (d, cseq, eseq))
  | InsertEmpresa params =>
      match valores empresas_cols params with
      | Some o =>
          if not_null_ok empresas_cols o
             && negb (existsb (fun r => strict_eq (field r "cnpj") (field o "cnpj")) (empresas d))
          then
            Some (result_of [[("id"%string, JNum eseq)]],
                  (with_empresas d
                     (empresas d ++ [("id"%string, JNum eseq) :: o ++ [("ativo"%string, JBool true)]]),
                   cseq, eseq + 1))
          else None
      | None => None
      end
  | SelectEmpresa id =>
      match pg_int id with
      | Some z => Some (result_of (filter (com_id z) (empresas d)), (d, cseq, eseq))
      | None => None
      end
  | SelectIdEmpresa id =>
      match pg_int id with
      | Some z =>
          Some (result_of (map (project ["id"%string]) (filter (com_id z) (empresas d))),
                (d, cseq, eseq))
      | None => None
      end
  | UpdateEmpresa params id =>
      match valores empresas_set_cols params, pg_int id with
      | Some o, Some z =>
          let n := js_count (filter (com_id z) (empresas d)) in
          if (n =? 0) || not_null_ok empresas_set_cols o then
            Some (mkQResult [] n,
                  (with_empresas d (update_where (com_id z) o (empresas d)), cseq, eseq))
          else None
      | _, _ => None
      end
  | DeleteEmpresa id =>
      match pg_int id with
      | Some z =>
          Some (mkQResult [] (js_count (filter (com_id z) (empresas d))),
                (with_empresas d (filter (fun r => negb (com_id z r)) (empresas d)),
                 cseq, eseq))
      | None => None
      end
  end.

(** [await pool.query(q, params)] in these routes: as [pool_query], with
    the statement recorded in [diario]. *)
Definition pool_query_s (q : comando) : MS qresult :=
  fun s =>
    let w := world_of s in
    let sent d cseq eseq :=
      mkServidor (mkWorld d (tl (outages w)) (journal w) (env w) (clock w) (entropy w))
        cseq eseq (q :: diario s) in
    match outages w with
    | true :: _ => (Throw DatabaseError, sent (db w) (contatos_seq s) (empresas_seq s))
    | _ =>
        match executa q (db w) (contatos_seq s) (empresas_seq s) with
        | Some (r, (d', cseq, eseq)) => (Ret r, sent d' cseq eseq)
        | None => (Throw DatabaseError, sent (db w) (contatos_seq s) (empresas_seq s))
        end
    end.

(** [router.METHOD(path, autenticar, handler)] *)
Definition protegida_s (handler : request -> claims -> MS response) (req : request)
    : MS response :=
  p <~ lift (autenticar req) ;;
  match p with
  | Respondeu r => ret_s r
  | Seguiu usuario => handler req usuario
  end.

(** *** routes/contatos.js *)

(** [router.post('/', async (req, res) => { ... })] *)
Definition criar_contato (req : request) : MS response :=
  try_catch_s
    (let nome := field (req_body req) "nome" in
     let email := field (req_body req) "email" in
     let telefone := field (req_body req) "telefone" in
     let cidade := field (req_body req) "cidade" in
     let tipo := field (req_body req) "tipo" in
     if negb (truthy nome) || negb (truthy email) then
       ret_s (falha 400 "Nome e email são obrigatórios")
     else if negb (validarEmail email) then
       ret_s (falha 400 "Email inválido")
     else if truthy telefone && negb (validarTelefone telefone) then
       ret_s (falha 400 "Telefone inválido")
     else
       len <~ lift (get_length nome) ;;
       if js_lt len 3 || js_gt len 100 then
         ret_s (falha 400 "Nome deve ter entre 3 e 100 caracteres")
       else
         resultado <~ pool_query_s
                        (InsertContato
                           [nome; email; js_or telefone JNull; js_or cidade JNull;
                            js_or tipo (JStr (lit "cliente"))]) ;;
         novo <~ lift (first_row (rows resultado)) ;;
         ret_s (mkResponse 201
                  [("sucesso", JVal (JBool true));
                   ("mensagem", JVal (JStr (lit "Contato cadastrado com sucesso!")));
                   ("id", JVal (field novo "id"))]%string))
    (fun _ => ret_s (falha 500 "Erro ao processar sua solicitação")).

(** [router.get('/:id', autenticar, async (req, res) => { ... })], the
    handler after the middleware; [id] is [req.params.id]. *)
Definition buscar_contato (id : jsstring) (req : request) (usuario : claims) : MS response :=
  try_catch_s
    (resultado <~ pool_query_s (SelectContato (JStr id)) ;;
     match rows resultado with
     | [] => ret_s (falha 404 "Contato não encontrado")
     | r :: _ =>
         ret_s (res_json
                  [("sucesso", JVal (JBool true));
                   ("dados", json_of_object r)]%string)
     end)
    (fun _ => ret_s (falha 500 "Erro ao buscar contato")).

(** [router.put('/:id', autenticar, async (req, res) => { ... })] *)
Definition atualizar_contato (id : jsstring) (req : request) (usuario : claims) : MS response :=
  try_catch_s
    (let nome := field (req_body req) "nome" in
     let email := field (req_body req) "email" in
     let telefone := field (req_body req) "telefone" in
     let cidade := field (req_body req) "cidade" in
     let tipo := field (req_body req) "tipo" in
     if negb (truthy nome) || negb (truthy email) then
       ret_s (falha 400 "Nome e email são obrigatórios")
     else
       resultado <~ pool_query_s
                      (UpdateContato [nome; email; telefone; cidade; tipo] (JStr id)) ;;
       if rowCount resultado =? 0 then
         ret_s (falha 404 "Contato não encontrado")
       else
         ret_s (res_json
                  [("sucesso", JVal (JBool true));
                   ("mensagem", JVal (JStr (lit "Contato atualizado com sucesso")))]%string))
    (fun _ => ret_s (falha 500 "Erro ao atualizar contato")).

(** [router.delete('/:id', autenticar, async (req, res) => { ... })] *)
Definition deletar_contato (id : jsstring) (req : request) (usuario : claims) : MS response :=
  try_catch_s
    (resultado <~ pool_query_s (DeleteContato (JStr id)) ;;
     if rowCount resultado =? 0 then
       ret_s (falha 404 "Contato não encontrado")
     else
       ret_s (res_json
                [("sucesso", JVal (JBool true));
                 ("mensagem", JVal (JStr (lit "Contato deletado com sucesso")))]%string))
    (fun _ => ret_s (falha 500 "Erro ao deletar contato")).

(** *** routes/empresas.js *)

(** [cnpj.replace(/[^\d]/g, '')]: only a string has [replace]. *)
Definition replace_nao_digitos (cnpj : jsval) : M jsstring :=
  match cnpj with
  | JStr s => ret (so_digitos s)
  | _ => throw TypeError
  end.

(** [router.post('/', async (req, res) => { ... })] *)
Definition criar_empresa (req : request) : MS response :=
  try_catch_s
    (let titulo := field (req_body req) "titulo" in
     let nome := field (req_body req) "nome" in
     let setor := field (req_body req) "setor" in
     let cnpj := field (req_body req) "cnpj" in
     let razao_social := field (req_body req) "razao_social" in
     let email := field (req_body req) "email" in
     let telefone := field (req_body req) "telefone" in
     let localizacao := field (req_body req) "localizacao" in
     let info := field (req_body req) "info" in
     let lucro := field (req_body req) "lucro" in
     let valor := field (req_body req) "valor" in
     let faturamento := field (req_body req) "faturamento" in
     let tipo := field (req_body req) "tipo" in
     let descricao := field (req_body req) "descricao" in
     let ano_fundacao := field (req_body req) "ano_fundacao" in
     let tempo_operacao := field (req_body req) "tempo_operacao" in
     let assinatura := field (req_body req) "assinatura" in
     let funcionarios := field (req_body req) "funcionarios" in
     let area_imovel := field (req_body req) "area_imovel" in
     let tipo_imovel := field (req_body req) "tipo_imovel" in
     let motivo_venda := field (req_body req) "motivo_venda" in
     let dif := field (req_body req) "dif" in
     let img := field (req_body req) "img" in
     if negb (truthy titulo) || negb (truthy nome) || negb (truthy setor)
        || negb (truthy cnpj) || negb (truthy email) then
       ret_s (falha 400 "Título, nome, setor, CNPJ e email são obrigatórios")
     else
       valido <~ lift (validarCNPJ cnpj) ;;
       if negb valido then
         ret_s (falha 400 "CNPJ inválido")
       else
         procurado <~ lift (replace_nao_digitos cnpj) ;;
         empresaExistente <~ pool_query_s (SelectIdPorCnpj (JStr procurado)) ;;
         if js_length_gt0 (rows empresaExistente) then
           ret_s (falha 409 "CNPJ já cadastrado")
         else
           digitos <~ lift (replace_nao_digitos cnpj) ;;
           resultado <~ pool_query_s
                          (InsertEmpresa
                             [titulo;
                              nome;
                              setor;
                              JStr digitos;
                              js_or razao_social JNull;
                              email;
                              js_or telefone JNull;
                              js_or localizacao JNull;
                              js_or info JNull;
                              js_or lucro JNull;
                              js_or valor JNull;
                              js_or faturamento JNull;
                              js_or tipo JNull;
                              js_or descricao JNull;
                              js_or ano_fundacao JNull;
                              js_or tempo_operacao JNull;
                              js_or assinatura JNull;
                              js_or funcionarios JNull;
                              js_or area_imovel JNull;
                              js_or tipo_imovel JNull;
                              js_or motivo_venda JNull;
                              js_or dif JNull;
                              js_or img JNull]) ;;
           novo <~ lift (first_row (rows resultado)) ;;
           ret_s (mkResponse 201
                    [("sucesso", JVal (JBool true));
                     ("mensagem", JVal (JStr (lit "Empresa criada com sucesso")));
                     ("id", JVal (field novo "id"))]%string))
    (fun _ => ret_s (falha 500 "Erro ao criar empresa")).

(** [router.get('/:id', autenticar, async (req, res) => { ... })] *)
Definition buscar_empresa (id : jsstring) (req : request) (usuario : claims) : MS response :=
  try_catch_s
    (resultado <~ pool_query_s (SelectEmpresa (JStr id)) ;;
     match rows resultado with
     | [] => ret_s (falha 404 "Empresa não encontrada")
     | r :: _ =>
         ret_s (res_json
                  [("sucesso", JVal (JBool true));
                   ("dados", json_of_object r)]%string)
     end)
    (fun _ => ret_s (falha 500 "Erro ao buscar empresa")).

(** [ativo !== undefined ? ativo : true] *)
Definition ativo_ou_true (ativo : jsval) : jsval :=
  match ativo with
  | JUndefined => JBool true
  | v => v
  end.

(** [router.put('/:id', autenticar, async (req, res) => { ... })] *)
Definition atualizar_empresa (id : jsstring) (req : request) (usuario : claims) : MS response :=
  try_catch_s
    (let titulo := field (req_body req) "titulo" in
     let nome := field (req_body req) "nome" in
     let setor := field (req_body req) "setor" in
     let razao_social := field (req_body req) "razao_social" in
     let email := field (req_body req) "email" in
     let telefone := field (req_body req) "telefone" in
     let localizacao := field (req_body req) "localizacao" in
     let info := field (req_body req) "info" in
     let lucro := field (req_body req) "lucro" in
     let valor := field (req_body req) "valor" in
     let faturamento := field (req_body req) "faturamento" in
     let tipo := field (req_body req) "tipo" in
     let descricao := field (req_body req) "descricao" in
     let ano_fundacao := field (req_body req) "ano_fundacao" in
     let tempo_operacao := field (req_body req) "tempo_operacao" in
     let assinatura := field (req_body req) "assinatura" in
     let funcionarios := field (req_body req) "funcionarios" in
     let area_imovel := field (req_body req) "area_imovel" in
     let tipo_imovel := field (req_body req) "tipo_imovel" in
     let motivo_venda := field (req_body req) "motivo_venda" in
     let dif := field (req_body req) "dif" in
     let img := field (req_body req) "img" in
     let ativo := field (req_body req) "ativo" in
     empresaExistente <~ pool_query_s (SelectIdEmpresa (JStr id)) ;;
     match rows empresaExistente with
     | [] => ret_s (falha 404 "Empresa não encontrada")
     | _ :: _ =>
         _ <~ pool_query_s
                (UpdateEmpresa
                   [titulo; nome; setor; razao_social; email; telefone; localizacao;
                    info; lucro; valor; faturamento; tipo; descricao; ano_fundacao;
                    tempo_operacao; assinatura; funcionarios; area_imovel; tipo_imovel;
                    motivo_venda; dif; img; ativo_ou_true ativo]
                   (JStr id)) ;;
         ret_s (res_json
                  [("sucesso", JVal (JBool true));
                   ("mensagem", JVal (JStr (lit "Empresa atualizada com sucesso")))]%string)
     end)
    (fun _ => ret_s (falha 500 "Erro ao atualizar empresa")).

(** [router.delete('/:id', autenticar, async (req, res) => { ... })] *)
Definition deletar_empresa (id : jsstring) (req : request) (usuario : claims) : MS response :=
  try_catch_s
    (resultado <~ pool_query_s (DeleteEmpresa (JStr id)) ;;
     if rowCount resultado =? 0 then
       ret_s (falha 404 "Empresa não encontrada")
     else
       ret_s (res_json
                [("sucesso", JVal (JBool true));
                 ("mensagem", JVal (JStr (lit "Empresa deletada com sucesso")))]%string))
    (fun _ => ret_s (falha 500 "Erro ao deletar empresa")).

(** The routes as Express mounts them: creating is open, the rest goes
    through [autenticar]. *)
Definition post_contatos : request -> MS response := criar_contato.
Definition get_contato (id : jsstring) : request -> MS response :=
  protegida_s (buscar_contato id).
Definition put_contato (id : jsstring) : request -> MS response :=
  protegida_s (atualizar_contato id).
Definition delete_contato (id : jsstring) : request -> MS response :=
  protegida_s (deletar_contato id).
Definition post_empresas : request -> MS response := criar_empresa.
Definition get_empresa (id : jsstring) : request -> MS response :=
  protegida_s (buscar_empresa id).
Definition put_empresa (id : jsstring) : request -> MS response :=
  protegida_s (atualizar_empresa id).
Definition delete_empresa (id : jsstring) : request -> MS response :=
  protegida_s (deletar_empresa id).

End Linhas.

(* ===================================================================== *)
(** ** The vocabulary of the further properties *)
(* ===================================================================== *)

(** The emails of the accounts are pairwise distinct, so are their
    identifiers, and every identifier is below the next value of the
    sequence. *)
Definition store_ok (d : store) : Prop :=
  NoDup (map u_email (usuarios d))
  /\ NoDup (map u_id (usuarios d))
  /\ Forall (fun u => u_id u < usuarios_seq d) (usuarios d).

(** The response of a registration that went through. *)
Definition usuario_registrado (id : Z) : response :=
  mkResponse 201
    [("sucesso"%string, JVal (JBool true));
     ("mensagem"%string, JVal (JStr (lit "Usuário registrado com sucesso")));
     ("id"%string, JVal (JNum id))].

(** An account without its password hash. *)
Definition sem_senha (u : usuario) : Z * jsstring * jsstring * bool :=
  (u_id u, u_nome u, u_email u, u_ativo u).

(** The response of a login that went through: the token and the public
    summary of the account. *)
Definition login_realizado (token : jsstring) (u : usuario) : response :=
  res_json
    [("sucesso"%string, JVal (JBool true));
     ("mensagem"%string, JVal (JStr (lit "Login realizado com sucesso")));
     ("token"%string, JVal (JStr token));
     ("usuario"%string,
      JObj [("id"%string, JVal (JNum (u_id u)));
            ("nome"%string, JVal (JStr (u_nome u)));
            ("email"%string, JVal (JStr (u_email u)))])].

(** The claims [login] signs for an account at a moment, for a span in
    milliseconds. *)
Definition claims_de (u : usuario) (agora millis : Z) : claims :=
  mkClaims (JNum (u_id u)) (JStr (u_nome u)) (JStr (u_email u))
    (JNum agora) (JNum (agora + millis / 1000)) JUndefined.

(** The response of the standalone check for a token that verifies. *)
Definition token_valido (p : claims) : response :=
  res_json
    [("sucesso"%string, JVal (JBool true));
     ("mensagem"%string, JVal (JStr (lit "Token válido")));
     ("usuario"%string,
      JObj [("id"%string, JVal (c_id p));
            ("nome"%string, JVal (c_nome p));
            ("email"%string, JVal (c_email p))])].

(** The same request with another [Authorization] header. *)
Definition com_authorization (req : request) (h : option jsstring) : request :=
  mkRequest (req_body req) (req_cookies req) h (req_query req).

(** The response of the profile route for an account. *)
Definition perfil_de (u : usuario) : response :=
  res_json
    [("sucesso"%string, JVal (JBool true));
     ("dados"%string,
      JObj [("id"%string, JVal (JNum (u_id u)));
            ("nome"%string, JVal (JStr (u_nome u)));
            ("email"%string, JVal (JStr (u_email u)));
            ("ativo"%string, JVal (JBool (u_ativo u)))])].

(** The row of an account in the listing. *)
Definition linha_publica (u : usuario) : object :=
  [("id"%string, JNum (u_id u)); ("nome"%string, JStr (u_nome u));
   ("email"%string, JStr (u_email u)); ("ativo"%string, JBool (u_ativo u))].

(** The strings [validarTelefone] accepts, piece by piece: an optional
    area code (two digits, each of an opening parenthesis before, a closing
    one after and one white space after that being optional), an optional
    9, four digits, an optional hyphen, four digits. *)
Definition telefone_shape (s : jsstring) : Prop :=
  exists ddd nove a h b,
    s = ddd ++ nove ++ a ++ h ++ b
    /\ (ddd = []
        \/ exists ab d fe sp,
             ddd = ab ++ d ++ fe ++ sp
             /\ (ab = [] \/ ab = [chr_lpar])
             /\ List.length d = 2%nat /\ Forall (fun c => is_digit c = true) d
             /\ (fe = [] \/ fe = [chr_rpar])
             /\ (sp = [] \/ exists c, sp = [c] /\ is_space c = true))
    /\ (nove = [] \/ nove = [chr_nine])
    /\ List.length a = 4%nat /\ Forall (fun c => is_digit c = true) a
    /\ (h = [] \/ h = [chr_hyphen])
    /\ List.length b = 4%nat /\ Forall (fun c => is_digit c = true) b.

(* ===================================================================== *)
(** ** A reference platform, to run the handlers *)
(* ===================================================================== *)

(** Simple stand-ins for the collaborators: a decimal printer and reader,
    an insertion sort, a salted "hash" that keeps its input, a token
    format that lists the secret and the claims, and the time spans made
    of digits and one unit. They make the model run on concrete requests
    and show that what the theorems below assume of the collaborators can
    be had. *)
Module Sample.

Definition digit (c : N) : bool := ((48 <=? c) && (c <=? 57))%N.

Fixpoint digits_of (fuel : nat) (n : N) (acc : jsstring) : jsstring :=
  match fuel with
  | O => acc
  | S fuel' =>
      let acc' := (48 + n mod 10)%N :: acc in
      if (n <? 10)%N then acc' else digits_of fuel' (n / 10)%N acc'
  end.

Definition decimal (z : Z) : jsstring :=
  let ds := digits_of (S (N.to_nat (N.log2 (Z.abs_N z)))) (Z.abs_N z) [] in
  if z <? 0 then 45%N :: ds else ds.

Fixpoint read_digits (acc : Z) (s : jsstring) : option Z :=
  match s with
  | [] => Some acc
  | c :: s' => if digit c then read_digits (acc * 10 + Z.of_N (c - 48)) s' else None
  end.

Definition read_int (s : jsstring) : option Z :=
  match s with
  | [] => None
  | 45%N :: (_ :: _) as ds => option_map Z.opp (read_digits 0 ds)
  | ds => read_digits 0 ds
  end.

Fixpoint lex_le (a b : jsstring) : bool :=
  match a, b with
  | [], _ => true
  | _ :: _, [] => false
  | x :: a', y :: b' => (x <? y)%N || ((x =? y)%N && lex_le a' b')
  end.

Definition cell_le (a b : jsval) : bool :=
  match a, b with
  | JNum x, JNum y => x <=? y
  | JStr x, JStr y => lex_le x y
  | _, _ => true
  end.

Fixpoint insert_row (le : object -> object -> bool) (r : object) (rs : list object) : list object :=
  match rs with
  | [] => [r]
  | r' :: rs' => if le r r' then r :: rs else r' :: insert_row le r rs'
  end.

Definition order_by (col : string) (desc : bool) (rs : list object) : list object :=
  let le r1 r2 :=
    if desc then cell_le (field r2 col) (field r1 col) else cell_le (field r1 col) (field r2 col) in
  fold_right (insert_row le) [] rs.

Definition cell_eq (cell : jsval) (s : jsstring) : bool :=
  match cell with
  | JStr c => jsstring_eqb c s
  | _ => false
  end.

Definition lower (c : N) : N := if ((65 <=? c) && (c <=? 90))%N then (c + 32)%N else c.

Fixpoint infix_of (p s : jsstring) : bool :=
  startsWith s p || match s with
                    | [] => false
                    | _ :: s' => infix_of p s'
                    end.

(** [ILIKE] for the patterns [%text%] the contact listing builds *)
Definition cell_ilike (cell : jsval) (pat : jsstring) : bool :=
  match cell with
  | JStr c =>
      let inner := removelast (tl pat) in
      infix_of (map lower inner) (map lower c)
  | _ => false
  end.

Definition salted (data : jsstring) (rounds : Z) (salt : N) : jsstring :=
  salt :: Z.abs_N rounds :: data.

Definition salted_check (data hash : jsstring) : bool :=
  jsstring_eqb data (skipn 2 hash).

Definition enc_val (v : jsval) : list N :=
  match v with
  | JUndefined => [0]
  | JNull => [1]
  | JBool false => [2]
  | JBool true => [3]
  | JNum z => [4; if (z <? 0)%Z then 1 else 0; Z.abs_N z]
  | JStr s => 5 :: N.of_nat (List.length s) :: s
  end%N.

Definition dec_val (l : list N) : option (jsval * list N) :=
  match l with
  | 0 :: r => Some (JUndefined, r)
  | 1 :: r => Some (JNull, r)
  | 2 :: r => Some (JBool false, r)
  | 3 :: r => Some (JBool true, r)
  | 4 :: sg :: a :: r => Some (JNum (if sg =? 1 then (- Z.of_N a)%Z else Z.of_N a), r)
  | 5 :: n :: r =>
      if (List.length r <? N.to_nat n)%nat then None
      else Some (JStr (firstn (N.to_nat n) r), skipn (N.to_nat n) r)
  | _ => None
  end%N.

Definition enc_claims (p : claims) : list N :=
  enc_val (c_id p) ++ enc_val (c_nome p) ++ enc_val (c_email p)
  ++ enc_val (c_iat p) ++ enc_val (c_exp p) ++ enc_val (c_nbf p).

Definition dec_claims (l : list N) : option claims :=
  match dec_val l with
  | Some (a, l1) =>
    match dec_val l1 with
    | Some (b, l2) =>
      match dec_val l2 with
      | Some (c, l3) =>
        match dec_val l3 with
        | Some (d, l4) =>
          match dec_val l4 with
          | Some (e, l5) =>
            match dec_val l5 with
            | Some (f, []) => Some (mkClaims a b c d e f)
            | _ => None
            end
          | None => None
          end
        | None => None
        end
      | None => None
      end
    | None => None
    end
  | None => None
  end.

(** The units of a token are printable: shifted past the space. *)
Definition seal (p : claims) (secret : jsstring) : jsstring :=
  map (fun n => n + 33)%N (enc_val (JStr secret) ++ enc_claims p).

Definition unseal (token secret : jsstring) : option claims :=
  if forallb (fun n => 33 <=? n)%N token then
    match dec_val (map (fun n => n - 33)%N token) with
    | Some (JStr k, rest) => if jsstring_eqb k secret then dec_claims rest else None
    | _ => None
    end
  else None.

Definition ms_unit (c : N) : option Z :=
  match c with
  | 115%N => Some 1000          (* s *)
  | 109%N => Some 60000         (* m *)
  | 104%N => Some 3600000       (* h *)
  | 100%N => Some 86400000      (* d *)
  | _ => None
  end.

Fixpoint ms_from (acc : Z) (s : jsstring) : option Z :=
  match s with
  | [] => Some acc
  | [c] => if digit c then Some (acc * 10 + Z.of_N (c - 48))
           else option_map (Z.mul acc) (ms_unit c)
  | c :: s' => if digit c then ms_from (acc * 10 + Z.of_N (c - 48)) s' else None
  end.

Definition span (s : jsstring) : option Z :=
  match s with
  | c :: _ => if digit c then ms_from 0 s else None
  | [] => None
  end.

#[export] Instance plataforma : Externals := {|
  num_to_string := decimal;
  int4_in := read_int;
  sql_order_by := order_by;
  sql_eq := cell_eq;
  sql_ilike := cell_ilike;
  bcrypt_hash_alg := salted;
  bcrypt_check := salted_check;
  jws_sign := seal;
  jws_open := unseal;
  ms := span
|}.

(** A world to run the handlers in: two accounts, the second one
    deactivated, one contact and one company; the pool answers. *)
Definition chave : jsstring := lit "chave-do-servidor".

Definition ambiente : process_env := mkEnv (Some chave) None.

Definition ana : usuario :=
  mkUsuario 1 (lit "Ana") (lit "ana@exemplo.com") (salted (lit "segredo1") 10 3) true.

Definition rui : usuario :=
  mkUsuario 2 (lit "Rui") (lit "rui@exemplo.com") (salted (lit "segredo2") 10 4) false.

Definition contato1 : object :=
  [("id", JNum 1); ("nome", JStr (lit "Bia")); ("email", JStr (lit "bia@exemplo.com"));
   ("cidade", JStr (lit "Sorocaba")); ("tipo", JStr (lit "cliente"))]%string.

Definition empresa1 : object :=
  [("id", JNum 1); ("titulo", JStr (lit "Empresa de Tecnologia"));
   ("nome", JStr (lit "Tech Solutions LTDA")); ("setor", JStr (lit "Tecnologia"));
   ("cnpj", JStr (lit "12345678000190")); ("email", JStr (lit "contato@techsolutions.com"));
   ("ativo", JBool true)]%string.

Definition mundo : world :=
  mkWorld (mkStore [ana; rui] 3 [contato1] [empresa1]) [] [] ambiente 1000 7.

(** A request with a body and nothing else; one that presents a token in
    the cookie; one that presents it in the header. *)
Definition pedido (b : object) : request := mkRequest b (Some []) None [].

Definition com_cookie (tok : jsstring) (b : object) : request :=
  mkRequest b (Some [("accessToken"%string, tok)]) None [].

Definition com_bearer (tok : jsstring) (b : object) : request :=
  mkRequest b (Some []) (Some (lit "Bearer " ++ tok)) [].

Definition credenciais (email senha : string) : object :=
  [("email", JStr (lit email)); ("senha", JStr (lit senha))]%string.

Definition cadastro (nome email senha confirmarSenha : string) : object :=
  [("nome", JStr (lit nome)); ("email", JStr (lit email));
   ("senha", JStr (lit senha)); ("confirmarSenha", JStr (lit confirmarSenha))]%string.

Definition troca (senhaAtual novaSenha confirmarNovaSenha : string) : object :=
  [("senhaAtual", JStr (lit senhaAtual)); ("novaSenha", JStr (lit novaSenha));
   ("confirmarNovaSenha", JStr (lit confirmarNovaSenha))]%string.

(** The claims of the token a login of the first account gets at the
    clock of [mundo], and the token. *)
Definition sessao_ana : claims :=
  mkClaims (JNum 1) (JStr (lit "Ana")) (JStr (lit "ana@exemplo.com"))
    (JNum 1000) (JNum 29800) JUndefined.

Definition token_ana : jsstring := seal sessao_ana chave.

(** The world after the first account changed its password. *)
Definition mundo_senha_trocada : world :=
  snd (put_alterar_senha (com_cookie token_ana (troca "segredo1" "novasenha" "novasenha")) mundo).

Definition resposta_login : response :=
  match fst (login (pedido (credenciais "ana@exemplo.com" "segredo1")) mundo) with
  | Ret r => r
  | Throw _ => falha 500 ""
  end.

End Sample.

(* ===================================================================== *)
(** ** The string model on examples *)
(* ===================================================================== *)

Example lit_ascii : lit "a@b.co" = [97; 64; 98; 46; 99; 111]%N.
Proof. reflexivity. Qed.

Example lit_latin : lit "são" = [115; 227; 111]%N.
Proof. reflexivity. Qed.

Example email_ok : regex_test emailRegex (lit "joao.silva@exemplo.com.br") = true.
Proof. reflexivity. Qed.

Example email_no_tld : regex_test emailRegex (lit "joao@exemplo") = false.
Proof. reflexivity. Qed.

Example email_two_at : regex_test emailRegex (lit "a@b@c.d") = false.
Proof. reflexivity. Qed.

Example email_space : regex_test emailRegex (lit "a b@c.d") = false.
Proof. reflexivity. Qed.

Example split_bearer : split_on chr_sp (lit "Bearer abc def") = [lit "Bearer"; lit "abc"; lit "def"].
Proof. reflexivity. Qed.

(* ===================================================================== *)
(** ** Regular expressions: the matcher decides the language *)
(* ===================================================================== *)

Section RegexFacts.

Lemma matches_void_inv s : matches RVoid s -> False.
Proof. intros H; inversion H. Qed.

Lemma matches_eps_inv s : matches REps s -> s = [].
Proof. intros H; inversion H; reflexivity. Qed.

Lemma matches_class_inv p s : matches (RClass p) s -> exists c, s = [c] /\ p c = true.
Proof. intros H; inversion H; subst; eauto. Qed.

Lemma matches_cat_inv r1 r2 s :
  matches (RCat r1 r2) s -> exists s1 s2, s = s1 ++ s2 /\ matches r1 s1 /\ matches r2 s2.
Proof. intros H; inversion H; subst; eauto. Qed.

Lemma matches_alt_inv r1 r2 s : matches (RAlt r1 r2) s -> matches r1 s \/ matches r2 s.
Proof. intros H; inversion H; subst; auto. Qed.

Lemma matches_star_inv r s :
  matches (RStar r) s ->
  s = [] \/ exists c s1 s2, s = c :: s1 ++ s2 /\ matches r (c :: s1) /\ matches (RStar r) s2.
Proof.
  intros H; inversion H; subst; [now left | right].
  do 3 eexists. repeat split; eassumption.
Qed.

Lemma matches_rcat r1 r2 s : matches (rcat r1 r2) s <-> matches (RCat r1 r2) s.
Proof.
  split.
  - destruct r1, r2; simpl; intros H;
      try assumption; try (now apply matches_void_inv in H);
      change s with ([] ++ s); constructor; auto using MEps.
  - intros H. apply matches_cat_inv in H as (s1 & s2 & -> & H1 & H2).
    destruct r1; try (now apply matches_void_inv in H1);
      destruct r2; try (now apply matches_void_inv in H2); simpl;
      try (apply matches_eps_inv in H1 as ->; simpl; assumption);
      constructor; assumption.
Qed.

Lemma matches_ralt r1 r2 s : matches (ralt r1 r2) s <-> matches (RAlt r1 r2) s.
Proof.
  split.
  - destruct r1, r2; simpl; intros H; try assumption;
      solve [ now apply MAltL | now apply MAltR ].
  - intros H. apply matches_alt_inv in H as [H | H];
      destruct r1; try (now apply matches_void_inv in H);
      destruct r2; try (now apply matches_void_inv in H); simpl;
      solve [ assumption | now apply MAltL | now apply MAltR ].
Qed.

Lemma nullable_matches r : nullable r = true <-> matches r [].
Proof.
  induction r; simpl.
  - split; [discriminate | intros H; now apply matches_void_inv in H].
  - split; auto using MEps.
  - split; [discriminate |].
    intros H. apply matches_class_inv in H as (c & Hc & _). discriminate.
  - rewrite andb_true_iff, IHr1, IHr2. split.
    + intros [H1 H2]. change (@nil N) with (@nil N ++ []). now constructor.
    + intros H. apply matches_cat_inv in H as (s1 & s2 & Hs & H1 & H2).
      symmetry in Hs. apply app_eq_nil in Hs as [-> ->]. auto.
  - rewrite orb_true_iff, IHr1, IHr2. split.
    + intros [H | H]; [now apply MAltL | now apply MAltR].
    + apply matches_alt_inv.
  - split; auto using MStarNil.
Qed.

Lemma deriv_matches c r : forall s, matches (deriv c r) s <-> matches r (c :: s).
Proof.
  induction r; intros s; simpl.
  - split; intros H; now apply matches_void_inv in H.
  - split; intros H; [now apply matches_void_inv in H |].
    apply matches_eps_inv in H. discriminate.
  - destruct (p c) eqn:Hp; split; intros H.
    + apply matches_eps_inv in H as ->. now constructor.
    + apply matches_class_inv in H as (c' & Hs & _). injection Hs as _ ->. constructor.
    + now apply matches_void_inv in H.
    + apply matches_class_inv in H as (c' & Hs & Hc). injection Hs as -> _. congruence.
  - assert (Hleft : forall t, matches (RCat (deriv c r1) r2) t -> matches (RCat r1 r2) (c :: t)).
    { intros t H. apply matches_cat_inv in H as (s1 & s2 & -> & H1 & H2).
      apply IHr1 in H1. change (c :: s1 ++ s2) with ((c :: s1) ++ s2). now constructor. }
    assert (Hinv : matches (RCat r1 r2) (c :: s) ->
                   matches (RCat (deriv c r1) r2) s \/ (matches r1 [] /\ matches r2 (c :: s))).
    { intros H. apply matches_cat_inv in H as (s1 & s2 & Hs & H1 & H2).
      destruct s1 as [| c' s1]; simpl in Hs.
      - right. subst s2. auto.
      - injection Hs as <- ->. left. constructor; [now apply IHr1 | assumption]. }
    destruct (nullable r1) eqn:Hn.
    + rewrite matches_ralt. split.
      * intros H. apply matches_alt_inv in H as [H | H].
        -- apply matches_rcat in H. auto.
        -- apply IHr2 in H. apply nullable_matches in Hn.
           change (c :: s) with ([] ++ c :: s). now constructor.
      * intros H. apply Hinv in H as [H | [_ H]].
        -- apply MAltL. now apply matches_rcat.
        -- apply MAltR. now apply IHr2.
    + rewrite matches_rcat. split; [auto |].
      intros H. apply Hinv in H as [H | [H _]]; [assumption |].
      apply nullable_matches in H. congruence.
  - rewrite matches_ralt. split.
    + intros H. apply matches_alt_inv in H as [H | H];
        [apply MAltL; now apply IHr1 | apply MAltR; now apply IHr2].
    + intros H. apply matches_alt_inv in H as [H | H];
        [apply MAltL; now apply IHr1 | apply MAltR; now apply IHr2].
  - rewrite matches_rcat. split.
    + intros H. apply matches_cat_inv in H as (s1 & s2 & -> & H1 & H2).
      apply IHr in H1. now constructor.
    + intros H. apply matches_star_inv in H as [H | (c' & s1 & s2 & Hs & H1 & H2)];
        [discriminate |].
      injection Hs as <- ->. constructor; [now apply IHr | assumption].
Qed.

(** [test] answers [true] exactly on the strings of the language. *)
Lemma regex_test_matches : forall s r, regex_test r s = true <-> matches r s.
Proof.
  induction s as [| c s IH]; intros r; simpl.
  - apply nullable_matches.
  - rewrite IH. apply deriv_matches.
Qed.

Lemma matches_star_class p s :
  matches (RStar (RClass p)) s <-> Forall (fun c => p c = true) s.
Proof.
  split.
  - intros H. remember (RStar (RClass p)) as r eqn:Hr.
    induction H; try discriminate.
    + constructor.
    + injection Hr as ->.
      apply matches_class_inv in H as (c' & Hs & Hc). injection Hs as <- ->.
      simpl. constructor; auto.
  - induction 1 as [| c s Hc _ IH].
    + constructor.
    + change (c :: s) with (c :: [] ++ s). constructor; [now constructor | assumption].
Qed.

Lemma matches_plus_class p s :
  matches (RPlus (RClass p)) s <-> s <> [] /\ Forall (fun c => p c = true) s.
Proof.
  unfold RPlus. split.
  - intros H. apply matches_cat_inv in H as (s1 & s2 & -> & H1 & H2).
    apply matches_class_inv in H1 as (c & -> & Hc).
    apply matches_star_class in H2. split; [discriminate | now constructor].
  - intros [Hne H]. destruct H as [| c s Hc H]; [congruence |].
    change (c :: s) with ([c] ++ s).
    constructor; [now constructor | now apply matches_star_class].
Qed.

Lemma emailRegex_shape s : regex_test emailRegex s = true <-> email_shape s.
Proof.
  rewrite regex_test_matches. unfold emailRegex, email_shape. split.
  - intros H.
    apply matches_cat_inv in H as (l & s1 & -> & Hl & H).
    apply matches_cat_inv in H as (a & s2 & -> & Ha & H).
    apply matches_cat_inv in H as (d & s3 & -> & Hd & H).
    apply matches_cat_inv in H as (o & t & -> & Ho & Ht).
    apply matches_class_inv in Ha as (ca & -> & Hca). apply N.eqb_eq in Hca as <-.
    apply matches_class_inv in Ho as (co & -> & Hco). apply N.eqb_eq in Hco as <-.
    apply matches_plus_class in Hl as [Hl1 Hl2].
    apply matches_plus_class in Hd as [Hd1 Hd2].
    apply matches_plus_class in Ht as [Ht1 Ht2].
    exists l, d, t. repeat split; auto.
    repeat (apply Forall_app; split); assumption.
  - intros (l & d & t & -> & Hl & Hd & Ht & Hall).
    apply Forall_app in Hall as [Hl2 Hall]. apply Forall_app in Hall as [Hd2 Ht2].
    constructor; [now apply matches_plus_class |].
    change (chr_at :: d ++ chr_dot :: t) with ([chr_at] ++ d ++ [chr_dot] ++ t).
    constructor; [constructor; apply N.eqb_refl |].
    constructor; [now apply matches_plus_class |].
    constructor; [constructor; apply N.eqb_refl | now apply matches_plus_class].
Qed.

End RegexFacts.

(* ===================================================================== *)
(** ** Properties of the authentication flow *)
(* ===================================================================== *)

Section Claims.

Context {X : Externals}.

Lemma truthy_str s : truthy (JStr s) = true <-> s <> [].
Proof. destruct s; simpl; split; congruence. Qed.

Lemma jsstring_eqb_eq a : forall b, jsstring_eqb a b = true <-> a = b.
Proof.
  induction a as [| x a IH]; intros [| y b]; simpl; try (split; congruence).
  rewrite andb_true_iff, N.eqb_eq, IH. split; [intros [-> ->]; reflexivity |].
  intros H; injection H; auto.
Qed.

Lemma strict_eq_str a b : strict_eq (JStr a) (JStr b) = true <-> a = b.
Proof. simpl. apply jsstring_eqb_eq. Qed.

Lemma js_length_gt0_map {A} (f : A -> object) l : js_length_gt0 (map f l) = true <-> l <> [].
Proof.
  unfold js_length_gt0, js_count. destruct l as [| a l]; simpl List.length.
  - split; [discriminate | congruence].
  - split; [discriminate |]. intros _. apply Z.gtb_lt. lia.
Qed.

Lemma pool_query_up q w :
  hd false (outages w) = false ->
  pool_query q w =
    match exec q (db w) with
    | Some (r, d') =>
        (Ret r, mkWorld d' (tl (outages w)) (q :: journal w) (env w) (clock w) (entropy w))
    | None => (Throw DatabaseError, after_query q w)
    end.
Proof.
  unfold pool_query, after_query. destruct (outages w) as [| [] rest]; simpl; try discriminate;
    intros _; destruct (exec q (db w)) as [[r d'] |]; reflexivity.
Qed.

Lemma pool_up_hd n w : pool_up (S n) w -> hd false (outages w) = false.
Proof. intros H. specialize (H 0%nat). destruct (outages w); [reflexivity | apply H; lia]. Qed.

(** The length test of the password routes, on the values that reach it *)
Lemma length_check v (short : response) (rest : M response) w :
  truthy v = true ->
  bind (get_length v) (fun len => if js_lt len 6 then ret short else rest) w =
  if match v with JStr s => js_length s <? 6 | _ => false end then (Ret short, w) else rest w.
Proof.
  destruct v as [| | b | n | s]; simpl; try discriminate; intros _;
    unfold bind, ret; simpl; try reflexivity.
  destruct (js_length s <? 6); reflexivity.
Qed.

(** C1. Registration validates fail-fast, in this order: the required
    fields (400), the confirmation (400), the length of the password (400),
    the shape of the email (400), and only then the duplicate check against
    the store (409). A failing check decides the response whatever the
    later checks would say; the four local checks leave the world as it
    was, no statement sent; whenever a statement was sent or a 409 was
    answered, all four local checks had passed. *)
Theorem registro_valida_em_ordem (req : request) (w : world) :
  let nome := field (req_body req) "nome" in
  let email := field (req_body req) "email" in
  let senha := field (req_body req) "senha" in
  let confirmarSenha := field (req_body req) "confirmarSenha" in
  let faltam := negb (truthy nome && truthy email && truthy senha) in
  let diferem := negb (strict_eq senha confirmarSenha) in
  let curta := match senha with JStr s => js_length s <? 6 | _ => false end in
  let email_invalido := negb (regex_test emailRegex (ToString email)) in
  (faltam = true ->
   registro req w = (Ret (falha 400 "Nome, email e senha são obrigatórios"), w))
  /\ (faltam = false -> diferem = true ->
      registro req w = (Ret (falha 400 "As senhas não conferem"), w))
  /\ (faltam = false -> diferem = false -> curta = true ->
      registro req w = (Ret (falha 400 "A senha deve ter no mínimo 6 caracteres"), w))
  /\ (faltam = false -> diferem = false -> curta = false -> email_invalido = true ->
      registro req w = (Ret (falha 400 "Email inválido"), w))
  /\ (faltam = false -> diferem = false -> curta = false -> email_invalido = false ->
      hd false (outages w) = false ->
      por_email email (usuarios (db w)) <> [] ->
      registro req w =
        (Ret (falha 409 "Email já cadastrado"), after_query (SelectIdPorEmail email) w))
  /\ (forall out w',
        registro req w = (out, w') ->
        journal w' <> journal w \/ (exists r, out = Ret r /\ status r = 409) ->
        faltam = false /\ diferem = false /\ curta = false /\ email_invalido = false).
Proof.
  intros nome email senha confirmarSenha faltam diferem curta email_invalido.
  assert (H1 : faltam = true ->
               registro req w = (Ret (falha 400 "Nome, email e senha são obrigatórios"), w)).
  { intros Hf. unfold registro, try_catch.
    fold nome email senha. subst faltam.
    destruct (truthy nome), (truthy email), (truthy senha); simpl in *;
      try discriminate; reflexivity. }
  assert (Hpass : faltam = false ->
                  negb (truthy nome) || negb (truthy email) || negb (truthy senha) = false
                  /\ truthy senha = true).
  { subst faltam. destruct (truthy nome), (truthy email), (truthy senha); simpl;
      intros; try discriminate; auto. }
  assert (H2 : faltam = false -> diferem = true ->
               registro req w = (Ret (falha 400 "As senhas não conferem"), w)).
  { intros Hf Hd. apply Hpass in Hf as [Hf _]. unfold registro, try_catch.
    fold nome email senha confirmarSenha. rewrite Hf. fold diferem. rewrite Hd. reflexivity. }
  assert (H3 : faltam = false -> diferem = false -> curta = true ->
               registro req w =
                 (Ret (falha 400 "A senha deve ter no mínimo 6 caracteres"), w)).
  { intros Hf Hd Hc. apply Hpass in Hf as [Hf Hs]. unfold registro, try_catch.
    fold nome email senha confirmarSenha. rewrite Hf. fold diferem. rewrite Hd.
    rewrite length_check by assumption. fold curta. rewrite Hc. reflexivity. }
  assert (H4 : faltam = false -> diferem = false -> curta = false -> email_invalido = true ->
               registro req w = (Ret (falha 400 "Email inválido"), w)).
  { intros Hf Hd Hc He. apply Hpass in Hf as [Hf Hs]. unfold registro, try_catch.
    fold nome email senha confirmarSenha. rewrite Hf. fold diferem. rewrite Hd.
    rewrite length_check by assumption. fold curta. rewrite Hc.
    fold email_invalido. rewrite He. reflexivity. }
  split; [exact H1 |]. split; [exact H2 |]. split; [exact H3 |]. split; [exact H4 |]. split.
  - intros Hf Hd Hc He Hup Hdup. apply Hpass in Hf as [Hf Hs]. unfold registro, try_catch.
    fold nome email senha confirmarSenha. rewrite Hf. fold diferem. rewrite Hd.
    rewrite length_check by assumption. fold curta. rewrite Hc.
    fold email_invalido. rewrite He. unfold bind at 1.
    rewrite pool_query_up by assumption. simpl exec. cbv iota beta.
    unfold result_of. cbn [rows].
    assert (Hgt : js_length_gt0
                    (map (usuario_cols ["id"%string]) (por_email email (usuarios (db w)))) = true)
      by now apply js_length_gt0_map.
    rewrite Hgt. reflexivity.
  - intros out w' Hrun Hobs.
    assert (Hlocal : forall msg, registro req w = (Ret (falha 400 msg), w) -> False).
    { intros msg Hm. rewrite Hm in Hrun. injection Hrun as <- <-.
      destruct Hobs as [Hj | (r & Hr & Hs)]; [congruence |]. injection Hr as <-. discriminate. }
    destruct faltam; [exfalso; eapply Hlocal; auto |].
    destruct diferem; [exfalso; eapply Hlocal; auto |].
    destruct curta; [exfalso; eapply Hlocal; auto |].
    destruct email_invalido; [exfalso; eapply Hlocal; auto |].
    auto.
Qed.

(** *** Login *)

(** The response of [login] once the row of the email was fetched. *)
Lemma login_apos_consulta (req : request) (w : world) :
  let email := field (req_body req) "email" in
  let senha := field (req_body req) "senha" in
  truthy email = true -> truthy senha = true ->
  hd false (outages w) = false ->
  (por_email email (usuarios (db w)) = [] ->
   login req w = (Ret credenciais_invalidas, after_query (SelectUsuarioPorEmail email) w))
  /\ (forall u us, por_email email (usuarios (db w)) = u :: us -> u_ativo u = false ->
      login req w = (Ret conta_inativa, after_query (SelectUsuarioPorEmail email) w))
  /\ (forall u us s, por_email email (usuarios (db w)) = u :: us -> u_ativo u = true ->
      senha = JStr s -> bcrypt_check s (u_senha u) = false ->
      login req w = (Ret credenciais_invalidas, after_query (SelectUsuarioPorEmail email) w)).
Proof.
  intros email senha He Hs Hup.
  assert (Hrun : login req w =
    try_catch
      (match map (usuario_cols ["id"; "nome"; "email"; "senha"; "ativo"]%string)
               (por_email email (usuarios (db w))) with
       | [] => ret credenciais_invalidas
       | usuario :: _ =>
           if negb (truthy (field usuario "ativo")) then ret conta_inativa
           else
             senhaValida <- bcrypt_compare senha (field usuario "senha") ;;
             if negb senhaValida then ret credenciais_invalidas
             else
               secret <- read (fun w => jsval_of_option (JWT_SECRET (env w))) ;;
               expiresIn <- read (fun w => env_or (JWT_EXPIRES_IN (env w)) (lit "8h")) ;;
               token <- jwt_sign
                          (mkClaims (field usuario "id") (field usuario "nome")
                             (field usuario "email") JUndefined JUndefined JUndefined)
                          secret expiresIn ;;
               ret (res_json
                      [("sucesso", JVal (JBool true));
                       ("mensagem", JVal (JStr (lit "Login realizado com sucesso")));
                       ("token", JVal (JStr token));
                       ("usuario",
                        JObj [("id", JVal (field usuario "id"));
                              ("nome", JVal (field usuario "nome"));
                              ("email", JVal (field usuario "email"))])]%string)
       end)
      (fun _ => ret (falha 500 "Erro ao fazer login"))
      (after_query (SelectUsuarioPorEmail email) w)).
  { unfold login, try_catch. fold email senha. rewrite He, Hs. cbn [negb orb].
    unfold bind at 1. rewrite pool_query_up by assumption. reflexivity. }
  rewrite Hrun. clear Hrun. repeat split.
  - intros ->. reflexivity.
  - intros u us -> Hina. unfold try_catch. cbn [map]. 
    replace (field (usuario_cols ["id"; "nome"; "email"; "senha"; "ativo"]%string u) "ativo")
      with (JBool (u_ativo u)) by reflexivity.
    rewrite Hina. reflexivity.
  - intros u us s -> Hat -> Hbad. unfold try_catch. cbn [map].
    replace (field (usuario_cols ["id"; "nome"; "email"; "senha"; "ativo"]%string u) "ativo")
      with (JBool (u_ativo u)) by reflexivity.
    replace (field (usuario_cols ["id"; "nome"; "email"; "senha"; "ativo"]%string u) "senha")
      with (JStr (u_senha u)) by reflexivity.
    rewrite Hat. cbn [truthy negb]. unfold bind at 1. cbn [bcrypt_compare]. unfold ret at 1.
    rewrite Hbad. reflexivity.
Qed.

(** C2. For a login request whose body holds an email and a password
    (non-empty strings), with the store answering: when no account has the
    email, and when the account found is active and the password does not
    verify against its hash, the response is the same one, status 401 with
    the message 'Email ou senha incorretos'. *)
Theorem login_falhas_indistintas (req : request) (w : world) (e s : jsstring) :
  field (req_body req) "email" = JStr e ->
  field (req_body req) "senha" = JStr s ->
  e <> [] -> s <> [] ->
  hd false (outages w) = false ->
  (por_email (JStr e) (usuarios (db w)) = [] ->
   fst (login req w) = Ret (falha 401 "Email ou senha incorretos"))
  /\ (forall u us,
        por_email (JStr e) (usuarios (db w)) = u :: us ->
        u_ativo u = true ->
        bcrypt_check s (u_senha u) = false ->
        fst (login req w) = Ret (falha 401 "Email ou senha incorretos")).
Proof.
  intros He Hs Hne Hns Hup.
  destruct (login_apos_consulta req w) as (Hnone & _ & Hbad); try assumption.
  - rewrite He. now apply truthy_str.
  - rewrite Hs. now apply truthy_str.
  - rewrite He in *. split.
    + intros Hrows. now rewrite (Hnone Hrows).
    + intros u us Hrows Hat Hchk. now rewrite (Hbad u us s Hrows Hat Hs Hchk).
Qed.

(** C3. A login that names a deactivated account (the row found for the
    email has [ativo] false) is answered with status 403 and the message of
    the disabled account, whatever the password in the body is: the flag is
    tested before the password is compared. The response is not the generic
    401: neither its status nor its message. *)
Theorem login_conta_desativada (req : request) (w : world) (u : usuario) (us : list usuario) :
  truthy (field (req_body req) "email") = true ->
  truthy (field (req_body req) "senha") = true ->
  hd false (outages w) = false ->
  por_email (field (req_body req) "email") (usuarios (db w)) = u :: us ->
  u_ativo u = false ->
  exists r,
    fst (login req w) = Ret r
    /\ r = falha 403 "Usuário inativo. Entre em contato com o administrador"
    /\ status r = 403
    /\ status r <> status credenciais_invalidas
    /\ mensagem_of r <> mensagem_of credenciais_invalidas.
Proof.
  intros He Hs Hup Hrows Hina.
  destruct (login_apos_consulta req w) as (_ & Hoff & _); try assumption.
  exists conta_inativa. rewrite (Hoff u us Hrows Hina).
  repeat split; discriminate.
Qed.

(** C8, as the code has it. In login, the failure for an email that is not
    in the store and the failure for a wrong password return the same
    status, 401, and the same message: the two responses are equal. *)
Theorem login_falhas_mesmo_codigo (req1 req2 : request) (w1 w2 : world)
    (u : usuario) (us : list usuario) (s : jsstring) :
  let email1 := field (req_body req1) "email" in
  let email2 := field (req_body req2) "email" in
  truthy email1 = true -> truthy (field (req_body req1) "senha") = true ->
  hd false (outages w1) = false ->
  por_email email1 (usuarios (db w1)) = [] ->
  truthy email2 = true -> field (req_body req2) "senha" = JStr s -> s <> [] ->
  hd false (outages w2) = false ->
  por_email email2 (usuarios (db w2)) = u :: us ->
  u_ativo u = true ->
  bcrypt_check s (u_senha u) = false ->
  exists r1 r2,
    fst (login req1 w1) = Ret r1 /\ fst (login req2 w2) = Ret r2
    /\ status r1 = 401 /\ status r2 = 401
    /\ mensagem_of r1 = mensagem_of r2
    /\ r1 = r2.
Proof.
  intros email1 email2 He1 Hs1 Hup1 Hrows1 He2 Hs2 Hns Hup2 Hrows2 Hat Hchk.
  destruct (login_apos_consulta req1 w1) as (Hnone & _ & _); try assumption.
  destruct (login_apos_consulta req2 w2) as (_ & _ & Hbad); try assumption.
  { rewrite Hs2. now apply truthy_str. }
  exists credenciais_invalidas, credenciais_invalidas.
  rewrite (Hnone Hrows1), (Hbad u us s Hrows2 Hat Hs2 Hchk). repeat split.
Qed.

(** *** The middleware *)

(** [jwt.verify] reads the clock and nothing else of the world. *)
Lemma jwt_verify_le_relogio (token secret : jsval) (w : world) :
  exists out : Z -> outcome claims,
    forall d o j e n t, jwt_verify token secret (mkWorld d o j e t n) = (out t, mkWorld d o j e t n).
Proof.
  unfold jwt_verify.
  destruct token as [| | | | tk]; try (exists (fun _ => Throw JsonWebTokenError); reflexivity).
  destruct secret as [| | | | [| c k]]; try (exists (fun _ => Throw JsonWebTokenError); reflexivity).
  destruct (jws_open tk (c :: k)) as [p |]; [| exists (fun _ => Throw JsonWebTokenError); reflexivity].
  exists (fun t =>
    match c_nbf p with
    | JUndefined | JNum _ =>
        if (match c_nbf p with JNum n => n >? t | _ => false end)
        then Throw NotBeforeError
        else match c_exp p with
             | JUndefined => Ret p
             | JNum x => if t >=? x then Throw TokenExpiredError else Ret p
             | _ => Throw JsonWebTokenError
             end
    | _ => Throw JsonWebTokenError
    end).
  intros d o j e n t. unfold bind, read, ret, throw. cbn [clock].
  destruct (c_nbf p) as [| | b | nb | sb]; try reflexivity.
  - destruct (c_exp p) as [| | b | x | sx]; try reflexivity.
    destruct (t >=? x); reflexivity.
  - destruct (nb >? t); [reflexivity |].
    destruct (c_exp p) as [| | b | x | sx]; try reflexivity.
    destruct (t >=? x); reflexivity.
Qed.

(** [autenticar] leaves the world as it was, and what it answers depends
    on the request, the environment and the clock only. *)
Lemma autenticar_le_relogio (req : request) (e : process_env) :
  exists out : Z -> passo,
    forall d o j n t, autenticar req (mkWorld d o j e t n) = (Ret (out t), mkWorld d o j e t n).
Proof.
  unfold autenticar, try_catch.
  destruct (negb (truthy (extrair_token req))).
  - exists (fun _ => Respondeu (falha 401 "Token não fornecido")). reflexivity.
  - destruct (jwt_verify_le_relogio (extrair_token req) (jsval_of_option (JWT_SECRET e))
                (mkWorld (mkStore [] 0 [] []) [] [] e 0 0)) as [out Hout].
    exists (fun t => match out t with
                     | Ret p => Seguiu p
                     | Throw JsonWebTokenError => Respondeu (falha 401 "Token inválido")
                     | Throw TokenExpiredError => Respondeu (falha 401 "Token expirado")
                     | Throw _ => Respondeu (falha 401 "Erro ao autenticar token")
                     end).
    intros d o j n t. unfold bind at 1. unfold read at 1. cbn [env].
    unfold bind. rewrite Hout. destruct (out t) as [p | []]; reflexivity.
Qed.

(** Whatever [autenticar] answers by itself has status 401. *)
Lemma autenticar_responde_401 (req : request) (w : world) (r : response) (w' : world) :
  autenticar req w = (Ret (Respondeu r), w') -> status r = 401.
Proof.
  unfold autenticar, try_catch.
  destruct (negb (truthy (extrair_token req))).
  - intros H. injection H as <- _. reflexivity.
  - unfold bind, read.
    destruct (jwt_verify (extrair_token req) (jsval_of_option (JWT_SECRET (env w))) w)
      as [[p | err] w1].
    + discriminate.
    + destruct err; unfold autenticar_catch, ret; intros H; injection H as <- _; reflexivity.
Qed.

(** C4. The middleware takes the token from the cookie [accessToken] when
    the request has one (a non-empty value): that value is what
    [jwt.verify] is given, and the [Authorization] header does not count,
    whatever it holds. The header is consulted only when the cookie gave no
    token: then the token is what follows 'Bearer ' in it. *)
Theorem autenticar_cookie_primeiro (req : request) (w : world) :
  (forall c,
      cookie_accessToken req = JStr c -> c <> [] ->
      extrair_token req = JStr c
      /\ autenticar req w =
           try_catch
             (decoded <- jwt_verify (JStr c) (jsval_of_option (JWT_SECRET (env w))) ;;
              ret (Seguiu decoded))
             autenticar_catch w
      /\ (forall h,
            autenticar (mkRequest (req_body req) (req_cookies req) h (req_query req)) w
            = autenticar req w))
  /\ (truthy (cookie_accessToken req) = false ->
      extrair_token req =
        match req_authorization req with
        | Some h => if startsWith h (lit "Bearer ") then bearer_value h else JUndefined
        | None => JUndefined
        end).
Proof.
  split.
  - intros c Hc Hne.
    assert (Htok : forall h,
              extrair_token (mkRequest (req_body req) (req_cookies req) h (req_query req))
              = JStr c).
    { intros h. unfold extrair_token, cookie_accessToken in *. cbn [req_cookies req_authorization].
      rewrite Hc. destruct c; [congruence | reflexivity]. }
    assert (Hreq : extrair_token req = JStr c).
    { specialize (Htok (req_authorization req)). destruct req; exact Htok. }
    assert (Hrun : forall r, extrair_token r = JStr c ->
              autenticar r w =
                try_catch
                  (decoded <- jwt_verify (JStr c) (jsval_of_option (JWT_SECRET (env w))) ;;
                   ret (Seguiu decoded))
                  autenticar_catch w).
    { intros r Hr. unfold autenticar. rewrite Hr.
      destruct c; [congruence |]. reflexivity. }
    split; [exact Hreq |]. split; [now apply Hrun |].
    intros h. rewrite (Hrun _ (Htok h)), (Hrun _ Hreq). reflexivity.
  - intros Hno. unfold extrair_token. rewrite Hno. cbn [truthy negb].
    destruct (req_authorization req) as [h |]; [| reflexivity].
    destruct h; reflexivity.
Qed.

(** What [autenticar] answers to a token the codec opens under the secret
    of the environment, by the clock. *)
Lemma autenticar_token_aberto (r : request) (w2 : world) (tok k : jsstring) (p : claims) (x : Z) :
  extrair_token r = JStr tok -> tok <> [] ->
  JWT_SECRET (env w2) = Some k -> k <> [] ->
  jws_open tok k = Some p ->
  c_nbf p = JUndefined -> c_exp p = JNum x ->
  autenticar r w2 =
    (Ret (if clock w2 >=? x then Respondeu (falha 401 "Token expirado") else Seguiu p), w2).
Proof.
  intros Htok Hne Hk Hkne Hopen Hnbf Hexp.
  unfold autenticar, try_catch. rewrite Htok.
  destruct tok as [| c0 tok]; [congruence |]. cbn [truthy negb].
  unfold bind at 1. unfold read at 1. rewrite Hk. cbn [jsval_of_option].
  destruct k as [| c1 k]; [congruence |].
  unfold bind at 1. unfold jwt_verify. rewrite Hopen.
  unfold bind at 1. unfold read at 1. rewrite Hnbf, Hexp.
  destruct (clock w2 >=? x); reflexivity.
Qed.

(** C5. Verifying a token never goes to the store: what the middleware
    answers is the same in any two states of the tables (and of the pool),
    and it leaves the world as it found it, no statement sent. In
    particular a token that is signed with the secret of the server and has
    not expired is accepted in every state of the tables, so that a change
    of the password or of the active flag after the token was issued does
    not invalidate it. *)
Theorem verificacao_sem_store (req : request) (e : process_env) (t : Z) :
  (forall d1 o1 j1 n1 d2 o2 j2 n2,
      fst (autenticar req (mkWorld d1 o1 j1 e t n1))
      = fst (autenticar req (mkWorld d2 o2 j2 e t n2))
      /\ snd (autenticar req (mkWorld d1 o1 j1 e t n1)) = mkWorld d1 o1 j1 e t n1)
  /\ (forall tok k p,
        extrair_token req = JStr tok -> tok <> [] ->
        JWT_SECRET e = Some k -> k <> [] ->
        jws_open tok k = Some p ->
        c_nbf p = JUndefined ->
        (exists x, c_exp p = JNum x /\ t < x) ->
        forall d o j n,
          autenticar req (mkWorld d o j e t n) = (Ret (Seguiu p), mkWorld d o j e t n)).
Proof.
  split.
  - intros. destruct (autenticar_le_relogio req e) as [out Hout].
    rewrite !Hout. split; reflexivity.
  - intros tok k p Htok Hne Hk Hkne Hopen Hnbf (x & Hexp & Hlt) d o j n.
    rewrite (autenticar_token_aberto req _ tok k p x) by assumption. cbn [clock].
    replace (t >=? x) with false by (symmetry; rewrite Z.geb_leb; apply Z.leb_gt; lia).
    reflexivity.
Qed.

(** *** The lifetime of a token *)

Ltac sem_sucesso := try (intros H; injection H as <- _; discriminate).

(** A login answered with 200 signed a token: with the secret of the
    environment, stamped with the clock, expiring after the configured
    span. *)
Lemma login_200 (req : request) (w : world) (resp : response) (w' : world) :
  login req w = (Ret resp, w') -> status resp = 200 ->
  exists id nome email k millis,
    JWT_SECRET (env w) = Some k /\ k <> []
    /\ ms (env_or (JWT_EXPIRES_IN (env w)) (lit "8h")) = Some millis
    /\ lookup "token" (body resp) =
         Some (JVal (JStr (jws_sign (mkClaims id nome email (JNum (clock w))
                                       (JNum (clock w + millis / 1000)) JUndefined) k)))
    /\ env w' = env w /\ clock w' = clock w.
Proof.
  unfold login, try_catch.
  destruct (negb (truthy (field (req_body req) "email"))
            || negb (truthy (field (req_body req) "senha"))); sem_sucesso.
  unfold bind at 1. unfold pool_query.
  destruct (outages w) as [| [] rest]; cbn [exec]; cbv iota beta; sem_sucesso.
  all: unfold result_of; cbn [rows].
  all: destruct (por_email (field (req_body req) "email") (usuarios (db w))) as [| u us];
    cbn [map]; sem_sucesso.
  all: replace (field (usuario_cols ["id"; "nome"; "email"; "senha"; "ativo"]%string u) "ativo")
      with (JBool (u_ativo u)) by reflexivity.
  all: replace (field (usuario_cols ["id"; "nome"; "email"; "senha"; "ativo"]%string u) "senha")
      with (JStr (u_senha u)) by reflexivity.
  all: destruct (u_ativo u); cbn [truthy negb]; sem_sucesso.
  all: unfold bind at 1; destruct (field (req_body req) "senha") as [| | b | n | s];
    cbn [bcrypt_compare]; sem_sucesso.
  all: unfold ret at 1; destruct (bcrypt_check s (u_senha u)); cbn [negb]; sem_sucesso.
  all: unfold bind at 1; unfold read at 1; cbn [env].
  all: unfold bind at 1; unfold read at 1; cbn [env].
  all: unfold bind at 1; unfold jwt_sign.
  all: destruct (JWT_SECRET (env w)) as [[| c k] |]; cbn [jsval_of_option]; sem_sucesso.
  all: destruct (ms (env_or (JWT_EXPIRES_IN (env w)) (lit "8h"))) as [millis |] eqn:Hms;
    sem_sucesso.
  all: unfold bind, read, ret; cbn [clock].
  all: intros H _; injection H as <- <-.
  all: eexists _, _, _, (c :: k), millis.
  all: repeat split; try discriminate; reflexivity.
Qed.

(** C6. Under the default configuration ([JWT_EXPIRES_IN] not set), the
    token a successful login returns is signed with the secret of the
    server and expires 8 hours after it was issued: presented to the
    middleware under the same environment, it is accepted at every moment
    before T + 8 h, so at T + 1 min, and refused with 'Token expirado' from
    T + 8 h on, so at T + 9 h. The codec is taken to open what it signed,
    and the package ms to read '8h' as 28 800 000 ms. *)
Theorem token_padrao_8h (req : request) (w : world) (resp : response) (w' : world)
    (tok : jsstring) :
  (forall p k, jws_open (jws_sign p k) k = Some p) ->
  (forall p k, jws_sign p k <> []) ->
  ms (lit "8h") = Some 28800000 ->
  JWT_EXPIRES_IN (env w) = None ->
  login req w = (Ret resp, w') ->
  status resp = 200 ->
  lookup "token" (body resp) = Some (JVal (JStr tok)) ->
  (exists k p0,
      JWT_SECRET (env w) = Some k /\ tok = jws_sign p0 k
      /\ c_iat p0 = JNum (clock w) /\ c_exp p0 = JNum (clock w + 8 * 3600))
  /\ forall (r : request) (w2 : world),
    extrair_token r = JStr tok ->
    env w2 = env w ->
    (clock w2 < clock w + 8 * 3600 ->
     exists p, autenticar r w2 = (Ret (Seguiu p), w2) /\ c_exp p = JNum (clock w + 8 * 3600))
    /\ (clock w + 8 * 3600 <= clock w2 ->
        autenticar r w2 = (Ret (Respondeu (falha 401 "Token expirado")), w2))
    /\ (clock w2 = clock w + 60 -> exists p, autenticar r w2 = (Ret (Seguiu p), w2))
    /\ (clock w2 = clock w + 9 * 3600 ->
        autenticar r w2 = (Ret (Respondeu (falha 401 "Token expirado")), w2)).
Proof.
  intros Hcodec Hnonempty Hms Hdefault Hlogin Hok Htoken.
  destruct (login_200 req w resp w' Hlogin Hok)
    as (id & nome & email & k & millis & Hk & Hkne & Hspan & Htok & _ & _).
  rewrite Hdefault in Hspan. cbn [env_or] in Hspan. rewrite Hms in Hspan.
  injection Hspan as <-.
  rewrite Htoken in Htok. injection Htok as ->.
  change (28800000 / 1000) with (8 * 3600) in *.
  set (p := mkClaims id nome email (JNum (clock w)) (JNum (clock w + 8 * 3600)) JUndefined) in *.
  split; [exists k, p; repeat split; assumption |].
  intros r w2 Hr Henv.
  assert (Hrun := autenticar_token_aberto r w2 (jws_sign p k) k p (clock w + 8 * 3600) Hr
                    (Hnonempty p k)).
  rewrite Henv in Hrun. specialize (Hrun Hk Hkne (Hcodec p k) eq_refl eq_refl).
  assert (Hbefore : clock w2 < clock w + 8 * 3600 ->
                    exists p0, autenticar r w2 = (Ret (Seguiu p0), w2)
                               /\ c_exp p0 = JNum (clock w + 8 * 3600)).
  { intros Hlt. exists p. rewrite Hrun.
    replace (clock w2 >=? clock w + 8 * 3600) with false
      by (symmetry; rewrite Z.geb_leb; apply Z.leb_gt; lia).
    split; reflexivity. }
  assert (Hafter : clock w + 8 * 3600 <= clock w2 ->
                   autenticar r w2 = (Ret (Respondeu (falha 401 "Token expirado")), w2)).
  { intros Hge. rewrite Hrun.
    replace (clock w2 >=? clock w + 8 * 3600) with true
      by (symmetry; rewrite Z.geb_leb; apply Z.leb_le; lia).
    reflexivity. }
  split; [exact Hbefore |]. split; [exact Hafter |]. split.
  - intros Hc. destruct Hbefore as (p0 & Hp0 & _); [lia |]. now exists p0.
  - intros Hc. apply Hafter. lia.
Qed.

(** *** Changing the password *)

Lemma set_senha_map (h : jsstring) (z : Z) (us : list usuario) :
  fst (set_senha h z us) = map (fun u => if u_id u =? z then com_senha h u else u) us.
Proof.
  induction us as [| u us IH]; [reflexivity |].
  simpl. destruct (set_senha h z us) as [rest n]. simpl in IH. subst rest.
  destruct (u_id u =? z); reflexivity.
Qed.

(** After the update, every row of the identity holds the new hash, and
    the rows of the other identities are the ones there were. *)
Lemma set_senha_por_id (h : jsstring) (z : Z) (us : list usuario) :
  por_id (Some z) (fst (set_senha h z us)) = map (com_senha h) (por_id (Some z) us)
  /\ filter (fun u => negb (u_id u =? z)) (fst (set_senha h z us))
     = filter (fun u => negb (u_id u =? z)) us.
Proof.
  rewrite set_senha_map. unfold por_id. induction us as [| u us [IH1 IH2]]; [split; reflexivity |].
  cbn [map filter]. destruct (u_id u =? z) eqn:Hid; cbn [com_senha u_id negb]; rewrite Hid;
    cbn [negb map]; split; congruence.
Qed.

(** The route after the middleware let the request through. *)
Lemma put_alterar_senha_autenticado (req : request) (w : world) (sessao : claims) :
  autenticar req w = (Ret (Seguiu sessao), w) ->
  put_alterar_senha req w = alterar_senha req sessao w.
Proof. intros H. unfold put_alterar_senha, protegida, bind. rewrite H. reflexivity. Qed.

(** The handler once the three local checks passed and the row of the
    caller was fetched. *)
Lemma alterar_senha_apos_consulta (req : request) (sessao : claims) (w : world)
    (z : option Z) (u : usuario) (us : list usuario) (a : jsstring) :
  let senhaAtual := field (req_body req) "senhaAtual" in
  let novaSenha := field (req_body req) "novaSenha" in
  let confirmarNovaSenha := field (req_body req) "confirmarNovaSenha" in
  negb (truthy senhaAtual && truthy novaSenha && truthy confirmarNovaSenha) = false ->
  negb (strict_eq novaSenha confirmarNovaSenha) = false ->
  match novaSenha with JStr s => js_length s <? 6 | _ => false end = false ->
  hd false (outages w) = false ->
  pg_int (c_id sessao) = Some z ->
  por_id z (usuarios (db w)) = u :: us ->
  senhaAtual = JStr a ->
  (bcrypt_check a (u_senha u) = false ->
   alterar_senha req sessao w =
     (Ret (falha 401 "Senha atual incorreta"), after_query (SelectSenha (c_id sessao)) w))
  /\ (forall n,
        bcrypt_check a (u_senha u) = true ->
        novaSenha = JStr n ->
        hd false (tl (outages w)) = false ->
        let h := bcrypt_hash_alg n 10 (entropy w) in
        exists id,
          z = Some id /\
          alterar_senha req sessao w =
            (Ret senha_alterada,
             mkWorld (with_usuarios (db w) (fst (set_senha h id (usuarios (db w)))))
               (tl (tl (outages w)))
               (UpdateSenha (JStr h) (c_id sessao) :: SelectSenha (c_id sessao) :: journal w)
               (env w) (clock w) (entropy w + 1)%N)).
Proof.
  intros senhaAtual novaSenha confirmarNovaSenha Hf Hd Hc Hup Hz Hrows Ha.
  assert (Hpass : negb (truthy senhaAtual) || negb (truthy novaSenha)
                  || negb (truthy confirmarNovaSenha) = false /\ truthy novaSenha = true).
  { destruct (truthy senhaAtual), (truthy novaSenha), (truthy confirmarNovaSenha);
      simpl in *; try discriminate; auto. }
  destruct Hpass as [Hf' Hn].
  assert (Hrun : alterar_senha req sessao w =
    try_catch
      (senhaValida <- bcrypt_compare senhaAtual (JStr (u_senha u)) ;;
       if negb senhaValida then ret (falha 401 "Senha atual incorreta")
       else
         novaSenhaHash <- bcrypt_hash novaSenha 10 ;;
         _ <- pool_query (UpdateSenha (JStr novaSenhaHash) (c_id sessao)) ;;
         ret senha_alterada)
      (fun _ => ret (falha 500 "Erro ao alterar senha"))
      (after_query (SelectSenha (c_id sessao)) w)).
  { unfold alterar_senha, try_catch. fold senhaAtual novaSenha confirmarNovaSenha.
    rewrite Hf', Hd. rewrite length_check by assumption. rewrite Hc.
    unfold bind at 1. rewrite pool_query_up by assumption.
    cbn [exec]. rewrite Hz, Hrows. reflexivity. }
  rewrite Hrun. clear Hrun. rewrite Ha. split.
  - intros Hbad. unfold try_catch, bind, bcrypt_compare, ret. rewrite Hbad. reflexivity.
  - intros n Hgood Hnova Hup2 h.
    destruct z as [id |]; [| discriminate]. exists id. split; [reflexivity |].
    unfold try_catch. unfold bind at 1. unfold bcrypt_compare, ret at 1. rewrite Hgood.
    cbn [negb]. rewrite Hnova. unfold bind at 1. cbn [bcrypt_hash].
    unfold bind at 1. rewrite pool_query_up by assumption.
    cbn [exec pg_text ToString db]. rewrite Hz.
    unfold after_query. cbn [db entropy].
    destruct (set_senha (bcrypt_hash_alg n 10 (entropy w)) id (usuarios (db w)))
      as [us' cnt] eqn:Hset.
    subst h. rewrite Hset. reflexivity.
Qed.

(** What the pool answers to the statement that fetches the hash. *)
Lemma pool_query_select_senha (i : jsval) (w : world) :
  (exists z,
      pg_int i = Some z /\
      pool_query (SelectSenha i) w =
        (Ret (result_of (map (usuario_cols ["senha"%string]) (por_id z (usuarios (db w))))),
         after_query (SelectSenha i) w))
  \/ pool_query (SelectSenha i) w = (Throw DatabaseError, after_query (SelectSenha i) w).
Proof.
  unfold pool_query, after_query. destruct (outages w) as [| [] rest]; cbn [exec tl]; auto;
    destruct (pg_int i) as [z |]; auto; left; exists z; auto.
Qed.

(** The handler changes the tables or draws a salt only after the three
    local checks passed, the row of the caller was found and the current
    password verified against its hash. *)
Lemma alterar_senha_so_apos_verificar (req : request) (sessao : claims) (w : world)
    (out : outcome response) (w' : world) :
  let senhaAtual := field (req_body req) "senhaAtual" in
  let novaSenha := field (req_body req) "novaSenha" in
  let confirmarNovaSenha := field (req_body req) "confirmarNovaSenha" in
  alterar_senha req sessao w = (out, w') ->
  db w' <> db w \/ entropy w' <> entropy w ->
  negb (truthy senhaAtual && truthy novaSenha && truthy confirmarNovaSenha) = false
  /\ negb (strict_eq novaSenha confirmarNovaSenha) = false
  /\ match novaSenha with JStr s => js_length s <? 6 | _ => false end = false
  /\ exists a z u us,
       senhaAtual = JStr a /\ pg_int (c_id sessao) = Some z
       /\ por_id z (usuarios (db w)) = u :: us /\ bcrypt_check a (u_senha u) = true.
Proof.
  intros senhaAtual novaSenha confirmarNovaSenha.
  unfold alterar_senha, try_catch. fold senhaAtual novaSenha confirmarNovaSenha.
  assert (Hsame : forall (o : outcome response) w0,
            db w0 = db w -> entropy w0 = entropy w ->
            (o, w0) = (out, w') -> db w' <> db w \/ entropy w' <> entropy w -> False).
  { intros o w0 H1 H2 H. injection H as _ <-. intros [H | H]; congruence. }
  destruct (truthy senhaAtual) eqn:Ha; [| intros H1 H2; exfalso; revert H1 H2; now apply Hsame].
  destruct (truthy novaSenha) eqn:Hn;
    [| intros H1 H2; exfalso; revert H1 H2; now apply Hsame].
  destruct (truthy confirmarNovaSenha) eqn:Hcf;
    [| intros H1 H2; exfalso; revert H1 H2; now apply Hsame].
  cbn [negb orb andb].
  destruct (strict_eq novaSenha confirmarNovaSenha) eqn:Heq;
    [| intros H1 H2; exfalso; revert H1 H2; now apply Hsame].
  cbn [negb]. rewrite length_check by assumption.
  destruct (match novaSenha with JStr s => js_length s <? 6 | _ => false end) eqn:Hc;
    [intros H1 H2; exfalso; revert H1 H2; now apply Hsame |].
  unfold bind at 1.
  destruct (pool_query_select_senha (c_id sessao) w) as [(z & Hz & ->) | ->];
    [| intros H1 H2; exfalso; revert H1 H2; now apply Hsame].
  unfold result_of. cbn [rows].
  destruct (por_id z (usuarios (db w))) as [| u us] eqn:Hrows; cbn [map];
    [intros H1 H2; exfalso; revert H1 H2; now apply Hsame |].
  replace (field (usuario_cols ["senha"%string] u) "senha") with (JStr (u_senha u))
    by reflexivity.
  unfold bind at 1.
  destruct senhaAtual as [| | b | n | a] eqn:Hat; cbn [bcrypt_compare];
    try (intros H1 H2; exfalso; revert H1 H2; now apply Hsame).
  unfold ret at 1. destruct (bcrypt_check a (u_senha u)) eqn:Hchk; cbn [negb];
    [| intros H1 H2; exfalso; revert H1 H2; now apply Hsame].
  intros _ _. repeat split. exists a, z, u, us. auto.
Qed.

(** C7. A password change of an authenticated caller requires the three
    fields (400), the new password equal to its confirmation (400) and of
    six code units at least (400); then the current password is verified
    against the stored hash of the caller (401 when it does not match); and
    only then a new hash is computed and written over the stored hash of the
    identity of the caller, the response being the success. The tables
    change and a salt is drawn on no other path. *)
Theorem alterar_senha_passos (req : request) (w : world) (sessao : claims) :
  autenticar req w = (Ret (Seguiu sessao), w) ->
  let senhaAtual := field (req_body req) "senhaAtual" in
  let novaSenha := field (req_body req) "novaSenha" in
  let confirmarNovaSenha := field (req_body req) "confirmarNovaSenha" in
  let faltam := negb (truthy senhaAtual && truthy novaSenha && truthy confirmarNovaSenha) in
  let diferem := negb (strict_eq novaSenha confirmarNovaSenha) in
  let curta := match novaSenha with JStr s => js_length s <? 6 | _ => false end in
  (faltam = true ->
   put_alterar_senha req w = (Ret (falha 400 "Todos os campos são obrigatórios"), w))
  /\ (faltam = false -> diferem = true ->
      put_alterar_senha req w = (Ret (falha 400 "As novas senhas não conferem"), w))
  /\ (faltam = false -> diferem = false -> curta = true ->
      put_alterar_senha req w =
        (Ret (falha 400 "A nova senha deve ter no mínimo 6 caracteres"), w))
  /\ (forall id u us a n,
        faltam = false -> diferem = false -> curta = false ->
        pool_up 2 w ->
        pg_int (c_id sessao) = Some (Some id) ->
        por_id (Some id) (usuarios (db w)) = u :: us ->
        senhaAtual = JStr a -> novaSenha = JStr n ->
        (bcrypt_check a (u_senha u) = false ->
         exists w', put_alterar_senha req w = (Ret (falha 401 "Senha atual incorreta"), w')
                    /\ db w' = db w)
        /\ (bcrypt_check a (u_senha u) = true ->
            exists w',
              put_alterar_senha req w = (Ret senha_alterada, w')
              /\ por_id (Some id) (usuarios (db w'))
                 = map (com_senha (bcrypt_hash_alg n 10 (entropy w)))
                     (por_id (Some id) (usuarios (db w)))
              /\ filter (fun v => negb (u_id v =? id)) (usuarios (db w'))
                 = filter (fun v => negb (u_id v =? id)) (usuarios (db w))))
  /\ (forall out w',
        put_alterar_senha req w = (out, w') ->
        db w' <> db w \/ entropy w' <> entropy w ->
        faltam = false /\ diferem = false /\ curta = false
        /\ exists a z u us,
             senhaAtual = JStr a /\ pg_int (c_id sessao) = Some z
             /\ por_id z (usuarios (db w)) = u :: us /\ bcrypt_check a (u_senha u) = true).
Proof.
  intros Hauth senhaAtual novaSenha confirmarNovaSenha faltam diferem curta.
  rewrite (put_alterar_senha_autenticado req w sessao Hauth).
  assert (Hpass : faltam = false ->
                  negb (truthy senhaAtual) || negb (truthy novaSenha)
                  || negb (truthy confirmarNovaSenha) = false /\ truthy novaSenha = true).
  { subst faltam.
    destruct (truthy senhaAtual), (truthy novaSenha), (truthy confirmarNovaSenha);
      simpl; intros; try discriminate; auto. }
  split; [| split; [| split; [| split]]].
  - intros Hf. unfold alterar_senha, try_catch. fold senhaAtual novaSenha confirmarNovaSenha.
    subst faltam.
    destruct (truthy senhaAtual), (truthy novaSenha), (truthy confirmarNovaSenha);
      simpl in *; try discriminate; reflexivity.
  - intros Hf Hd. apply Hpass in Hf as [Hf _]. unfold alterar_senha, try_catch.
    fold senhaAtual novaSenha confirmarNovaSenha. rewrite Hf. fold diferem. rewrite Hd.
    reflexivity.
  - intros Hf Hd Hc. apply Hpass in Hf as [Hf Hn]. unfold alterar_senha, try_catch.
    fold senhaAtual novaSenha confirmarNovaSenha. rewrite Hf. fold diferem. rewrite Hd.
    rewrite length_check by assumption. fold curta. rewrite Hc. reflexivity.
  - intros id u us a n Hf Hd Hc Hup Hz Hrows Ha Hn.
    assert (Hup1 : hd false (outages w) = false) by (eapply pool_up_hd; eauto).
    assert (Hup2 : hd false (tl (outages w)) = false).
    { specialize (Hup 1%nat). destruct (outages w) as [| o1 [| o2 os]]; try reflexivity.
      apply Hup. lia. }
    destruct (alterar_senha_apos_consulta req sessao w (Some id) u us a Hf Hd Hc Hup1 Hz Hrows Ha)
      as [Hbad Hgood].
    split.
    + intros Hchk. eexists. split; [exact (Hbad Hchk) | reflexivity].
    + intros Hchk. destruct (Hgood n Hchk Hn Hup2) as (id' & Hid & Hrun).
      injection Hid as <-. eexists. split; [exact Hrun |].
      cbn [db with_usuarios usuarios]. apply set_senha_por_id.
  - apply alterar_senha_so_apos_verificar.
Qed.

(** C10. When an authenticated password change passes the local checks
    and the current password in the body does not verify against the stored
    hash of the caller, the response is 401 and the tables are left as they
    were: the only statement sent is the one that fetched the hash, the
    update is not. *)
Theorem senha_atual_errada_nao_grava (req : request) (w : world) (sessao : claims)
    (z : option Z) (u : usuario) (us : list usuario) (a : jsstring) :
  let senhaAtual := field (req_body req) "senhaAtual" in
  let novaSenha := field (req_body req) "novaSenha" in
  let confirmarNovaSenha := field (req_body req) "confirmarNovaSenha" in
  autenticar req w = (Ret (Seguiu sessao), w) ->
  truthy senhaAtual && truthy novaSenha && truthy confirmarNovaSenha = true ->
  strict_eq novaSenha confirmarNovaSenha = true ->
  match novaSenha with JStr s => js_length s <? 6 | _ => false end = false ->
  hd false (outages w) = false ->
  pg_int (c_id sessao) = Some z ->
  por_id z (usuarios (db w)) = u :: us ->
  senhaAtual = JStr a ->
  bcrypt_check a (u_senha u) = false ->
  exists r w',
    put_alterar_senha req w = (Ret r, w')
    /\ r = falha 401 "Senha atual incorreta"
    /\ status r = 401
    /\ db w' = db w
    /\ usuarios (db w') = usuarios (db w)
    /\ journal w' = SelectSenha (c_id sessao) :: journal w.
Proof.
  intros senhaAtual novaSenha confirmarNovaSenha Hauth Hf Hd Hc Hup Hz Hrows Ha Hchk.
  rewrite (put_alterar_senha_autenticado req w sessao Hauth).
  destruct (alterar_senha_apos_consulta req sessao w z u us a) as [Hbad _]; try assumption.
  - fold senhaAtual novaSenha confirmarNovaSenha. now rewrite Hf.
  - fold novaSenha confirmarNovaSenha. now rewrite Hd.
  - do 2 eexists. split; [exact (Hbad Hchk) |]. repeat split.
Qed.

(** *** The listings *)

(** A protected route that answers 200 went through the middleware. *)
Lemma protegida_200 (handler : request -> claims -> M response) (req : request) (w : world)
    (r : response) (w' : world) :
  protegida handler req w = (Ret r, w') -> status r = 200 ->
  exists sessao w1, handler req sessao w1 = (Ret r, w').
Proof.
  unfold protegida, bind. destruct (autenticar req w) as [[[r0 | sessao] | err] w1] eqn:Hauth.
  - unfold ret. intros H Hs. injection H as <- <-.
    apply autenticar_responde_401 in Hauth. congruence.
  - intros H _. eauto.
  - discriminate.
Qed.

(** C9, as the code has it. The successful responses of the user listing
    and of the contact listing carry the count [total] next to the array
    [dados], and [total] is the number of rows of [dados]; the successful
    response of the company listing carries [dados] only, without a count. *)
Theorem listagens_e_total (req : request) (w : world) (r : response) (w' : world) :
  (get_usuarios req w = (Ret r, w') -> status r = 200 ->
   exists linhas,
     body r = [("sucesso"%string, JVal (JBool true));
               ("total"%string, JVal (JNum (js_count linhas)));
               ("dados"%string, json_of_rows linhas)]
     /\ has_key "total" (body r) = true /\ has_key "dados" (body r) = true)
  /\ (get_contatos req w = (Ret r, w') -> status r = 200 ->
      exists linhas,
        body r = [("sucesso"%string, JVal (JBool true));
                  ("total"%string, JVal (JNum (js_count linhas)));
                  ("dados"%string, json_of_rows linhas)]
        /\ has_key "total" (body r) = true /\ has_key "dados" (body r) = true)
  /\ (get_empresas req w = (Ret r, w') -> status r = 200 ->
      exists linhas,
        body r = [("sucesso"%string, JVal (JBool true));
                  ("dados"%string, json_of_rows linhas)]
        /\ has_key "total" (body r) = false /\ has_key "dados" (body r) = true).
Proof.
  split; [| split]; intros Hrun Hok;
    apply protegida_200 in Hrun as (sessao & w1 & Hrun); try assumption;
    revert Hrun.
  - unfold listar_usuarios, try_catch, bind.
    destruct (pool_query SelectUsuarios w1) as [[res | err] w2]; unfold ret; intros H;
      injection H as <- _; [| discriminate].
    exists (rows res). repeat split.
  - unfold listar_contatos, try_catch, bind.
    match goal with |- context [pool_query ?q w1] =>
      destruct (pool_query q w1) as [[res | err] w2] end;
      unfold ret; intros H; injection H as <- _; [| discriminate].
    exists (rows res). repeat split.
  - unfold listar_empresas, try_catch, bind.
    destruct (pool_query SelectEmpresas w1) as [[res | err] w2]; unfold ret; intros H;
      injection H as <- _; [| discriminate].
    exists (rows res). repeat split.
Qed.

End Claims.

(* ===================================================================== *)
(** ** The reference platform meets what the theorems assume *)
(* ===================================================================== *)

Section SampleFacts.

Import Sample.

Lemma firstn_skipn_app (s r : list N) :
  firstn (List.length s) (s ++ r) = s /\ skipn (List.length s) (s ++ r) = r.
Proof. induction s as [| c s [IH1 IH2]]; simpl; split; congruence. Qed.

Lemma dec_enc_val (v : jsval) (r : list N) : dec_val (enc_val v ++ r) = Some (v, r).
Proof.
  destruct v as [| | [|] | z | s]; try reflexivity.
  - cbn [enc_val app dec_val]. f_equal. f_equal. f_equal.
    destruct (z <? 0) eqn:Hz; cbn [N.eqb Pos.eqb].
    + apply Z.ltb_lt in Hz. rewrite N2Z.inj_abs_N. lia.
    + apply Z.ltb_ge in Hz. rewrite N2Z.inj_abs_N. lia.
  - cbn [enc_val app dec_val]. rewrite Nat2N.id.
    destruct (firstn_skipn_app s r) as [-> ->].
    replace (List.length (s ++ r) <? List.length s)%nat with false; [reflexivity |].
    symmetry. apply Nat.ltb_ge. rewrite length_app. lia.
Qed.

Lemma dec_enc_claims (p : claims) : dec_claims (enc_claims p) = Some p.
Proof.
  unfold dec_claims, enc_claims. rewrite !dec_enc_val.
  rewrite <- (app_nil_r (enc_val (c_nbf p))). rewrite dec_enc_val.
  destruct p; reflexivity.
Qed.

(** The sample codec opens what it sealed, and seals to a non-empty token. *)
Lemma unseal_seal (p : claims) (k : jsstring) : unseal (seal p k) k = Some p.
Proof.
  unfold unseal, seal.
  replace (forallb (fun n => (33 <=? n)%N) (map (fun n => (n + 33)%N) (enc_val (JStr k) ++ enc_claims p)))
    with true.
  - rewrite map_map. rewrite (map_ext _ (fun n => n)) by (intros n; lia).
    rewrite map_id, dec_enc_val.
    replace (jsstring_eqb k k) with true; [apply dec_enc_claims |].
    symmetry. clear. induction k as [| c k IH]; simpl; [reflexivity |].
    now rewrite N.eqb_refl.
  - symmetry. apply forallb_forall. intros n Hn. apply in_map_iff in Hn as (m & <- & _).
    apply N.leb_le. lia.
Qed.

Lemma seal_nonempty (p : claims) (k : jsstring) : seal p k <> [].
Proof. unfold seal. cbn [enc_val app map]. discriminate. Qed.

End SampleFacts.

(* ===================================================================== *)
(** ** The properties on the reference platform *)
(* ===================================================================== *)

Section Runs.

Import Sample.

(** Registration: a confirmation that differs is reported even though the
    password is also too short; a short password is reported before the
    email is looked at; an email that is taken is reported last, after one
    statement. *)
Lemma registro_valida_em_ordem_witness :
  registro (pedido (cadastro "Ana" "sem-arroba" "abc" "abd")) mundo
  = (Ret (falha 400 "As senhas não conferem"), mundo)
  /\ registro (pedido (cadastro "Ana" "sem-arroba" "abc" "abc")) mundo
     = (Ret (falha 400 "A senha deve ter no mínimo 6 caracteres"), mundo)
  /\ registro (pedido (cadastro "Ana" "ana@exemplo.com" "abcdef" "abcdef")) mundo
     = (Ret (falha 409 "Email já cadastrado"),
        after_query (SelectIdPorEmail (JStr (lit "ana@exemplo.com"))) mundo).
Proof.
  split; [| split].
  - destruct (registro_valida_em_ordem (pedido (cadastro "Ana" "sem-arroba" "abc" "abd")) mundo)
      as (_ & H & _).
    apply H; reflexivity.
  - destruct (registro_valida_em_ordem (pedido (cadastro "Ana" "sem-arroba" "abc" "abc")) mundo)
      as (_ & _ & H & _).
    apply H; reflexivity.
  - destruct (registro_valida_em_ordem
                (pedido (cadastro "Ana" "ana@exemplo.com" "abcdef" "abcdef")) mundo)
      as (_ & _ & _ & _ & H & _).
    apply H; try reflexivity. vm_compute. discriminate.
Defined.

Lemma login_falhas_indistintas_witness :
  fst (login (pedido (credenciais "ninguem@exemplo.com" "segredo1")) mundo)
  = Ret (falha 401 "Email ou senha incorretos")
  /\ fst (login (pedido (credenciais "ana@exemplo.com" "errada")) mundo)
     = Ret (falha 401 "Email ou senha incorretos").
Proof.
  split.
  - refine (proj1 (login_falhas_indistintas
                     (pedido (credenciais "ninguem@exemplo.com" "segredo1")) mundo
                     (lit "ninguem@exemplo.com") (lit "segredo1") eq_refl eq_refl _ _ eq_refl) _);
      [discriminate | discriminate | reflexivity].
  - refine (proj2 (login_falhas_indistintas
                     (pedido (credenciais "ana@exemplo.com" "errada")) mundo
                     (lit "ana@exemplo.com") (lit "errada") eq_refl eq_refl _ _ eq_refl)
              ana [] _ _ _);
      [discriminate | discriminate | reflexivity | reflexivity | reflexivity].
Defined.

(** The deactivated account, with its correct password. *)
Lemma login_conta_desativada_witness :
  exists r,
    fst (login (pedido (credenciais "rui@exemplo.com" "segredo2")) mundo) = Ret r
    /\ r = falha 403 "Usuário inativo. Entre em contato com o administrador"
    /\ status r = 403
    /\ status r <> status credenciais_invalidas
    /\ mensagem_of r <> mensagem_of credenciais_invalidas.
Proof.
  apply (login_conta_desativada (pedido (credenciais "rui@exemplo.com" "segredo2")) mundo rui []);
    reflexivity.
Defined.

(** A request with a token in the cookie and another one in the header:
    the token of the cookie is the one verified. *)
Lemma autenticar_cookie_primeiro_witness :
  extrair_token (mkRequest [] (Some [("accessToken"%string, token_ana)])
                   (Some (lit "Bearer outro")) []) = JStr token_ana
  /\ extrair_token (com_bearer token_ana []) = JStr token_ana.
Proof.
  split.
  - refine (proj1 (proj1 (autenticar_cookie_primeiro
                            (mkRequest [] (Some [("accessToken"%string, token_ana)])
                               (Some (lit "Bearer outro")) []) mundo)
                     token_ana eq_refl _)).
    apply seal_nonempty.
  - rewrite (proj2 (autenticar_cookie_primeiro (com_bearer token_ana []) mundo) eq_refl).
    reflexivity.
Defined.

(** The token issued before the change is still accepted after it. *)
Lemma verificacao_sem_store_witness :
  usuarios (db mundo_senha_trocada) <> usuarios (db mundo)
  /\ autenticar (com_cookie token_ana []) mundo_senha_trocada
     = (Ret (Seguiu sessao_ana), mundo_senha_trocada).
Proof.
  split; [vm_compute; discriminate |].
  refine (proj2 (verificacao_sem_store (com_cookie token_ana []) ambiente 1000)
            token_ana chave sessao_ana eq_refl _ eq_refl _ _ eq_refl _
            (db mundo_senha_trocada) (outages mundo_senha_trocada)
            (journal mundo_senha_trocada) (entropy mundo_senha_trocada)).
  - apply seal_nonempty.
  - discriminate.
  - apply unseal_seal.
  - exists 29800. split; [reflexivity | lia].
Defined.

Lemma token_padrao_8h_witness :
  (exists p, autenticar (com_cookie token_ana []) (with_clock mundo (1000 + 60))
             = (Ret (Seguiu p), with_clock mundo (1000 + 60)))
  /\ autenticar (com_cookie token_ana []) (with_clock mundo (1000 + 9 * 3600))
     = (Ret (Respondeu (falha 401 "Token expirado")), with_clock mundo (1000 + 9 * 3600)).
Proof.
  assert (Hlogin : login (pedido (credenciais "ana@exemplo.com" "segredo1")) mundo
                   = (Ret resposta_login,
                      after_query (SelectUsuarioPorEmail (JStr (lit "ana@exemplo.com"))) mundo))
    by reflexivity.
  split.
  - refine (proj1 (proj2 (proj2
      (proj2 (token_padrao_8h _ mundo resposta_login _ token_ana unseal_seal seal_nonempty
                eq_refl eq_refl Hlogin eq_refl eq_refl)
         (com_cookie token_ana []) (with_clock mundo (1000 + 60)) eq_refl eq_refl))) eq_refl).
  - refine (proj2 (proj2 (proj2
      (proj2 (token_padrao_8h _ mundo resposta_login _ token_ana unseal_seal seal_nonempty
                eq_refl eq_refl Hlogin eq_refl eq_refl)
         (com_cookie token_ana []) (with_clock mundo (1000 + 9 * 3600)) eq_refl eq_refl))) eq_refl).
Defined.

(** A change with the right current password writes the new hash; one
    with the wrong current password is refused and writes nothing. *)
Lemma alterar_senha_passos_witness :
  (exists w',
      put_alterar_senha (com_cookie token_ana (troca "segredo1" "novasenha" "novasenha")) mundo
      = (Ret senha_alterada, w')
      /\ por_id (Some 1) (usuarios (db w'))
         = [com_senha (salted (lit "novasenha") 10 7) ana])
  /\ (exists w',
        put_alterar_senha (com_cookie token_ana (troca "errada" "novasenha" "novasenha")) mundo
        = (Ret (falha 401 "Senha atual incorreta"), w')
        /\ db w' = db mundo).
Proof.
  assert (Hauth : forall b, autenticar (com_cookie token_ana b) mundo
                            = (Ret (Seguiu sessao_ana), mundo)) by reflexivity.
  split.
  - destruct (alterar_senha_passos
                (com_cookie token_ana (troca "segredo1" "novasenha" "novasenha"))
                mundo sessao_ana (Hauth _)) as (_ & _ & _ & H & _).
    destruct (H 1 ana [] (lit "segredo1") (lit "novasenha")) as [_ Hok];
      try reflexivity.
    { intros k _. destruct k as [| [| k]]; reflexivity. }
    destruct (Hok eq_refl) as (w' & Hrun & Hrows & _).
    exists w'. split; [exact Hrun | exact Hrows].
  - destruct (alterar_senha_passos
                (com_cookie token_ana (troca "errada" "novasenha" "novasenha"))
                mundo sessao_ana (Hauth _)) as (_ & _ & _ & H & _).
    destruct (H 1 ana [] (lit "errada") (lit "novasenha")) as [Hbad _];
      try reflexivity.
    { intros k _. destruct k as [| [| k]]; reflexivity. }
    exact (Hbad eq_refl).
Defined.

Lemma senha_atual_errada_nao_grava_witness :
  exists r w',
    put_alterar_senha (com_cookie token_ana (troca "errada" "novasenha" "novasenha")) mundo
    = (Ret r, w')
    /\ r = falha 401 "Senha atual incorreta"
    /\ status r = 401
    /\ db w' = db mundo
    /\ usuarios (db w') = usuarios (db mundo)
    /\ journal w' = SelectSenha (JNum 1) :: journal mundo.
Proof.
  apply (senha_atual_errada_nao_grava
           (com_cookie token_ana (troca "errada" "novasenha" "novasenha"))
           mundo sessao_ana (Some 1) ana [] (lit "errada")); reflexivity.
Defined.

(** C8, the claim as stated fails: for an email the store does not have
    and for a wrong password of an active account, login answers the same
    status, 401; the codes of the two paths do not differ. *)
Lemma login_codigos_nao_diferem :
  por_email (JStr (lit "ninguem@exemplo.com")) (usuarios (db mundo)) = []
  /\ por_email (JStr (lit "ana@exemplo.com")) (usuarios (db mundo)) = [ana]
  /\ salted_check (lit "errada") (u_senha ana) = false
  /\ status_de (fst (login (pedido (credenciais "ninguem@exemplo.com" "errada")) mundo))
     = Some 401
  /\ status_de (fst (login (pedido (credenciais "ana@exemplo.com" "errada")) mundo))
     = Some 401
  /\ ~ (status_de (fst (login (pedido (credenciais "ninguem@exemplo.com" "errada")) mundo))
        <> status_de (fst (login (pedido (credenciais "ana@exemplo.com" "errada")) mundo))).
Proof.
  repeat split. intros H. apply H. reflexivity.
Qed.

Lemma login_falhas_mesmo_codigo_witness :
  exists r1 r2,
    fst (login (pedido (credenciais "ninguem@exemplo.com" "errada")) mundo) = Ret r1
    /\ fst (login (pedido (credenciais "ana@exemplo.com" "errada")) mundo) = Ret r2
    /\ status r1 = 401 /\ status r2 = 401
    /\ mensagem_of r1 = mensagem_of r2
    /\ r1 = r2.
Proof.
  apply (login_falhas_mesmo_codigo
           (pedido (credenciais "ninguem@exemplo.com" "errada"))
           (pedido (credenciais "ana@exemplo.com" "errada"))
           mundo mundo ana [] (lit "errada")); try reflexivity.
  discriminate.
Defined.

(** C9, the claim as stated fails: the company listing answers 200 with
    the array [dados] and without a count. *)
Lemma empresas_sem_total :
  exists r w',
    get_empresas (com_cookie token_ana []) mundo = (Ret r, w')
    /\ status r = 200
    /\ has_key "dados" (body r) = true
    /\ has_key "total" (body r) = false.
Proof.
  do 2 eexists. split; [reflexivity |]. repeat split.
Qed.

Lemma listagens_e_total_witness :
  has_key "total" (body (resposta_de (get_usuarios (com_cookie token_ana []) mundo))) = true
  /\ has_key "total" (body (resposta_de (get_contatos (com_cookie token_ana []) mundo))) = true
  /\ has_key "total" (body (resposta_de (get_empresas (com_cookie token_ana []) mundo))) = false.
Proof.
  assert (Hu : get_usuarios (com_cookie token_ana []) mundo
               = (Ret (resposta_de (get_usuarios (com_cookie token_ana []) mundo)),
                  snd (get_usuarios (com_cookie token_ana []) mundo))) by reflexivity.
  assert (Hc : get_contatos (com_cookie token_ana []) mundo
               = (Ret (resposta_de (get_contatos (com_cookie token_ana []) mundo)),
                  snd (get_contatos (com_cookie token_ana []) mundo))) by reflexivity.
  assert (He : get_empresas (com_cookie token_ana []) mundo
               = (Ret (resposta_de (get_empresas (com_cookie token_ana []) mundo)),
                  snd (get_empresas (com_cookie token_ana []) mundo))) by reflexivity.
  split; [| split].
  - destruct (proj1 (listagens_e_total _ _ _ _) Hu) as (linhas & _ & H & _);
      [reflexivity | exact H].
  - destruct (proj1 (proj2 (listagens_e_total _ _ _ _)) Hc) as (linhas & _ & H & _);
      [reflexivity | exact H].
  - destruct (proj2 (proj2 (listagens_e_total _ _ _ _)) He) as (linhas & _ & H & _);
      [reflexivity | exact H].
Defined.

(** The scenario of a new account: it registers, logs in, reads its
    profile with the token, is refused without a token and is refused with
    the token once it has expired. *)
Example cenario_nova_conta :
  let w1 := snd (registro (pedido (cadastro "João" "joao@x.com" "abcdef" "abcdef")) mundo) in
  let entrada := login (pedido (credenciais "joao@x.com" "abcdef")) w1 in
  let token := match lookup "token" (body (resposta_de entrada)) with
               | Some (JVal (JStr t)) => t
               | _ => []
               end in
  let w2 := snd entrada in
  status_de (fst (registro (pedido (cadastro "João" "joao@x.com" "abcdef" "abcdef")) mundo))
  = Some 201
  /\ status_de (fst entrada) = Some 200
  /\ token <> []
  /\ lookup "usuario" (body (resposta_de entrada))
     = Some (JObj [("id"%string, JVal (JNum 3)); ("nome"%string, JVal (JStr (lit "João")));
                   ("email"%string, JVal (JStr (lit "joao@x.com")))])
  /\ fst (get_perfil (com_cookie token []) w2)
     = Ret (res_json
              [("sucesso"%string, JVal (JBool true));
               ("dados"%string,
                JObj [("id"%string, JVal (JNum 3)); ("nome"%string, JVal (JStr (lit "João")));
                      ("email"%string, JVal (JStr (lit "joao@x.com")));
                      ("ativo"%string, JVal (JBool true))])])
  /\ fst (get_perfil (pedido []) w2) = Ret (falha 401 "Token não fornecido")
  /\ fst (get_perfil (com_bearer token []) (with_clock w2 (clock w2 + 8 * 3600)))
     = Ret (falha 401 "Token expirado")
  /\ status_de (fst (registro (pedido (cadastro "João" "joao@x.com" "abcdef" "abcdef")) w1))
     = Some 409.
Proof.
  vm_compute. repeat split. discriminate.
Qed.

(** The standalone check reads the header only: a token in the cookie
    does not count there. *)
Example verificar_token_so_cabecalho :
  fst (verificar_token (com_cookie token_ana []) mundo) = Ret (falha 401 "Token não fornecido")
  /\ status_de (fst (verificar_token (com_bearer token_ana []) mundo)) = Some 200.
Proof.
  vm_compute. split; reflexivity.
Qed.

(** A password that is a number passes the length test (it has no
    [length]) and is refused by bcrypt: the registration ends in 500. *)
Example registro_senha_numerica :
  status_de
    (fst (registro
            (pedido [("nome"%string, JStr (lit "Ana")); ("email"%string, JStr (lit "a@b.co"));
                     ("senha"%string, JNum 12345); ("confirmarSenha"%string, JNum 12345)])
            mundo))
  = Some 500.
Proof. reflexivity. Qed.

(** When the pool is out, login ends in 500. *)
Example login_sem_banco :
  fst (login (pedido (credenciais "ana@exemplo.com" "segredo1"))
         (mkWorld (db mundo) [true] [] ambiente 1000 7))
  = Ret (falha 500 "Erro ao fazer login").
Proof. reflexivity. Qed.

End Runs.

(* ===================================================================== *)
(** ** Further properties of the routes *)
(* ===================================================================== *)

Section Coverage.

Context {X : Externals}.

(** *** Registration: what it writes *)

Lemma por_email_nil_notin (e : jsstring) (us : list usuario) :
  por_email (JStr e) us = [] <-> ~ In e (map u_email us).
Proof.
  unfold por_email. cbn [pg_text ToString]. induction us as [| u us IH]; cbn [filter map In].
  - tauto.
  - destruct (jsstring_eqb (u_email u) e) eqn:He.
    + apply jsstring_eqb_eq in He. split; [discriminate | intros H; exfalso; apply H; auto].
    + rewrite IH. split; [| tauto]. intros H [Hu | Hin]; [| tauto].
      apply jsstring_eqb_eq in Hu. congruence.
Qed.

Lemma jsstring_eqb_refl (s : jsstring) : jsstring_eqb s s = true.
Proof. now apply jsstring_eqb_eq. Qed.

(** Closes a branch in which the tables stay as they were, by the
    hypothesis of the proof that says so. *)
Ltac fica :=
  let H := fresh in
  intros H;
  match goal with
  | Hs : forall w0 r0, _ |- _ => refine (Hs _ _ _ _ H); [reflexivity | cbn; discriminate]
  end.

(** A run of [registro] either leaves the tables as they were, or answers
    201 after appending one active account, with the next identifier of the
    sequence, under an email no account had. *)
Lemma registro_efeito (req : request) (w : world) (out : outcome response) (w' : world) :
  registro req w = (out, w') ->
  (db w' = db w /\ forall r, out = Ret r -> status r <> 201)
  \/ (exists n e s,
        pg_text (field (req_body req) "nome") = Some n
        /\ pg_text (field (req_body req) "email") = Some e
        /\ field (req_body req) "senha" = JStr s
        /\ por_email (field (req_body req) "email") (usuarios (db w)) = []
        /\ out = Ret (usuario_registrado (usuarios_seq (db w)))
        /\ db w' = mkStore
                     (usuarios (db w)
                      ++ [mkUsuario (usuarios_seq (db w)) n e
                            (bcrypt_hash_alg s 10 (entropy w)) true])
                     (usuarios_seq (db w) + 1) (contatos (db w)) (empresas (db w))).
Proof.
  unfold registro, try_catch.
  set (nome := field (req_body req) "nome").
  set (email := field (req_body req) "email").
  set (senha := field (req_body req) "senha").
  set (conf := field (req_body req) "confirmarSenha").
  assert (Hsame : forall w0 r0,
            db w0 = db w -> status r0 <> 201 ->
            (Ret r0, w0) = (out, w') ->
            (db w' = db w /\ forall r, out = Ret r -> status r <> 201)
            \/ (exists n e s,
                  pg_text nome = Some n /\ pg_text email = Some e /\ senha = JStr s
                  /\ por_email email (usuarios (db w)) = []
                  /\ out = Ret (usuario_registrado (usuarios_seq (db w)))
                  /\ db w' = mkStore
                       (usuarios (db w)
                        ++ [mkUsuario (usuarios_seq (db w)) n e
                              (bcrypt_hash_alg s 10 (entropy w)) true])
                       (usuarios_seq (db w) + 1) (contatos (db w)) (empresas (db w)))).
  { intros w0 r0 Hd Hs H. injection H as <- <-. left. split; [assumption |].
    intros r Hr. injection Hr as <-. assumption. }
  destruct (truthy nome) eqn:Hn; [| fica].
  destruct (truthy email) eqn:He; [| fica].
  destruct (truthy senha) eqn:Hs; [| fica].
  cbn [negb orb].
  destruct (strict_eq senha conf); [| fica].
  cbn [negb]. rewrite length_check by assumption.
  destruct (match senha with JStr s => js_length s <? 6 | _ => false end);
    [fica |].
  destruct (regex_test emailRegex (ToString email));
    [| fica].
  cbn [negb]. unfold bind at 1. unfold pool_query.
  destruct (outages w) as [| [] rest] eqn:Hout; cbn [exec tl]; cbv iota beta;
    try (fica).
  all: unfold result_of; cbn [rows].
  all: destruct (por_email email (usuarios (db w))) as [| u us] eqn:Hrows.
  all: try (replace (js_length_gt0 (map (usuario_cols ["id"%string]) (u :: us))) with true
              by (symmetry; apply js_length_gt0_map; discriminate);
            fica).
  all: cbn [map]; replace (js_length_gt0 []) with false by reflexivity.
  all: unfold bind at 1; destruct senha as [| | b | z | s] eqn:Hsenha; cbn [bcrypt_hash];
    try (fica).
  all: unfold bind at 1; unfold pool_query; cbn [outages tl exec db entropy journal env clock].
  all: destruct nome as [| | bn | zn | sn] eqn:Hnome; try discriminate;
       destruct email as [| | be | ze | se] eqn:Hemail; try discriminate.
  all: cbn [pg_text].
  all: try (destruct rest as [| [] rest']; cbn [tl];
            try (fica)).
  all: intros H; injection H as <- <-; right; do 3 eexists;
       repeat split; reflexivity.
Qed.

(** The run of a registration that passes every check. *)
Lemma registro_executa (req : request) (w : world) (nome email senha : jsstring) :
  field (req_body req) "nome" = JStr nome ->
  field (req_body req) "email" = JStr email ->
  field (req_body req) "senha" = JStr senha ->
  field (req_body req) "confirmarSenha" = JStr senha ->
  nome <> [] ->
  6 <= js_length senha ->
  regex_test emailRegex email = true ->
  por_email (JStr email) (usuarios (db w)) = [] ->
  pool_up 2 w ->
  registro req w
  = (Ret (usuario_registrado (usuarios_seq (db w))),
     mkWorld
       (mkStore
          (usuarios (db w)
           ++ [mkUsuario (usuarios_seq (db w)) nome email
                 (bcrypt_hash_alg senha 10 (entropy w)) true])
          (usuarios_seq (db w) + 1) (contatos (db w)) (empresas (db w)))
       (tl (tl (outages w)))
       (InsertUsuario (JStr nome) (JStr email)
          (JStr (bcrypt_hash_alg senha 10 (entropy w)))
        :: SelectIdPorEmail (JStr email) :: journal w)
       (env w) (clock w) (entropy w + 1)%N).
Proof.
  intros Hn He Hs Hc Hnome Hlen Hre Hfree Hup.
  assert (Hup1 : hd false (outages w) = false) by (eapply pool_up_hd; eauto).
  assert (Hup2 : hd false (tl (outages w)) = false).
  { specialize (Hup 1%nat). destruct (outages w) as [| o1 [| o2 os]]; try reflexivity.
    apply Hup. lia. }
  assert (Hsenha : senha <> []).
  { intros ->. cbn in Hlen. lia. }
  assert (Hemail : email <> []).
  { intros ->. discriminate. }
  unfold registro, try_catch. rewrite Hn, He, Hs, Hc.
  destruct nome as [| n0 nome]; [congruence |].
  destruct email as [| e0 email]; [congruence |].
  destruct senha as [| s0 senha]; [congruence |].
  cbn [truthy negb orb strict_eq]. rewrite jsstring_eqb_refl. cbn [negb].
  unfold bind at 1. cbn [get_length]. unfold ret at 1.
  replace (js_lt (JNum (js_length (s0 :: senha))) 6) with false
    by (symmetry; apply Z.ltb_ge; assumption).
  cbn [ToString]. rewrite Hre. cbn [negb].
  unfold bind at 1. rewrite pool_query_up by assumption. cbn [exec].
  rewrite Hfree. cbn [map result_of rows]. replace (js_length_gt0 []) with false by reflexivity.
  unfold bind at 1. cbn [bcrypt_hash].
  unfold bind at 1. rewrite pool_query_up by assumption.
  cbn [exec pg_text ToString db entropy].
  unfold bind, first_row, ret. reflexivity.
Qed.

(** X1. A registration with a non-empty name, a password of six code
    units or more that equals its confirmation, and an email of the shape
    the route accepts that no account has, the pool answering, is answered
    201 with the next identifier of the sequence; it appends one active
    account that holds the name, the email and the bcrypt hash (10 rounds)
    of the password, and leaves the other rows and tables as they were;
    from then on the email finds that account, and only it. *)
Theorem registro_cria_conta (req : request) (w : world) (nome email senha : jsstring) :
  field (req_body req) "nome" = JStr nome ->
  field (req_body req) "email" = JStr email ->
  field (req_body req) "senha" = JStr senha ->
  field (req_body req) "confirmarSenha" = JStr senha ->
  nome <> [] ->
  6 <= js_length senha ->
  regex_test emailRegex email = true ->
  por_email (JStr email) (usuarios (db w)) = [] ->
  pool_up 2 w ->
  let nova := mkUsuario (usuarios_seq (db w)) nome email
                (bcrypt_hash_alg senha 10 (entropy w)) true in
  exists w',
    registro req w = (Ret (usuario_registrado (usuarios_seq (db w))), w')
    /\ usuarios (db w') = usuarios (db w) ++ [nova]
    /\ usuarios_seq (db w') = usuarios_seq (db w) + 1
    /\ contatos (db w') = contatos (db w)
    /\ empresas (db w') = empresas (db w)
    /\ por_email (JStr email) (usuarios (db w')) = [nova].
Proof.
  intros Hn He Hs Hc Hnome Hlen Hre Hfree Hup nova.
  eexists. split; [apply (registro_executa req w nome email senha); assumption |].
  cbn [db usuarios usuarios_seq contatos empresas]. repeat split.
  unfold por_email in *. cbn [pg_text ToString] in *.
  rewrite filter_app, Hfree. cbn [filter app u_email nova].
  now rewrite jsstring_eqb_refl.
Qed.

(** X2. Once a registration was answered 201, a later registration under
    the same email that passes the local checks is answered 409 as long as
    the tables were not changed in between: the email is found in the
    store. *)
Theorem registro_repetido_409 (req req2 : request) (w w' : world) (r : response) :
  registro req w = (Ret r, w') ->
  status r = 201 ->
  field (req_body req2) "email" = field (req_body req) "email" ->
  truthy (field (req_body req2) "nome") = true ->
  truthy (field (req_body req2) "senha") = true ->
  strict_eq (field (req_body req2) "senha") (field (req_body req2) "confirmarSenha") = true ->
  match field (req_body req2) "senha" with JStr s => js_length s <? 6 | _ => false end = false ->
  forall w2,
    db w2 = db w' ->
    hd false (outages w2) = false ->
    registro req2 w2
    = (Ret (falha 409 "Email já cadastrado"),
       after_query (SelectIdPorEmail (field (req_body req2) "email")) w2).
Proof.
  intros Hrun Hok Hmail Hn Hs Hc Hlen w2 Hdb Hup.
  destruct (registro_efeito req w (Ret r) w' Hrun) as [[_ Hno] | Hins].
  { exfalso. now apply (Hno r). }
  destruct Hins as (n & e & s & Hpn & Hpe & _ & _ & _ & Hdb').
  assert (He : truthy (field (req_body req) "email") = true
               /\ regex_test emailRegex (ToString (field (req_body req) "email")) = true).
  { revert Hrun. unfold registro, try_catch.
    destruct (truthy (field (req_body req) "nome")); cbn [negb orb];
      [| intros H; injection H as <- _; discriminate].
    destruct (truthy (field (req_body req) "email")); cbn [negb orb];
      [| intros H; injection H as <- _; discriminate].
    destruct (truthy (field (req_body req) "senha")) eqn:Ht; cbn [negb orb];
      [| intros H; injection H as <- _; discriminate].
    destruct (strict_eq (field (req_body req) "senha") (field (req_body req) "confirmarSenha"));
      cbn [negb]; [| intros H; injection H as <- _; discriminate].
    rewrite length_check by assumption.
    destruct (match field (req_body req) "senha" with
              | JStr s0 => js_length s0 <? 6 | _ => false end);
      [intros H; injection H as <- _; discriminate |].
    destruct (regex_test emailRegex (ToString (field (req_body req) "email")));
      [auto | intros H; injection H as <- _; discriminate]. }
  destruct He as [He Hre].
  unfold registro, try_catch. rewrite Hmail, Hn, He, Hs. cbn [negb orb].
  rewrite Hc. cbn [negb]. rewrite length_check by assumption. rewrite Hlen, Hre. cbn [negb].
  unfold bind at 1. rewrite pool_query_up by assumption. cbn [exec].
  unfold result_of. cbn [rows].
  replace (js_length_gt0
             (map (usuario_cols ["id"%string])
                (por_email (field (req_body req) "email") (usuarios (db w2))))) with true;
    [reflexivity |].
  symmetry. apply js_length_gt0_map. rewrite Hdb, Hdb'. cbn [usuarios].
  unfold por_email. rewrite Hpe. rewrite filter_app. cbn [filter u_email].
  rewrite jsstring_eqb_refl. intros H. apply app_eq_nil in H as [_ H]. discriminate.
Qed.

(** X3. Registration keeps the accounts well-formed: whatever the request
    and however the run ends, when the emails of the accounts were pairwise
    distinct, their identifiers pairwise distinct and below the next value
    of the sequence, they still are afterwards. *)
Theorem registro_preserva_store_ok (req : request) (w : world) (out : outcome response)
    (w' : world) :
  registro req w = (out, w') ->
  store_ok (db w) ->
  store_ok (db w').
Proof.
  intros Hrun (Hemails & Hids & Hlt).
  destruct (registro_efeito req w out w' Hrun) as [[-> _] | Hins].
  { repeat split; assumption. }
  destruct Hins as (n & e & s & Hpn & Hpe & _ & Hfree & _ & ->).
  assert (Hnotin : ~ In e (map u_email (usuarios (db w)))).
  { revert Hfree. unfold por_email. rewrite Hpe. clear.
    induction (usuarios (db w)) as [| u us IH]; cbn [filter map In]; [tauto |].
    destruct (jsstring_eqb (u_email u) e) eqn:He; [discriminate |].
    intros H [Hu | Hin]; [| tauto]. apply jsstring_eqb_eq in Hu. congruence. }
  unfold store_ok. cbn [usuarios usuarios_seq]. rewrite !map_app. cbn [map u_email u_id].
  assert (Hsnoc : forall (A : Type) (l : list A) (x : A),
            NoDup l -> ~ In x l -> NoDup (l ++ [x])).
  { intros A l x Hl Hx. induction Hl as [| a l Ha Hl IH]; cbn [app].
    - constructor; [intros [] | constructor].
    - constructor.
      + rewrite in_app_iff. cbn [In]. intros [H | [H | []]]; [tauto |].
        subst. apply Hx. now left.
      + apply IH. intros H. apply Hx. now right. }
  repeat split.
  - now apply Hsnoc.
  - apply Hsnoc; [assumption |]. intros Hin. apply in_map_iff in Hin as (u & Hu & Hin).
    rewrite Forall_forall in Hlt. specialize (Hlt u Hin). lia.
  - apply Forall_app. split.
    + eapply Forall_impl; [| exact Hlt]. cbn beta. intros u Hu. lia.
    + constructor; [cbn [u_id]; lia | constructor].
Qed.

(** *** Login: every way it ends *)

(** The ways a run of [login] ends: a 400 before any statement; or, after
    the one statement that fetches the account, a 500, a 401 for no
    account, a 403 for an account that is not active, a 401 for a password
    that does not verify, or the 200 with the token signed for the account. *)
Lemma login_casos (req : request) (w : world) (out : outcome response) (w' : world) :
  let email := field (req_body req) "email" in
  let senha := field (req_body req) "senha" in
  login req w = (out, w') ->
  (out = Ret (falha 400 "Email e senha são obrigatórios") /\ w' = w
   /\ truthy email && truthy senha = false)
  \/ (truthy email && truthy senha = true
      /\ w' = after_query (SelectUsuarioPorEmail email) w
      /\ (out = Ret (falha 500 "Erro ao fazer login")
          \/ (out = Ret credenciais_invalidas
              /\ hd false (outages w) = false /\ por_email email (usuarios (db w)) = [])
          \/ (out = Ret conta_inativa
              /\ exists u us, por_email email (usuarios (db w)) = u :: us /\ u_ativo u = false)
          \/ (out = Ret credenciais_invalidas
              /\ exists u us s,
                   por_email email (usuarios (db w)) = u :: us /\ u_ativo u = true
                   /\ senha = JStr s /\ bcrypt_check s (u_senha u) = false)
          \/ (exists u us s k millis,
                por_email email (usuarios (db w)) = u :: us /\ u_ativo u = true
                /\ senha = JStr s /\ bcrypt_check s (u_senha u) = true
                /\ JWT_SECRET (env w) = Some k /\ k <> []
                /\ ms (env_or (JWT_EXPIRES_IN (env w)) (lit "8h")) = Some millis
                /\ out = Ret (login_realizado (jws_sign (claims_de u (clock w) millis) k) u)))).
Proof.
  intros email senha. unfold login, try_catch. fold email senha.
  destruct (truthy email) eqn:He; cbn [negb orb andb];
    [| intros H; injection H as <- <-; left; auto].
  destruct (truthy senha) eqn:Hs; cbn [negb orb andb];
    [| intros H; injection H as <- <-; left; auto].
  intros H. right. split; [reflexivity |]. revert H.
  unfold bind at 1. unfold pool_query, after_query.
  destruct (outages w) as [| [] rest] eqn:Hout; cbn [exec tl hd]; cbv iota beta;
    try (intros H; injection H as <- <-; split; [reflexivity | left; reflexivity]).
  all: unfold result_of; cbn [rows].
  all: destruct (por_email email (usuarios (db w))) as [| u us] eqn:Hrows; cbn [map];
    try (intros H; injection H as <- <-; split; [reflexivity | right; left; auto]).
  all: replace (field (usuario_cols ["id"; "nome"; "email"; "senha"; "ativo"]%string u) "ativo")
      with (JBool (u_ativo u)) by reflexivity.
  all: replace (field (usuario_cols ["id"; "nome"; "email"; "senha"; "ativo"]%string u) "senha")
      with (JStr (u_senha u)) by reflexivity.
  all: replace (field (usuario_cols ["id"; "nome"; "email"; "senha"; "ativo"]%string u) "id")
      with (JNum (u_id u)) by reflexivity.
  all: replace (field (usuario_cols ["id"; "nome"; "email"; "senha"; "ativo"]%string u) "nome")
      with (JStr (u_nome u)) by reflexivity.
  all: replace (field (usuario_cols ["id"; "nome"; "email"; "senha"; "ativo"]%string u) "email")
      with (JStr (u_email u)) by reflexivity.
  all: destruct (u_ativo u) eqn:Hat; cbn [truthy negb];
    try (intros H; injection H as <- <-; split; [reflexivity |];
         right; right; left; split; [reflexivity | eauto]).
  all: unfold bind at 1; destruct senha as [| | b | n | s] eqn:Hsenha; cbn [bcrypt_compare];
    try (intros H; injection H as <- <-; split; [reflexivity | left; reflexivity]).
  all: unfold ret at 1; destruct (bcrypt_check s (u_senha u)) eqn:Hchk; cbn [negb];
    try (intros H; injection H as <- <-; split; [reflexivity |];
         right; right; right; left; split; [reflexivity | eauto 10]).
  all: unfold bind at 1; unfold read at 1; cbn [env].
  all: unfold bind at 1; unfold read at 1; cbn [env].
  all: unfold bind at 1; unfold jwt_sign.
  all: destruct (JWT_SECRET (env w)) as [[| c k] |] eqn:Hk; cbn [jsval_of_option];
    try (intros H; injection H as <- <-; split; [reflexivity | left; reflexivity]).
  all: destruct (ms (env_or (JWT_EXPIRES_IN (env w)) (lit "8h"))) as [millis |] eqn:Hms;
    try (intros H; injection H as <- <-; split; [reflexivity | left; reflexivity]).
  all: unfold bind, read, ret; cbn [clock c_id c_nome c_email c_nbf].
  all: intros H; injection H as <- <-; split; [reflexivity |].
  all: right; right; right; right; exists u, us, s, (c :: k), millis.
  all: repeat split; try assumption; discriminate.
Qed.

(** To an account that is found, is active and whose password verifies,
    with a secret and a span that reads, login answers 200. *)
Lemma login_sucesso (req : request) (w : world) (u : usuario) (us : list usuario)
    (s k : jsstring) (millis : Z) :
  truthy (field (req_body req) "email") = true ->
  field (req_body req) "senha" = JStr s -> s <> [] ->
  hd false (outages w) = false ->
  por_email (field (req_body req) "email") (usuarios (db w)) = u :: us ->
  u_ativo u = true ->
  bcrypt_check s (u_senha u) = true ->
  JWT_SECRET (env w) = Some k -> k <> [] ->
  ms (env_or (JWT_EXPIRES_IN (env w)) (lit "8h")) = Some millis ->
  login req w
  = (Ret (login_realizado (jws_sign (claims_de u (clock w) millis) k) u),
     after_query (SelectUsuarioPorEmail (field (req_body req) "email")) w).
Proof.
  intros He Hs Hne Hup Hrows Hat Hchk Hk Hkne Hms.
  unfold login, try_catch. rewrite He, Hs.
  destruct s as [| c0 s]; [congruence |]. cbn [truthy negb orb].
  unfold bind at 1. rewrite pool_query_up by assumption. cbn [exec]. rewrite Hrows.
  cbn [result_of rows map].
  replace (field (usuario_cols ["id"; "nome"; "email"; "senha"; "ativo"]%string u) "ativo")
    with (JBool (u_ativo u)) by reflexivity.
  replace (field (usuario_cols ["id"; "nome"; "email"; "senha"; "ativo"]%string u) "senha")
    with (JStr (u_senha u)) by reflexivity.
  rewrite Hat. cbn [truthy negb]. unfold bind at 1. cbn [bcrypt_compare]. unfold ret at 1.
  rewrite Hchk. cbn [negb].
  unfold bind at 1. unfold read at 1. unfold after_query at 1. cbn [env]. rewrite Hk.
  unfold bind at 1. unfold read at 1. cbn [env].
  destruct k as [| c1 k]; [congruence |]. cbn [jsval_of_option].
  unfold bind at 1. unfold jwt_sign. rewrite Hms. unfold bind, read, ret. reflexivity.
Qed.

(** X4. Login answers 200 only to the password of an active account: a
    run that ends in 200 found an account under the email of the body, the
    first one found is active, and the password of the body verifies against
    its hash. The response names that account by identifier, name and email
    and carries the token signed for it; the hash is no part of it. *)
Theorem login_200_so_com_senha (req : request) (w : world) (r : response) (w' : world) :
  login req w = (Ret r, w') ->
  status r = 200 ->
  exists u us s k millis,
    por_email (field (req_body req) "email") (usuarios (db w)) = u :: us
    /\ u_ativo u = true
    /\ field (req_body req) "senha" = JStr s
    /\ bcrypt_check s (u_senha u) = true
    /\ JWT_SECRET (env w) = Some k
    /\ r = login_realizado (jws_sign (claims_de u (clock w) millis) k) u
    /\ has_key "senha" (body r) = false.
Proof.
  intros Hrun Hok.
  destruct (login_casos req w (Ret r) w' Hrun) as [(Hr & _) | (_ & _ & Hcase)].
  { injection Hr as ->. discriminate. }
  destruct Hcase as [Hr | [(Hr & _) | [(Hr & _) | [(Hr & _) | Hgood]]]];
    try (injection Hr as ->; discriminate).
  destruct Hgood as (u & us & s & k & millis & Hrows & Hat & Hs & Hchk & Hk & _ & _ & Hr).
  injection Hr as ->. exists u, us, s, k, millis. repeat split; assumption.
Qed.

(** X5. Login only reads: whatever the request and the state of the pool,
    it never throws, it answers with one of the statuses 200, 400, 401, 403
    and 500, it leaves the tables as they were, and it sends at most one
    statement, the one that fetches the account of the email. *)
Theorem login_so_le (req : request) (w : world) (out : outcome response) (w' : world) :
  login req w = (out, w') ->
  (exists r, out = Ret r /\ In (status r) [200; 400; 401; 403; 500])
  /\ db w' = db w
  /\ entropy w' = entropy w
  /\ (journal w' = journal w
      \/ journal w' = SelectUsuarioPorEmail (field (req_body req) "email") :: journal w).
Proof.
  intros Hrun.
  destruct (login_casos req w out w' Hrun) as [(-> & -> & _) | (_ & -> & Hcase)].
  { split; [eexists; split; [reflexivity | cbn; auto] | auto]. }
  split; [| cbn; auto].
  destruct Hcase as [-> | [(-> & _) | [(-> & _) | [(-> & _) | Hgood]]]];
    try (eexists; split; [reflexivity | cbn; tauto]).
  destruct Hgood as (u & us & s & k & millis & _ & _ & _ & _ & _ & _ & _ & ->).
  eexists; split; [reflexivity | cbn; tauto].
Qed.

(** *** Registration, then login *)

(** X6. An account that was just registered can log in: after the
    registration of X1, a login with the same email and password, the pool
    still answering and the environment holding a secret and a span that
    reads, is answered 200 with the identifier the registration returned,
    the name and the email, provided bcrypt verifies the password against
    the hash it made of it. *)
Theorem registro_depois_login (req reql : request) (w : world) (nome email senha k : jsstring)
    (millis : Z) :
  field (req_body req) "nome" = JStr nome ->
  field (req_body req) "email" = JStr email ->
  field (req_body req) "senha" = JStr senha ->
  field (req_body req) "confirmarSenha" = JStr senha ->
  nome <> [] ->
  6 <= js_length senha ->
  regex_test emailRegex email = true ->
  por_email (JStr email) (usuarios (db w)) = [] ->
  pool_up 3 w ->
  field (req_body reql) "email" = JStr email ->
  field (req_body reql) "senha" = JStr senha ->
  bcrypt_check senha (bcrypt_hash_alg senha 10 (entropy w)) = true ->
  JWT_SECRET (env w) = Some k -> k <> [] ->
  ms (env_or (JWT_EXPIRES_IN (env w)) (lit "8h")) = Some millis ->
  let nova := mkUsuario (usuarios_seq (db w)) nome email
                (bcrypt_hash_alg senha 10 (entropy w)) true in
  exists w1 w2,
    registro req w = (Ret (usuario_registrado (usuarios_seq (db w))), w1)
    /\ login reql w1
       = (Ret (login_realizado (jws_sign (claims_de nova (clock w) millis) k) nova), w2).
Proof.
  intros Hn He Hs Hc Hnome Hlen Hre Hfree Hup Hle Hls Hchk Hk Hkne Hms nova.
  assert (Hup2 : pool_up 2 w) by (intros i Hi; apply Hup; lia).
  assert (Hup3 : hd false (tl (tl (outages w))) = false).
  { specialize (Hup 2%nat). destruct (outages w) as [| o1 [| o2 [| o3 os]]]; try reflexivity.
    apply Hup. lia. }
  assert (Hemail : email <> []) by (intros ->; discriminate).
  assert (Hsenha : senha <> []) by (intros ->; cbn in Hlen; lia).
  pose proof (registro_executa req w nome email senha Hn He Hs Hc Hnome Hlen Hre Hfree Hup2)
    as Hreg.
  match type of Hreg with _ = (_, ?w0) => set (w1 := w0) in * end.
  exists w1, (after_query (SelectUsuarioPorEmail (JStr email)) w1).
  split; [exact Hreg |].
  rewrite <- Hle.
  apply (login_sucesso reql w1 nova [] senha k millis); try assumption.
  - rewrite Hle. now apply truthy_str.
  - rewrite Hle. subst w1. cbn [db usuarios]. unfold por_email in *.
    cbn [pg_text ToString] in *. rewrite filter_app, Hfree. cbn [filter app u_email nova].
    rewrite jsstring_eqb_refl. reflexivity.
  - reflexivity.
Qed.

(** *** Protected routes *)

(** A protected route ends either with the 401 of the middleware, the
    world as it was and the handler not run, or as the handler ends, run
    with the claims of the token on the world as it was. *)
Lemma protegida_casos (handler : request -> claims -> M response) (req : request) (w : world)
    (out : outcome response) (w' : world) :
  protegida handler req w = (out, w') ->
  (exists r, autenticar req w = (Ret (Respondeu r), w)
             /\ out = Ret r /\ w' = w /\ status r = 401)
  \/ (exists sessao, autenticar req w = (Ret (Seguiu sessao), w)
                     /\ handler req sessao w = (out, w')).
Proof.
  unfold protegida, bind.
  destruct w as [d o j e t n].
  destruct (autenticar_le_relogio req e) as [decide Hdecide].
  rewrite Hdecide. destruct (decide t) as [r | sessao] eqn:Hd.
  - unfold ret. intros H. injection H as <- <-. left. exists r. repeat split.
    apply (autenticar_responde_401 req (mkWorld d o j e t n) r (mkWorld d o j e t n)).
    rewrite Hdecide, Hd. reflexivity.
  - intros H. right. exists sessao. auto.
Qed.

(** *** Changing the password: what it writes *)

(** A run of the handler of the password change either leaves the tables
    as they were, or writes one hash over the hash of the rows of one
    identifier. *)
Lemma alterar_senha_efeito (req : request) (sessao : claims) (w : world)
    (out : outcome response) (w' : world) :
  alterar_senha req sessao w = (out, w') ->
  db w' = db w
  \/ exists h z, db w' = with_usuarios (db w) (fst (set_senha h z (usuarios (db w)))).
Proof.
  unfold alterar_senha, try_catch.
  set (senhaAtual := field (req_body req) "senhaAtual").
  set (novaSenha := field (req_body req) "novaSenha").
  set (conf := field (req_body req) "confirmarNovaSenha").
  assert (Hsame : forall (o : outcome response) w0,
            db w0 = db w -> (o, w0) = (out, w') ->
            db w' = db w
            \/ exists h z, db w' = with_usuarios (db w) (fst (set_senha h z (usuarios (db w))))).
  { intros o w0 Hd H. injection H as _ <-. now left. }
  destruct (truthy senhaAtual) eqn:Ha; [| intros H; refine (Hsame _ _ _ H); reflexivity].
  destruct (truthy novaSenha) eqn:Hn; [| intros H; refine (Hsame _ _ _ H); reflexivity].
  destruct (truthy conf) eqn:Hcf; [| intros H; refine (Hsame _ _ _ H); reflexivity].
  cbn [negb orb andb].
  destruct (strict_eq novaSenha conf); [| intros H; refine (Hsame _ _ _ H); reflexivity].
  cbn [negb]. rewrite length_check by assumption.
  destruct (match novaSenha with JStr s => js_length s <? 6 | _ => false end);
    [intros H; refine (Hsame _ _ _ H); reflexivity |].
  unfold bind at 1.
  destruct (pool_query_select_senha (c_id sessao) w) as [(z & Hz & ->) | ->];
    [| intros H; refine (Hsame _ _ _ H); reflexivity].
  unfold result_of. cbn [rows].
  destruct (por_id z (usuarios (db w))) as [| u us] eqn:Hrows; cbn [map];
    [intros H; refine (Hsame _ _ _ H); reflexivity |].
  replace (field (usuario_cols ["senha"%string] u) "senha") with (JStr (u_senha u))
    by reflexivity.
  unfold bind at 1.
  destruct senhaAtual as [| | b | n | a]; cbn [bcrypt_compare];
    try (intros H; refine (Hsame _ _ _ H); reflexivity).
  unfold ret at 1. destruct (bcrypt_check a (u_senha u)); cbn [negb];
    [| intros H; refine (Hsame _ _ _ H); reflexivity].
  unfold bind at 1.
  destruct novaSenha as [| | b | n | s]; cbn [bcrypt_hash];
    try (intros H; refine (Hsame _ _ _ H); reflexivity).
  unfold bind at 1. unfold pool_query, after_query.
  cbn [outages db journal env clock entropy exec pg_text ToString]. rewrite Hz.
  destruct z as [id |].
  - destruct (set_senha (bcrypt_hash_alg s 10 (entropy w)) id (usuarios (db w)))
      as [us' cnt] eqn:Hset.
    destruct (tl (outages w)) as [| [] rest]; unfold ret;
      try (intros H; refine (Hsame _ _ _ H); reflexivity).
    all: intros H; injection H as _ <-; right; do 2 eexists; cbn [db]; rewrite Hset;
      reflexivity.
  - destruct (tl (outages w)) as [| [] rest]; unfold ret;
      intros H; refine (Hsame _ _ _ H); reflexivity.
Qed.

(** X7. The password change writes hashes and nothing else: however a
    run of the route ends, the accounts afterwards are the accounts before,
    in the same order, with the same identifier, name, email and active
    flag each; the sequence and the other tables are as they were; and
    accounts that were well-formed still are. *)
Theorem alterar_senha_so_troca_hash (req : request) (w : world) (out : outcome response)
    (w' : world) :
  put_alterar_senha req w = (out, w') ->
  map sem_senha (usuarios (db w')) = map sem_senha (usuarios (db w))
  /\ usuarios_seq (db w') = usuarios_seq (db w)
  /\ contatos (db w') = contatos (db w)
  /\ empresas (db w') = empresas (db w)
  /\ (store_ok (db w) -> store_ok (db w')).
Proof.
  intros Hrun.
  assert (Hdb : db w' = db w
                \/ exists h z,
                     db w' = with_usuarios (db w) (fst (set_senha h z (usuarios (db w))))).
  { apply protegida_casos in Hrun as [(r & _ & _ & -> & _) | (sessao & _ & Hrun)].
    - now left.
    - eapply alterar_senha_efeito; eauto. }
  destruct Hdb as [-> | (h & z & ->)]; [repeat (split; [reflexivity |]); auto |].
  cbn [with_usuarios usuarios usuarios_seq contatos empresas].
  assert (Hmap : map sem_senha (fst (set_senha h z (usuarios (db w))))
                 = map sem_senha (usuarios (db w))).
  { rewrite set_senha_map, map_map. apply map_ext. intros u.
    destruct (u_id u =? z); reflexivity. }
  repeat (split; [reflexivity || assumption |]).
  intros (Hemails & Hids & Hlt). unfold store_ok. cbn [with_usuarios usuarios usuarios_seq].
  assert (He : map u_email (fst (set_senha h z (usuarios (db w))))
               = map u_email (usuarios (db w))).
  { rewrite set_senha_map, map_map. apply map_ext. intros u.
    destruct (u_id u =? z); reflexivity. }
  assert (Hi : map u_id (fst (set_senha h z (usuarios (db w))))
               = map u_id (usuarios (db w))).
  { rewrite set_senha_map, map_map. apply map_ext. intros u.
    destruct (u_id u =? z); reflexivity. }
  rewrite He, Hi. repeat split; try assumption.
  rewrite set_senha_map. apply Forall_map. eapply Forall_impl; [| exact Hlt].
  cbn beta. intros u Hu. destruct (u_id u =? z); exact Hu.
Qed.

(** *** Changing the password, then login *)

Lemma filter_unico {A K : Type} (f : A -> K) (eqb : K -> K -> bool) (l : list A) (u : A) :
  (forall a b, eqb a b = true <-> a = b) ->
  NoDup (map f l) -> In u l ->
  filter (fun v => eqb (f v) (f u)) l = [u].
Proof.
  intros Heqb. induction l as [| v l IH]; cbn [map filter In]; [tauto |].
  intros Hnd Hin. apply NoDup_cons_iff in Hnd as [Hv Hnd].
  assert (Hnone : forall x, ~ In (f x) (map f l) -> filter (fun v0 => eqb (f v0) (f x)) l = []).
  { intros x Hx. clear - Heqb Hx. induction l as [| y l IH]; cbn [filter]; [reflexivity |].
    destruct (eqb (f y) (f x)) eqn:E.
    - apply Heqb in E. exfalso. apply Hx. left. assumption.
    - apply IH. intros H. apply Hx. now right. }
  destruct Hin as [-> | Hin].
  - replace (eqb (f u) (f u)) with true by (symmetry; now apply Heqb).
    now rewrite Hnone.
  - destruct (eqb (f v) (f u)) eqn:E.
    + apply Heqb in E. exfalso. apply Hv. rewrite E. now apply in_map.
    + now apply IH.
Qed.

Lemma por_email_set_senha (e : jsval) (h : jsstring) (z : Z) (us : list usuario) :
  por_email e (fst (set_senha h z us))
  = map (fun v => if u_id v =? z then com_senha h v else v) (por_email e us).
Proof.
  rewrite set_senha_map. unfold por_email. destruct (pg_text e) as [t |]; [| reflexivity].
  induction us as [| v us IH]; [reflexivity |]. cbn [map filter].
  replace (u_email (if u_id v =? z then com_senha h v else v)) with (u_email v)
    by (destruct (u_id v =? z); reflexivity).
  destruct (jsstring_eqb (u_email v) t); cbn [map]; now rewrite IH.
Qed.

(** X8. After a password change went through, the old password no
    longer logs in and the new one does: for an account of well-formed
    tables that is active, a change whose current password verifies is
    answered with the success, a login with the old password is then refused
    with the generic 401 and a login with the new one is answered 200,
    provided bcrypt verifies the new password against the hash it made of it
    and does not verify the old one against it. *)
Theorem troca_de_senha_e_login (req reqa reqn : request) (w : world) (sessao : claims)
    (u : usuario) (a n k : jsstring) (millis : Z) :
  autenticar req w = (Ret (Seguiu sessao), w) ->
  store_ok (db w) ->
  In u (usuarios (db w)) ->
  u_ativo u = true ->
  pg_int (c_id sessao) = Some (Some (u_id u)) ->
  field (req_body req) "senhaAtual" = JStr a ->
  field (req_body req) "novaSenha" = JStr n ->
  field (req_body req) "confirmarNovaSenha" = JStr n ->
  a <> [] ->
  6 <= js_length n ->
  bcrypt_check a (u_senha u) = true ->
  pool_up 3 w ->
  bcrypt_check n (bcrypt_hash_alg n 10 (entropy w)) = true ->
  bcrypt_check a (bcrypt_hash_alg n 10 (entropy w)) = false ->
  JWT_SECRET (env w) = Some k -> k <> [] ->
  ms (env_or (JWT_EXPIRES_IN (env w)) (lit "8h")) = Some millis ->
  field (req_body reqa) "email" = JStr (u_email u) ->
  field (req_body reqa) "senha" = JStr a ->
  field (req_body reqn) "email" = JStr (u_email u) ->
  field (req_body reqn) "senha" = JStr n ->
  u_email u <> [] ->
  let nova := com_senha (bcrypt_hash_alg n 10 (entropy w)) u in
  exists w1,
    put_alterar_senha req w = (Ret senha_alterada, w1)
    /\ fst (login reqa w1) = Ret credenciais_invalidas
    /\ fst (login reqn w1)
       = Ret (login_realizado (jws_sign (claims_de nova (clock w) millis) k) nova).
Proof.
  intros Hauth (Hemails & Hids & _) Hin Hat Hid Ha Hn Hc Hane Hlen Hchk Hup Hnew Hold
    Hk Hkne Hms Hae Has Hne Hns Hene nova.
  assert (Hnne : n <> []) by (intros ->; cbn in Hlen; lia).
  assert (Hup1 : hd false (outages w) = false) by (eapply pool_up_hd; eauto).
  assert (Hup2 : hd false (tl (outages w)) = false).
  { specialize (Hup 1%nat). destruct (outages w) as [| o1 [| o2 os]]; try reflexivity.
    apply Hup. lia. }
  assert (Hup3 : hd false (tl (tl (outages w))) = false).
  { specialize (Hup 2%nat). destruct (outages w) as [| o1 [| o2 [| o3 os]]]; try reflexivity.
    apply Hup. lia. }
  assert (Hpid : por_id (Some (u_id u)) (usuarios (db w)) = [u]).
  { unfold por_id. apply (filter_unico u_id Z.eqb); auto using Z.eqb_eq. }
  assert (Hpem : por_email (JStr (u_email u)) (usuarios (db w)) = [u]).
  { unfold por_email. cbn [pg_text ToString].
    apply (filter_unico u_email jsstring_eqb); auto using jsstring_eqb_eq. }
  destruct (alterar_senha_apos_consulta req sessao w (Some (u_id u)) u [] a) as [_ Hgood];
    try assumption.
  { rewrite Ha, Hn, Hc. destruct a, n; try congruence. reflexivity. }
  { rewrite Hn, Hc. cbn [strict_eq]. now rewrite jsstring_eqb_refl. }
  { rewrite Hn. apply Z.ltb_ge. assumption. }
  destruct (Hgood n Hchk Hn Hup2) as (id & Hidz & Hrun). injection Hidz as <-.
  rewrite <- (put_alterar_senha_autenticado req w sessao Hauth) in Hrun.
  match type of Hrun with _ = (_, ?w0) => set (w1 := w0) in * end.
  assert (Hrows : por_email (JStr (u_email u)) (usuarios (db w1)) = [nova]).
  { subst w1. cbn [db with_usuarios usuarios]. rewrite por_email_set_senha, Hpem.
    cbn [map]. now rewrite Z.eqb_refl. }
  exists w1. split; [exact Hrun |]. split.
  - destruct (login_apos_consulta reqa w1) as (_ & _ & Hbad).
    + rewrite Hae. now apply truthy_str.
    + rewrite Has. now apply truthy_str.
    + exact Hup3.
    + rewrite Hae in Hbad. now rewrite (Hbad nova [] a Hrows Hat Has Hold).
  - rewrite (login_sucesso reqn w1 nova [] n k millis); try assumption.
    + reflexivity.
    + rewrite Hne. now apply truthy_str.
    + now rewrite Hne.
Qed.

(** *** The middleware: whom it lets through, what it answers *)

(** X9. The middleware lets a request through only with a token that
    verifies: when it calls the handler, the request carried a non-empty
    token (the cookie, or failing it the header), the environment holds a
    non-empty secret, the codec opens the token under that secret to the
    very claims handed to the handler, the token has not expired and its
    not-before time, if any, has come; the world is as it was. *)
Theorem autenticar_so_token_valido (req : request) (w : world) (p : claims) (w' : world) :
  autenticar req w = (Ret (Seguiu p), w') ->
  w' = w
  /\ exists tok k,
       extrair_token req = JStr tok /\ tok <> []
       /\ JWT_SECRET (env w) = Some k /\ k <> []
       /\ jws_open tok k = Some p
       /\ (c_exp p = JUndefined \/ exists e, c_exp p = JNum e /\ clock w < e)
       /\ (c_nbf p = JUndefined \/ exists n, c_nbf p = JNum n /\ n <= clock w).
Proof.
  unfold autenticar, try_catch.
  destruct (truthy (extrair_token req)) eqn:Htr; cbn [negb]; [| discriminate].
  unfold bind at 1. unfold read at 1. unfold bind at 1. unfold jwt_verify.
  destruct (extrair_token req) as [| | b | z | tok] eqn:Htok;
    try (unfold throw, autenticar_catch, ret; discriminate).
  destruct (JWT_SECRET (env w)) as [[| c k] |] eqn:Hk; cbn [jsval_of_option];
    try (unfold throw, autenticar_catch, ret; discriminate).
  destruct (jws_open tok (c :: k)) as [q |] eqn:Hopen;
    [| unfold throw, autenticar_catch, ret; discriminate].
  unfold bind at 1. unfold read at 1.
  assert (Hne : tok <> []) by (intros ->; discriminate).
  destruct (c_nbf q) as [| | b | nb | sb] eqn:Hnbf;
    try (unfold throw, autenticar_catch, ret; discriminate).
  - destruct (c_exp q) as [| | b | e | se] eqn:Hexp;
      try (unfold throw, autenticar_catch, ret; discriminate).
    + unfold ret. intros H. injection H as <- <-. split; [reflexivity |].
      exists tok, (c :: k). repeat split; auto; discriminate.
    + destruct (clock w >=? e) eqn:Hge;
        [unfold throw, autenticar_catch, ret; discriminate |].
      unfold ret. intros H. injection H as <- <-. split; [reflexivity |].
      exists tok, (c :: k). repeat split; auto; try discriminate.
      right. exists e. split; [assumption |]. rewrite Z.geb_leb in Hge.
      apply Z.leb_gt in Hge. lia.
  - destruct (nb >? clock w) eqn:Hnb;
      [unfold throw, autenticar_catch, ret; discriminate |].
    assert (Hnb' : nb <= clock w).
    { rewrite Z.gtb_ltb in Hnb. apply Z.ltb_ge in Hnb. assumption. }
    destruct (c_exp q) as [| | b | e | se] eqn:Hexp;
      try (unfold throw, autenticar_catch, ret; discriminate).
    + unfold ret. intros H. injection H as <- <-. split; [reflexivity |].
      exists tok, (c :: k). repeat split; eauto; discriminate.
    + destruct (clock w >=? e) eqn:Hge;
        [unfold throw, autenticar_catch, ret; discriminate |].
      unfold ret. intros H. injection H as <- <-. split; [reflexivity |].
      exists tok, (c :: k). repeat split; eauto; try discriminate.
      right. exists e. split; [assumption |]. rewrite Z.geb_leb in Hge.
      apply Z.leb_gt in Hge. lia.
Qed.

(** X10. What the middleware answers when it refuses, always with
    status 401: 'Token não fornecido' when neither the cookie nor the header
    gives a token; 'Token inválido' when the environment holds no secret (or
    an empty one) or the codec does not open the token under the secret;
    'Token expirado' when the token opens and its expiry is not after the
    clock; 'Erro ao autenticar token' when its not-before time has not
    come. In each case the world is left as it was. *)
Theorem autenticar_recusas (req : request) (w : world) :
  (truthy (extrair_token req) = false ->
   autenticar req w = (Ret (Respondeu (falha 401 "Token não fornecido")), w))
  /\ (forall tok,
        extrair_token req = JStr tok -> tok <> [] ->
        match JWT_SECRET (env w) with
        | Some (c :: k) => jws_open tok (c :: k) = None
        | _ => True
        end ->
        autenticar req w = (Ret (Respondeu (falha 401 "Token inválido")), w))
  /\ (forall tok k p e,
        extrair_token req = JStr tok -> tok <> [] ->
        JWT_SECRET (env w) = Some k -> k <> [] ->
        jws_open tok k = Some p ->
        (c_nbf p = JUndefined \/ exists n, c_nbf p = JNum n /\ n <= clock w) ->
        c_exp p = JNum e -> e <= clock w ->
        autenticar req w = (Ret (Respondeu (falha 401 "Token expirado")), w))
  /\ (forall tok k p n,
        extrair_token req = JStr tok -> tok <> [] ->
        JWT_SECRET (env w) = Some k -> k <> [] ->
        jws_open tok k = Some p ->
        c_nbf p = JNum n -> clock w < n ->
        autenticar req w = (Ret (Respondeu (falha 401 "Erro ao autenticar token")), w)).
Proof.
  split; [| split; [| split]].
  - intros Hno. unfold autenticar, try_catch. rewrite Hno. reflexivity.
  - intros tok Htok Hne Hsec. unfold autenticar, try_catch. rewrite Htok.
    destruct tok as [| c0 tok]; [congruence |]. cbn [truthy negb].
    unfold bind at 1. unfold read at 1. unfold bind at 1. unfold jwt_verify.
    destruct (JWT_SECRET (env w)) as [[| c k] |]; cbn [jsval_of_option]; try reflexivity.
    rewrite Hsec. reflexivity.
  - intros tok k p e Htok Hne Hk Hkne Hopen Hnbf Hexp Hle.
    unfold autenticar, try_catch. rewrite Htok.
    destruct tok as [| c0 tok]; [congruence |]. cbn [truthy negb].
    unfold bind at 1. unfold read at 1. rewrite Hk. cbn [jsval_of_option].
    destruct k as [| c1 k]; [congruence |].
    unfold bind at 1. unfold jwt_verify. rewrite Hopen.
    unfold bind at 1. unfold read at 1. rewrite Hexp.
    replace (clock w >=? e) with true by (symmetry; rewrite Z.geb_leb; now apply Z.leb_le).
    destruct Hnbf as [-> | (n & -> & Hn)]; [reflexivity |].
    replace (n >? clock w) with false
      by (symmetry; rewrite Z.gtb_ltb; now apply Z.ltb_ge).
    reflexivity.
  - intros tok k p n Htok Hne Hk Hkne Hopen Hnbf Hlt.
    unfold autenticar, try_catch. rewrite Htok.
    destruct tok as [| c0 tok]; [congruence |]. cbn [truthy negb].
    unfold bind at 1. unfold read at 1. rewrite Hk. cbn [jsval_of_option].
    destruct k as [| c1 k]; [congruence |].
    unfold bind at 1. unfold jwt_verify. rewrite Hopen.
    unfold bind at 1. unfold read at 1. rewrite Hnbf.
    replace (n >? clock w) with true by (symmetry; rewrite Z.gtb_ltb; now apply Z.ltb_lt).
    reflexivity.
Qed.

(** X11. A protected route without a token: whatever the handler, when
    neither the cookie nor the header gives a token the route answers 401
    'Token não fornecido', the handler is not run and the world is as it was,
    no statement sent. *)
Theorem protegida_sem_token (handler : request -> claims -> M response) (req : request)
    (w : world) :
  truthy (extrair_token req) = false ->
  protegida handler req w = (Ret (falha 401 "Token não fornecido"), w)
  /\ forall handler', protegida handler' req w = protegida handler req w.
Proof.
  intros Hno.
  assert (Hrun : forall h, protegida h req w = (Ret (falha 401 "Token não fornecido"), w)).
  { intros h. unfold protegida, bind, autenticar, try_catch. rewrite Hno. reflexivity. }
  split; [apply Hrun |]. intros h. now rewrite !Hrun.
Qed.

(** *** The [Authorization] header *)

Lemma split_on_app (sep : N) (a rest : jsstring) :
  ~ In sep a -> split_on sep (a ++ sep :: rest) = a :: split_on sep rest.
Proof.
  induction a as [| c a IH]; cbn [app split_on In]; intros Hnot.
  - now rewrite N.eqb_refl.
  - destruct (c =? sep)%N eqn:E; [apply N.eqb_eq in E; subst; tauto |].
    rewrite IH by tauto. reflexivity.
Qed.

Lemma split_on_sem (sep : N) (a : jsstring) : ~ In sep a -> split_on sep a = [a].
Proof.
  induction a as [| c a IH]; cbn [split_on In]; intros Hnot; [reflexivity |].
  destruct (c =? sep)%N eqn:E; [apply N.eqb_eq in E; subst; tauto |].
  rewrite IH by tauto. reflexivity.
Qed.

Lemma startsWith_app (p s : jsstring) : startsWith (p ++ s) p = true.
Proof.
  induction p as [| c p IH]; cbn [app startsWith]; [destruct s; reflexivity |].
  now rewrite N.eqb_refl.
Qed.

(** The second piece of a header made of a scheme, a space and a token *)
Lemma bearer_value_esquema (esquema tok : jsstring) :
  ~ In chr_sp esquema -> ~ In chr_sp tok ->
  bearer_value (esquema ++ chr_sp :: tok) = JStr tok
  /\ forall resto, bearer_value (esquema ++ chr_sp :: tok ++ chr_sp :: resto) = JStr tok.
Proof.
  intros He Ht. unfold bearer_value. split.
  - rewrite split_on_app, split_on_sem by assumption. reflexivity.
  - intros resto. rewrite split_on_app by assumption.
    rewrite split_on_app by assumption. reflexivity.
Qed.

(** X12. The header of the middleware: with no token in the cookie, a
    header made of 'Bearer', one space and a token without spaces gives that
    token, whatever follows after a further space; a header that does not
    begin with exactly 'Bearer ' (the test is case-sensitive) gives no token.
    When two spaces follow 'Bearer' the token is empty, and so not provided. *)
Theorem extrair_token_do_cabecalho (req : request) (h : jsstring) :
  truthy (cookie_accessToken req) = false ->
  req_authorization req = Some h ->
  (forall tok, ~ In chr_sp tok ->
     (h = lit "Bearer " ++ tok \/ exists resto, h = lit "Bearer " ++ tok ++ chr_sp :: resto) ->
     extrair_token req = JStr tok)
  /\ (startsWith h (lit "Bearer ") = false -> extrair_token req = JUndefined)
  /\ (forall resto, h = lit "Bearer " ++ chr_sp :: resto -> truthy (extrair_token req) = false).
Proof.
  intros Hno Hh.
  assert (Hext : extrair_token req
                 = if startsWith h (lit "Bearer ") then bearer_value h else JUndefined).
  { unfold extrair_token. rewrite Hno, Hh. cbn [truthy negb]. destruct h; reflexivity. }
  assert (Hb : ~ In chr_sp (lit "Bearer")).
  { vm_compute. intuition discriminate. }
  change (lit "Bearer ") with (lit "Bearer" ++ [chr_sp]) in *.
  split; [| split].
  - intros tok Ht Hcase. rewrite Hext.
    destruct (bearer_value_esquema (lit "Bearer") tok Hb Ht) as [H1 H2].
    destruct Hcase as [-> | (resto & ->)]; rewrite <- !app_assoc; cbn [app].
    + replace (lit "Bearer" ++ chr_sp :: tok) with ((lit "Bearer" ++ [chr_sp]) ++ tok)
        by (rewrite <- app_assoc; reflexivity).
      rewrite startsWith_app.
      rewrite <- app_assoc. cbn [app]. exact H1.
    + replace (lit "Bearer" ++ chr_sp :: tok ++ chr_sp :: resto)
        with ((lit "Bearer" ++ [chr_sp]) ++ tok ++ chr_sp :: resto)
        by (rewrite <- app_assoc; reflexivity).
      rewrite startsWith_app.
      rewrite <- app_assoc. cbn [app]. apply H2.
  - intros Hs. rewrite Hext, Hs. reflexivity.
  - intros resto ->. rewrite Hext, startsWith_app.
    rewrite <- app_assoc. cbn [app]. unfold bearer_value.
    rewrite split_on_app by assumption. cbn [split_on]. rewrite N.eqb_refl. reflexivity.
Qed.

(** *** The standalone check of a token *)

(** The standalone check in terms of [jwt.verify] on the second piece of
    the header. *)
Lemma verificar_token_executa (req : request) (w : world) :
  let token := match req_authorization req with
               | Some h => bearer_value h
               | None => JUndefined
               end in
  verificar_token req w
  = if truthy token
    then match jwt_verify token (jsval_of_option (JWT_SECRET (env w))) w with
         | (Ret p, w') => (Ret (token_valido p), w')
         | (Throw _, w') => (Ret (falha 401 "Token inválido ou expirado"), w')
         end
    else (Ret (falha 401 "Token não fornecido"), w).
Proof.
  intros token. unfold verificar_token, try_catch. fold token.
  destruct (truthy token); cbn [negb]; [| reflexivity].
  unfold bind at 1. unfold read at 1. unfold bind.
  destruct (jwt_verify token (jsval_of_option (JWT_SECRET (env w))) w) as [[p | e] w'];
    reflexivity.
Qed.

(** The middleware in terms of [jwt.verify] on the token it settled on. *)
Lemma autenticar_executa (req : request) (w : world) :
  autenticar req w
  = if truthy (extrair_token req)
    then match jwt_verify (extrair_token req) (jsval_of_option (JWT_SECRET (env w))) w with
         | (Ret p, w') => (Ret (Seguiu p), w')
         | (Throw e, w') => autenticar_catch e w'
         end
    else (Ret (Respondeu (falha 401 "Token não fornecido")), w).
Proof.
  unfold autenticar, try_catch.
  destruct (truthy (extrair_token req)); cbn [negb]; [| reflexivity].
  unfold bind at 1. unfold read at 1. unfold bind.
  destruct (jwt_verify (extrair_token req) (jsval_of_option (JWT_SECRET (env w))) w)
    as [[p | e] w']; reflexivity.
Qed.

Lemma jwt_verify_mundo (token secret : jsval) (w : world) :
  snd (jwt_verify token secret w) = w.
Proof.
  destruct w as [d o j e t n].
  destruct (jwt_verify_le_relogio token secret (mkWorld d o j e t n)) as [out Hout].
  now rewrite Hout.
Qed.

(** X13. The standalone check reads the header only, and of the header
    only its second piece: the body, the cookies and the query do not
    count; any scheme word does, not only 'Bearer'; and without a header the
    answer is 401 'Token não fornecido'. The world is always left as it was. *)
Theorem verificar_token_ignora_o_resto (req : request) (w : world) :
  (forall b ck q,
     verificar_token (mkRequest b ck (req_authorization req) q) w = verificar_token req w)
  /\ (forall esquema tok,
        ~ In chr_sp esquema -> ~ In chr_sp tok ->
        req_authorization req = Some (esquema ++ chr_sp :: tok) ->
        verificar_token req w
        = verificar_token (com_authorization req (Some (lit "Bearer " ++ tok))) w)
  /\ (req_authorization req = None ->
      verificar_token req w = (Ret (falha 401 "Token não fornecido"), w))
  /\ snd (verificar_token req w) = w.
Proof.
  split; [| split; [| split]].
  - intros b ck q. rewrite !verificar_token_executa. reflexivity.
  - intros esquema tok He Ht Hh. rewrite !verificar_token_executa.
    cbn [com_authorization req_authorization]. rewrite Hh.
    assert (Hb : ~ In chr_sp (lit "Bearer")).
    { vm_compute. intuition discriminate. }
    change (lit "Bearer " ++ tok) with (lit "Bearer" ++ chr_sp :: tok).
    rewrite (proj1 (bearer_value_esquema esquema tok He Ht)).
    rewrite (proj1 (bearer_value_esquema (lit "Bearer") tok Hb Ht)). reflexivity.
  - intros Hh. rewrite verificar_token_executa, Hh. reflexivity.
  - rewrite verificar_token_executa.
    destruct (truthy _); [| reflexivity].
    match goal with |- context [jwt_verify ?t ?s w] =>
      pose proof (jwt_verify_mundo t s w) as Hw; destruct (jwt_verify t s w) as [[p | e] w']
    end; cbn [snd] in *; assumption.
Qed.

(** X14. On a request that carries its token in a 'Bearer' header and
    none in the cookie, the standalone check accepts what the middleware
    accepts: when the middleware lets the request through with some claims,
    the check answers 200 and echoes the identifier, name and email of those
    claims; when the middleware refuses, the check answers 401, with one
    message for every failure of the verification (it does not tell an
    expired token from an invalid one). *)
Theorem verificar_token_como_autenticar (req : request) (w : world) (tok : jsstring) :
  truthy (cookie_accessToken req) = false ->
  req_authorization req = Some (lit "Bearer " ++ tok) ->
  ~ In chr_sp tok ->
  (forall p, autenticar req w = (Ret (Seguiu p), w) ->
             verificar_token req w = (Ret (token_valido p), w))
  /\ (forall r, autenticar req w = (Ret (Respondeu r), w) ->
                verificar_token req w
                = (Ret (if truthy (JStr tok)
                        then falha 401 "Token inválido ou expirado"
                        else falha 401 "Token não fornecido"), w)).
Proof.
  intros Hno Hh Ht.
  assert (Hext : extrair_token req = JStr tok).
  { apply (proj1 (extrair_token_do_cabecalho req _ Hno Hh)); auto. }
  assert (Hb : ~ In chr_sp (lit "Bearer")).
  { vm_compute. intuition discriminate. }
  assert (Hval : bearer_value (lit "Bearer " ++ tok) = JStr tok).
  { change (lit "Bearer " ++ tok) with (lit "Bearer" ++ chr_sp :: tok).
    apply (bearer_value_esquema (lit "Bearer") tok Hb Ht). }
  rewrite autenticar_executa, verificar_token_executa, Hext, Hh, Hval.
  destruct (truthy (JStr tok)).
  - pose proof (jwt_verify_mundo (JStr tok) (jsval_of_option (JWT_SECRET (env w))) w) as Hw.
    destruct (jwt_verify (JStr tok) (jsval_of_option (JWT_SECRET (env w))) w) as [[q | e] w'].
    + cbn [snd] in Hw. subst w'. split.
      * intros p H. injection H as <-. reflexivity.
      * intros r H. discriminate.
    + cbn [snd] in Hw. subst w'. split.
      * intros p. destruct e; unfold autenticar_catch, ret; discriminate.
      * intros r _. reflexivity.
  - split; [discriminate | reflexivity].
Qed.

(** *** The profile and the listing of the accounts *)

(** X15. The profile is read from the store, not from the token: for a
    request the middleware lets through, the pool answering, the route
    answers 404 when no account has the identifier of the claims (the
    account is gone, or the token names none), and otherwise 200 with the
    identifier, name, email and active flag the first such account has now,
    also when it is not active, and without its hash. One statement is sent
    and the tables are left as they were. *)
Theorem perfil_le_a_conta (req : request) (w : world) (sessao : claims) (z : option Z) :
  autenticar req w = (Ret (Seguiu sessao), w) ->
  pg_int (c_id sessao) = Some z ->
  hd false (outages w) = false ->
  (por_id z (usuarios (db w)) = [] ->
   get_perfil req w
   = (Ret (falha 404 "Usuário não encontrado"), after_query (SelectPerfil (c_id sessao)) w))
  /\ (forall u us,
        por_id z (usuarios (db w)) = u :: us ->
        get_perfil req w = (Ret (perfil_de u), after_query (SelectPerfil (c_id sessao)) w)
        /\ lookup "dados" (body (perfil_de u)) = Some (json_of_object (linha_publica u))
        /\ field (linha_publica u) "senha" = JUndefined).
Proof.
  intros Hauth Hz Hup.
  assert (Hrun : get_perfil req w
                 = match map (usuario_cols ["id"; "nome"; "email"; "ativo"]%string)
                           (por_id z (usuarios (db w))) with
                   | [] => (Ret (falha 404 "Usuário não encontrado"),
                            after_query (SelectPerfil (c_id sessao)) w)
                   | linha :: _ =>
                       (Ret (res_json [("sucesso"%string, JVal (JBool true));
                                       ("dados"%string, json_of_object linha)]),
                        after_query (SelectPerfil (c_id sessao)) w)
                   end).
  { unfold get_perfil, protegida, bind. rewrite Hauth. unfold perfil, try_catch, bind.
    rewrite pool_query_up by assumption. cbn [exec]. rewrite Hz.
    unfold result_of. cbn [rows].
    destruct (map _ (por_id z (usuarios (db w)))); reflexivity. }
  rewrite Hrun. split.
  - intros ->. reflexivity.
  - intros u us ->. repeat split.
Qed.

(** X16. The listing of the accounts shows every account and no hash:
    for a request the middleware lets through, the pool answering and the
    database returning under [ORDER BY] the rows it was given in some order,
    the route answers 200, [total] is the number of accounts of the table,
    active or not, [dados] holds for each account its identifier, name,
    email and active flag, and no row has a property [senha]. *)
Theorem listar_usuarios_todas (req : request) (w : world) (sessao : claims) :
  (forall col desc rs, Permutation (sql_order_by col desc rs) rs) ->
  autenticar req w = (Ret (Seguiu sessao), w) ->
  hd false (outages w) = false ->
  exists linhas,
    get_usuarios req w
    = (Ret (res_json
              [("sucesso"%string, JVal (JBool true));
               ("total"%string, JVal (JNum (Z.of_nat (List.length (usuarios (db w))))));
               ("dados"%string, json_of_rows linhas)]),
       after_query SelectUsuarios w)
    /\ Permutation linhas (map linha_publica (usuarios (db w)))
    /\ Forall (fun linha => field linha "senha" = JUndefined) linhas.
Proof.
  intros Hperm Hauth Hup.
  set (todas := map (usuario_cols ["id"; "nome"; "email"; "ativo"]%string) (usuarios (db w))).
  exists (sql_order_by "nome" false todas).
  assert (Hp : Permutation (sql_order_by "nome" false todas) (map linha_publica (usuarios (db w))))
    by apply Hperm.
  split; [| split].
  - unfold get_usuarios, protegida, bind. rewrite Hauth.
    unfold listar_usuarios, try_catch, bind. rewrite pool_query_up by assumption.
    cbn [exec]. fold todas. unfold result_of, ret. cbn [rows]. unfold js_count.
    rewrite (Permutation_length Hp), length_map. reflexivity.
  - exact Hp.
  - eapply Permutation_Forall; [apply Permutation_sym; exact Hp |].
    apply Forall_forall. intros linha Hin. apply in_map_iff in Hin as (u & <- & _).
    reflexivity.
Qed.

(** *** The validators *)

Lemma matches_opt (r : regex) (s : jsstring) :
  matches (ROpt r) s <-> s = [] \/ matches r s.
Proof.
  unfold ROpt. split.
  - intros H. apply matches_alt_inv in H as [H | H]; [now right |].
    apply matches_eps_inv in H. now left.
  - intros [-> | H]; [apply MAltR; constructor | now apply MAltL].
Qed.

Lemma matches_opt_chr (c : N) (s : jsstring) :
  matches (ROpt (RClass (N.eqb c))) s <-> s = [] \/ s = [c].
Proof.
  rewrite matches_opt. split; intros [H | H]; auto.
  - apply matches_class_inv in H as (c' & -> & Hc). apply N.eqb_eq in Hc as <-. now right.
  - subst. right. constructor. apply N.eqb_refl.
Qed.

Lemma matches_rep_class (p : N -> bool) (n : nat) (s : jsstring) :
  matches (RRep n (RClass p)) s <-> List.length s = n /\ Forall (fun c => p c = true) s.
Proof.
  revert s. induction n as [| n IH]; intros s; cbn [RRep].
  - split.
    + intros H. apply matches_eps_inv in H as ->. split; [reflexivity | constructor].
    + intros [H _]. destruct s; [constructor | discriminate].
  - split.
    + intros H. apply matches_cat_inv in H as (s1 & s2 & -> & H1 & H2).
      apply matches_class_inv in H1 as (c & -> & Hc). apply IH in H2 as [Hl Hf].
      cbn [app List.length]. split; [now rewrite Hl | now constructor].
    + intros [Hl Hf]. destruct s as [| c s]; [discriminate |].
      inversion Hf; subst. change (c :: s) with ([c] ++ s).
      constructor; [now constructor |]. apply IH. split; [now injection Hl | assumption].
Qed.

(** The matcher accepts exactly the strings of the shape. *)
Lemma telefoneRegex_shape (s : jsstring) :
  regex_test telefoneRegex s = true <-> telefone_shape s.
Proof.
  rewrite regex_test_matches. unfold telefoneRegex, telefone_shape. split.
  - intros H.
    apply matches_cat_inv in H as (ddd & s1 & -> & Hddd & H).
    apply matches_cat_inv in H as (nove & s2 & -> & Hnove & H).
    apply matches_cat_inv in H as (a & s3 & -> & Ha & H).
    apply matches_cat_inv in H as (h & b & -> & Hh & Hb).
    apply matches_opt_chr in Hnove. apply matches_opt_chr in Hh.
    apply matches_rep_class in Ha as [Ha1 Ha2]. apply matches_rep_class in Hb as [Hb1 Hb2].
    exists ddd, nove, a, h, b. repeat split; auto.
    apply matches_opt in Hddd as [-> | Hddd]; [now left | right].
    apply matches_cat_inv in Hddd as (ab & t1 & -> & Hab & Hddd).
    apply matches_cat_inv in Hddd as (d & t2 & -> & Hd & Hddd).
    apply matches_cat_inv in Hddd as (fe & sp & -> & Hfe & Hsp).
    apply matches_opt_chr in Hab. apply matches_opt_chr in Hfe.
    apply matches_rep_class in Hd as [Hd1 Hd2].
    exists ab, d, fe, sp. repeat split; auto.
    apply matches_opt in Hsp as [-> | Hsp]; [now left | right].
    apply matches_class_inv in Hsp as (c & -> & Hc). eauto.
  - intros (ddd & nove & a & h & b & -> & Hddd & Hnove & Ha1 & Ha2 & Hh & Hb1 & Hb2).
    constructor.
    + apply matches_opt. destruct Hddd as [-> | (ab & d & fe & sp & -> & Hab & Hd1 & Hd2 & Hfe & Hsp)];
        [now left | right].
      constructor; [now apply matches_opt_chr |].
      constructor; [now apply matches_rep_class |].
      constructor; [now apply matches_opt_chr |].
      apply matches_opt. destruct Hsp as [-> | (c & -> & Hc)]; [now left | right].
      now constructor.
    + constructor; [now apply matches_opt_chr |].
      constructor; [now apply matches_rep_class |].
      constructor; [now apply matches_opt_chr | now apply matches_rep_class].
Qed.

Lemma so_digitos_todos (s : jsstring) :
  Forall (fun c => is_digit c = true) s -> so_digitos s = s.
Proof.
  induction 1 as [| c s Hc _ IH]; [reflexivity |].
  unfold so_digitos in *. cbn [filter]. now rewrite Hc, IH.
Qed.

(** X17. What [validarTelefone] lets through: a string it accepts has
    between 8 and 15 code units, holds between 8 and 11 digits, and is
    made of digits, parentheses, a hyphen and white space only; so a
    number with a country code, or one written with dots, is refused. *)
Theorem validarTelefone_limites (s : jsstring) :
  validarTelefone (JStr s) = true ->
  (8 <= List.length s <= 15)%nat
  /\ (8 <= List.length (so_digitos s) <= 11)%nat
  /\ Forall (fun c => is_digit c || (c =? chr_lpar)%N || (c =? chr_rpar)%N
                      || (c =? chr_hyphen)%N || is_space c = true) s.
Proof.
  unfold validarTelefone. cbn [ToString]. rewrite telefoneRegex_shape.
  intros (ddd & nove & a & h & b & -> & Hddd & Hnove & Ha1 & Ha2 & Hh & Hb1 & Hb2).
  assert (Hdig : forall l, Forall (fun c => is_digit c = true) l ->
            Forall (fun c => is_digit c || (c =? chr_lpar)%N || (c =? chr_rpar)%N
                             || (c =? chr_hyphen)%N || is_space c = true) l).
  { intros l Hl. eapply Forall_impl; [| exact Hl]. cbn beta. intros c ->. reflexivity. }
  assert (Hsp : forall c, is_space c = true -> is_digit c = false).
  { intros c Hc. unfold is_digit. destruct ((48 <=? c)%N && (c <=? 57)%N) eqn:E; [| reflexivity].
    apply andb_true_iff in E as [E1 E2]. apply N.leb_le in E1, E2.
    unfold is_space in Hc.
    repeat (apply orb_true_iff in Hc as [Hc | Hc]);
      repeat match goal with
             | H : (_ && _)%bool = true |- _ => apply andb_true_iff in H as [? ?]
             | H : (_ <=? _)%N = true |- _ => apply N.leb_le in H
             | H : (_ =? _)%N = true |- _ => apply N.eqb_eq in H
             end; lia. }
  assert (Hl : forall c, is_digit c = false -> List.length (so_digitos [c]) = 0%nat).
  { intros c Hc. unfold so_digitos. cbn [filter]. now rewrite Hc. }
  assert (Hd : (List.length ddd <= 5)%nat
               /\ (List.length (so_digitos ddd) <= 2)%nat
               /\ Forall (fun c => is_digit c || (c =? chr_lpar)%N || (c =? chr_rpar)%N
                                   || (c =? chr_hyphen)%N || is_space c = true) ddd).
  { destruct Hddd as [-> | (ab & d & fe & sp & -> & Hab & Hd1 & Hd2 & Hfe & Hsp')].
    - cbn. repeat split; [lia | lia | constructor].
    - assert (Hab' : (List.length ab <= 1)%nat /\ List.length (so_digitos ab) = 0%nat)
        by (destruct Hab as [-> | ->]; split; cbn; (lia || reflexivity)).
      assert (Hfe' : (List.length fe <= 1)%nat /\ List.length (so_digitos fe) = 0%nat)
        by (destruct Hfe as [-> | ->]; split; cbn; (lia || reflexivity)).
      assert (Hsp'' : (List.length sp <= 1)%nat /\ List.length (so_digitos sp) = 0%nat).
      { destruct Hsp' as [-> | (c & -> & Hc)]; [split; cbn; (lia || reflexivity) |].
        split; [cbn; lia | apply Hl, Hsp, Hc]. }
      split; [| split].
      + rewrite !length_app. lia.
      + unfold so_digitos in *. rewrite !filter_app, !length_app.
        fold (so_digitos d). rewrite (so_digitos_todos d Hd2). lia.
      + repeat (apply Forall_app; split); auto.
        * destruct Hab as [-> | ->]; repeat constructor.
        * destruct Hfe as [-> | ->]; repeat constructor.
        * destruct Hsp' as [-> | (c & -> & Hc)]; repeat constructor.
          rewrite Hc. apply orb_true_r. }
  destruct Hd as (Hd1 & Hd2 & Hd3).
  assert (Hn : (List.length nove <= 1)%nat /\ (List.length (so_digitos nove) <= 1)%nat)
    by (destruct Hnove as [-> | ->]; split; cbn; lia).
  assert (Hh' : (List.length h <= 1)%nat /\ List.length (so_digitos h) = 0%nat)
    by (destruct Hh as [-> | ->]; split; cbn; (lia || reflexivity)).
  split; [| split].
  - rewrite !length_app. lia.
  - unfold so_digitos in *. rewrite !filter_app, !length_app.
    fold (so_digitos a) (so_digitos b).
    rewrite (so_digitos_todos a Ha2), (so_digitos_todos b Hb2). lia.
  - repeat (apply Forall_app; split); auto.
    + destruct Hnove as [-> | ->]; repeat constructor.
    + destruct Hh as [-> | ->]; repeat constructor.
Qed.



(*MORE*)

End Coverage.
